(** * CaseClerk AI backend: a shallow embedding of the Express routes

    The backend keeps its data in module-level arrays of plain JavaScript
    objects ([mockCases], [mockDocuments], [mockCallLogs], [mockEvents]) and
    each route handler reads or mutates one of them.  The embedding follows
    that shape:

    - a JavaScript object is a finite map from property names to values
      ([gmap string value]); an object spread [{...a, ...b, k: v}] is a
      right-biased union followed by an insertion;
    - a module-level array is a [list] of such objects, threaded through the
      handlers as explicit state;
    - a handler either sends a response or throws an [ApiError]; the thrown
      error reaches the global [errorHandler] through [asyncHandler];
    - every read of the wall clock ([Date.now()], [new Date()]) is an extra
      argument of the handler that performs it;
    - the npm libraries, the host's date parser and the engine's Unicode
      tables are the fields of the class [Runtime]; where a definition
      models what a library does with them, its comment says so. *)

From Stdlib Require Import ZArith QArith String Ascii List DecimalString Permutation Sorted.
From stdpp Require Import base gmap strings list.

Local Open Scope string_scope.
Local Open Scope list_scope.
Local Open Scope Z_scope.

(** ** JavaScript values *)

(** Numbers are the finite rationals plus [NaN]; this covers every finite
    double.  Infinities do not occur in the handlers modelled here. *)
Inductive number :=
| NaN
| Num (q : Q).

#[warnings="-register-all"] Inductive value :=
| VUndefined
| VNull
| VBool (b : bool)
| VNum (n : number)
| VStr (s : string)
| VArr (l : list value)
| VObj (o : gmap string value).

(** [VInt z] is the number literal [z]. *)
Definition VInt (z : Z) : value := VNum (Num (inject_Z z)).

(** [extend o [(k1, v1); ...; (kn, vn)]] is the object literal
    [{...o, k1: v1, ..., kn: vn}]; a later key wins, as in JavaScript. *)
Definition extend (o : gmap string value) (l : list (string * value)) :
    gmap string value :=
  fold_left (fun m kv => <[fst kv := snd kv]> m) l o.

(** An object literal [{k1: v1, ..., kn: vn}]. *)
Definition object (l : list (string * value)) : gmap string value :=
  extend ∅ l.

(** Property access [o.k]: a missing property reads as [undefined]. *)
Definition get (o : gmap string value) (k : string) : value :=
  default VUndefined (o !! k).

(** Object spread [{...a, ...b}]: properties of [b] override those of [a]. *)
Definition spread (a b : gmap string value) : gmap string value := b ∪ a.

(** ToBoolean, the test behind [if (x)], [!x], [x || y] and [x && y]. *)
Definition truthy (v : value) : bool :=
  match v with
  | VUndefined | VNull => false
  | VBool b => b
  | VNum NaN => false
  | VNum (Num q) => negb (Qeq_bool q 0)
  | VStr s => negb (String.eqb s "")
  | VArr _ | VObj _ => true
  end.

(** [a || b] on values. *)
Definition or_else (a b : value) : value := if truthy a then a else b.

(** Strict equality [a === b].  Arrays and objects compare by reference; the
    handlers only ever compare a stored property with a value parsed from a
    different request (or with a string), so two such references are never
    the same and the comparison is [false]. *)
Definition strict_eq (a b : value) : bool :=
  match a, b with
  | VUndefined, VUndefined => true
  | VNull, VNull => true
  | VBool x, VBool y => Bool.eqb x y
  | VNum (Num x), VNum (Num y) => Qeq_bool x y
  | VStr x, VStr y => String.eqb x y
  | _, _ => false
  end.

(** ** Strings *)

(** A string is held as the bytes of its UTF-8 encoding.  Equality, prefix
    and substring tests on well-formed text agree with those of JavaScript on
    the same text; what depends on the characters themselves (letter case,
    white space) is written out on the encoded bytes. *)

(** [s.startsWith(p)]. *)
Fixpoint startsWith (p s : string) : bool :=
  match p, s with
  | EmptyString, _ => true
  | String a p', String b s' => Ascii.eqb a b && startsWith p' s'
  | String _ _, EmptyString => false
  end.

(** [s.includes(sub)]. *)
Fixpoint includes (s sub : string) : bool :=
  startsWith sub s ||
  match s with
  | EmptyString => false
  | String _ s' => includes s' sub
  end.

(** Lower case within ASCII: the letters [A] to [Z] move to [a] to [z] and
    every other byte is kept. *)
Definition lower_ascii (c : ascii) : ascii :=
  let n := nat_of_ascii c in
  if (Nat.leb 65 n && Nat.leb n 90)%bool then ascii_of_nat (n + 32) else c.

Fixpoint lower_ascii_string (s : string) : string :=
  match s with
  | EmptyString => EmptyString
  | String c s' => String (lower_ascii c) (lower_ascii_string s')
  end.

(** Whether every character of [s] is an ASCII character. *)
Fixpoint all_ascii (s : string) : bool :=
  match s with
  | EmptyString => true
  | String c s' => (Nat.ltb (nat_of_ascii c) 128 && all_ascii s')%bool
  end.

(** [n.toString()] for an integer [n], as in [Date.now().toString()]. *)
Definition Z_toString (n : Z) : string := NilZero.string_of_int (Z.to_int n).

(** ** The host runtime and the npm libraries *)

(** What [jwt.verify] can do: return the decoded payload, throw a
    [JsonWebTokenError] (which includes an expired token), or throw
    something else. *)
Inductive verify_result :=
| Decoded (payload : gmap string value)
| JsonWebTokenError
| OtherError.

Class Runtime := {
  (** [new Date(v).getTime()], with [None] for an invalid date (NaN). *)
  Date_getTime : value -> option Z;
  (** The three parts of the token that [jwt.sign(payload, secret,
      {expiresIn})] makes at a given clock reading: the encoded header, the
      encoded payload with its claims, and the signature. *)
  jwt_parts : gmap string value -> string -> string -> Z ->
              string * string * string;
  (** [jwt.verify(token, secret)] at a given clock reading. *)
  jwt_verify : string -> string -> Z -> verify_result;
  (** [bcrypt.hash(password, rounds)] with the random salt it draws. *)
  bcrypt_hash : string -> Z -> string -> string;
  (** [bcrypt.compare(password, hash)]. *)
  bcrypt_compare : string -> string -> bool;
  (** [path.extname(p)]. *)
  path_extname : string -> string;
  (** [s.toLowerCase()] by the engine's Unicode case tables, for a string
      that has characters outside ASCII. *)
  String_toLowerCase : string -> string;
  (** Whether the installed multer reports [LIMIT_FILE_SIZE] for a file of
      exactly [limits.fileSize] bytes; the releases of its parser differ. *)
  multer_refuses_at_limit : bool
}.

(** Modelled from the spec: [jwt.sign(payload, secret, {expiresIn})] of
    jsonwebtoken, a library that is not among the sources.  The spec has a
    login return "a non-empty [access_token]" and calls the tokens JWTs: a
    JWT is its encoded header, its encoded payload and its signature, joined
    by dots.  The three parts are the runtime's. *)
Definition jwt_sign `{Runtime} (payload : gmap string value)
    (secret expiresIn : string) (now : Z) : string :=
  let '(header, claims, signature) := jwt_parts payload secret expiresIn now in
  header +:+ "." +:+ claims +:+ "." +:+ signature.

(** [s.toLowerCase()]: on ASCII text only the letters [A] to [Z] change;
    any other text goes through the engine's tables. *)
Definition toLowerCase `{Runtime} (s : string) : string :=
  if all_ascii s then lower_ascii_string s else String_toLowerCase s.

(** ** Dates *)

(** [Date.prototype.toISOString] for a time value [t] (milliseconds since the
    epoch), by the proleptic Gregorian calendar of ECMAScript. *)
Definition digit (d : Z) : ascii := ascii_of_nat (48 + Z.to_nat (d mod 10)).

(** The [w] least significant decimal digits of [n], most significant first. *)
Fixpoint digits (w : nat) (n : Z) : string :=
  match w with
  | O => EmptyString
  | S w' => digits w' (n / 10) +:+ String (digit n) EmptyString
  end.

(** Year, month and day of the day number [days] (days since 1970-01-01). *)
Definition civil_from_days (days : Z) : Z * Z * Z :=
  let z := days + 719468 in
  let era := z / 146097 in
  let doe := z - era * 146097 in
  let yoe := (doe - doe / 1460 + doe / 36524 - doe / 146096) / 365 in
  let y := yoe + era * 400 in
  let doy := doe - (365 * yoe + yoe / 4 - yoe / 100) in
  let mp := (5 * doy + 2) / 153 in
  let d := doy - (153 * mp + 2) / 5 + 1 in
  let m := if mp <? 10 then mp + 3 else mp - 9 in
  (if m <=? 2 then y + 1 else y, m, d).

Definition year_string (y : Z) : string :=
  if (0 <=? y) && (y <=? 9999) then digits 4 y
  else if y <? 0 then "-" +:+ digits 6 (- y)
  else "+" +:+ digits 6 y.

Definition toISOString (t : Z) : string :=
  let '(y, m, d) := civil_from_days (t / 86400000) in
  let ms := t mod 86400000 in
  year_string y +:+ "-" +:+ digits 2 m +:+ "-" +:+ digits 2 d +:+ "T" +:+
  digits 2 (ms / 3600000) +:+ ":" +:+ digits 2 (ms / 60000 mod 60) +:+ ":" +:+
  digits 2 (ms / 1000 mod 60) +:+ "." +:+ digits 3 (ms mod 1000) +:+ "Z".

Section Dates.
Context `{Runtime}.

(** [new Date(a) < new Date(b)]: false as soon as one side is invalid. *)
Definition Date_lt (a b : value) : bool :=
  match Date_getTime a, Date_getTime b with
  | Some x, Some y => x <? y
  | _, _ => false
  end.

(** [new Date(a) >= new Date(b)]: false as soon as one side is invalid. *)
Definition Date_ge (a b : value) : bool :=
  match Date_getTime a, Date_getTime b with
  | Some x, Some y => y <=? x
  | _, _ => false
  end.

End Dates.

(** ** Responses and errors *)

(** What [res.status(s).json(b)] sends. *)
Record Response := { status : Z; json : gmap string value }.

(** An [Error] object with the optional fields of [ApiError].  The text of
    a stack trace depends on the engine and the call site; the errors the
    handlers create carry the empty string for it. *)
Record ApiError := {
  name : string;
  message : string;
  statusCode : option Z;
  code : value;
  details : value;
  stack : string
}.

(** [createError(message, statusCode = 500, code?, details?)]; [stack] is
    what [new Error] captured. *)
Definition createError (msg : string) (statusCode : option Z) (code : value)
    (details : value) (stack : string) : ApiError :=
  {| name := "Error";
     message := msg;
     statusCode := Some (default 500 statusCode);
     code := if truthy code then code else VUndefined;
     details := details;
     stack := stack |}.

(** The three-argument calls [createError(message, status, code)] of the
    route handlers. *)
Definition apiError (msg : string) (st : Z) (c : string) : ApiError :=
  createError msg (Some st) (VStr c) VUndefined "".

(** The result of running a route handler under [asyncHandler]: it sent a
    response, or it threw and the error goes to [next]. *)
Inductive outcome :=
| Sent (r : Response)
| Thrown (e : ApiError).

(** An error thrown by the engine itself, such as the [TypeError] of calling
    a method a value does not have; it carries no [statusCode] and no
    [code]. *)
Definition engineError (nm msg : string) : ApiError :=
  {| name := nm; message := msg; statusCode := None; code := VUndefined;
     details := VUndefined; stack := "" |}.

(** The part of an Express request the handlers read.  The body is a
    parsed JSON object and every query parameter a single string.  [user]
    is what [authMiddleware] stored in [req.user]; [file] is what multer
    stored in [req.file]. *)
Record Request := {
  ip : option string;
  path : string;
  url : string;
  originalUrl : string;
  authorization : option string;
  params_id : string;
  query : gmap string string;
  body : gmap string value;
  user : option (gmap string value);
  file : option (gmap string value)
}.

(** [req.user?.id || '1']. *)
Definition user_id_or_1 (req : Request) : value :=
  or_else (match user req with Some u => get u "id" | None => VUndefined end)
          (VStr "1").

(** ** middleware/errorHandler.ts *)

(** [errorHandler(error, req, res, next)]: [NODE_ENV] is
    [process.env.NODE_ENV], [now] the clock reading of the response's
    timestamp. *)
Definition errorHandler (NODE_ENV : option string) (now : Z)
    (error : ApiError) (req : Request) : Response :=
  let statusCode0 :=
    match statusCode error with
    | Some s => if s =? 0 then 500 else s
    | None => 500
    end in
  let message0 :=
    if String.eqb (message error) "" then "Internal server error"
    else message error in
  let code0 := or_else (code error) (VStr "INTERNAL_ERROR") in
  let '(statusCode1, message1, code1) :=
    if String.eqb (name error) "ValidationError" then
      (400, "Validation error", VStr "VALIDATION_ERROR")
    else if String.eqb (name error) "CastError" then
      (400, "Invalid ID format", VStr "INVALID_ID")
    else if String.eqb (name error) "MongoError" &&
            match code error with
            | VNum (Num q) => Qeq_bool q (inject_Z 11000)
            | _ => false
            end then
      (409, "Duplicate entry", VStr "DUPLICATE_ENTRY")
    else if String.eqb (name error) "JsonWebTokenError" then
      (401, "Invalid token", VStr "INVALID_TOKEN")
    else if String.eqb (name error) "TokenExpiredError" then
      (401, "Token expired", VStr "TOKEN_EXPIRED")
    else (statusCode0, message0, code0) in
  let message2 :=
    if bool_decide (NODE_ENV = Some "production") && (statusCode1 =? 500)
    then "Internal server error" else message1 in
  {| status := statusCode1;
     json := object [
       ("success", VBool false);
       ("error", VObj (spread
          (object [("code", code1); ("message", VStr message2)])
          (if bool_decide (NODE_ENV = Some "development")
           then object [("stack", VStr (stack error));
                        ("details", details error)]
           else ∅)));
       ("timestamp", VStr (toISOString now));
       ("path", VStr (url req)) ] |}.

(** [asyncHandler(fn)] followed by the global error handler: a response
    that was sent stays as it is, a thrown error is rendered by
    [errorHandler]. *)
Definition respond (NODE_ENV : option string) (now : Z) (req : Request)
    (o : outcome) : Response :=
  match o with
  | Sent r => r
  | Thrown e => errorHandler NODE_ENV now e req
  end.

(** [notFound(req, res, next)]: the error it passes to [next]. *)
Definition notFound (req : Request) : ApiError :=
  createError ("Route " +:+ originalUrl req +:+ " not found") (Some 404)
              (VStr "NOT_FOUND") VUndefined "".

(** ** Array methods *)

(** [l.findIndex(p)], with [None] for [-1]. *)
Fixpoint findIndex {A} (p : A -> bool) (l : list A) : option nat :=
  match l with
  | [] => None
  | x :: l' => if p x then Some O else S <$> findIndex p l'
  end.

(** [l.filter(p)] for a callback that may throw. *)
Fixpoint filter_throwing {A} (p : A -> ApiError + bool) (l : list A) :
    ApiError + list A :=
  match l with
  | [] => inr []
  | x :: l' =>
    match p x with
    | inl e => inl e
    | inr b =>
      match filter_throwing p l' with
      | inl e => inl e
      | inr r => inr (if b then x :: r else r)
      end
    end
  end.

(** [l.sort(cmp)]: a stable sort.  A comparator result of [NaN] ([None])
    counts as [+0], as [Array.prototype.sort] specifies. *)
Fixpoint insert_sorted {A} (cmp : A -> A -> option Z) (x : A) (l : list A) :
    list A :=
  match l with
  | [] => [x]
  | y :: l' =>
    if 0 <? default 0 (cmp x y) then y :: insert_sorted cmp x l'
    else x :: y :: l'
  end.

Fixpoint Array_sort {A} (cmp : A -> A -> option Z) (l : list A) : list A :=
  match l with
  | [] => []
  | x :: l' => insert_sorted cmp x (Array_sort cmp l')
  end.

(** [l.slice(0, e)] where [e] is a number ([None] for [NaN]). *)
Definition Array_slice0 {A} (l : list A) (e : option Z) : list A :=
  let len := Z.of_nat (length l) in
  let rel := default 0 e in
  let final := if rel <? 0 then Z.max (len + rel) 0 else Z.min rel len in
  take (Z.to_nat final) l.

(** The white space and the line terminators of ECMAScript, by the bytes of
    their UTF-8 encoding: the one-byte ones are U+0009 to U+000D and U+0020,
    the two-byte one is U+00A0, and the three-byte ones are U+1680, U+2000
    to U+200A, U+2028, U+2029, U+202F, U+205F, U+3000 and U+FEFF. *)
Definition is_space (c : ascii) : bool :=
  let n := nat_of_ascii c in
  (Nat.eqb n 32 || (Nat.leb 9 n && Nat.leb n 13))%bool.

Definition is_space2 (a b : ascii) : bool :=
  (Nat.eqb (nat_of_ascii a) 194 && Nat.eqb (nat_of_ascii b) 160)%bool.

Definition is_space3 (a b c : ascii) : bool :=
  let x := nat_of_ascii a in
  let y := nat_of_ascii b in
  let z := nat_of_ascii c in
  ((Nat.eqb x 225 && Nat.eqb y 154 && Nat.eqb z 128) ||
   (Nat.eqb x 226 && Nat.eqb y 128 &&
    ((Nat.leb 128 z && Nat.leb z 138) || Nat.eqb z 168 || Nat.eqb z 169 ||
     Nat.eqb z 175)) ||
   (Nat.eqb x 226 && Nat.eqb y 129 && Nat.eqb z 159) ||
   (Nat.eqb x 227 && Nat.eqb y 128 && Nat.eqb z 128) ||
   (Nat.eqb x 239 && Nat.eqb y 187 && Nat.eqb z 191))%bool.

(** [s.trimStart()], the first step of [parseInt]. *)
Fixpoint trimStart (s : string) : string :=
  match s with
  | String a r =>
    if is_space a then trimStart r
    else
      match r with
      | String b r' =>
        if is_space2 a b then trimStart r'
        else
          match r' with
          | String c r'' => if is_space3 a b c then trimStart r'' else s
          | EmptyString => s
          end
      | EmptyString => s
      end
  | EmptyString => s
  end.

(** [parseInt(s)] without a radix argument: leading white space, an
    optional sign, an optional [0x] prefix, then the longest run of digits;
    [None] is [NaN].  The result is the integer the digits denote; the
    handlers pass it to [slice], which clamps it to the length of the array
    before the rounding of a double could show. *)

Definition digit_value (radix : Z) (c : ascii) : option Z :=
  let n := Z.of_nat (nat_of_ascii c) in
  let d := if (48 <=? n) && (n <=? 57) then n - 48
           else if (97 <=? n) && (n <=? 122) then n - 87
           else if (65 <=? n) && (n <=? 90) then n - 55
           else radix in
  if d <? radix then Some d else None.

Fixpoint parse_digits (radix : Z) (s : string) (acc : option Z) : option Z :=
  match s with
  | String c s' =>
    match digit_value radix c with
    | Some d => parse_digits radix s' (Some (default 0 acc * radix + d))
    | None => acc
    end
  | EmptyString => acc
  end.

Definition parseInt (s : string) : option Z :=
  let s1 := trimStart s in
  let '(sign, s2) :=
    match s1 with
    | String "-" r => (-1, r)
    | String "+" r => (1, r)
    | _ => (1, s1)
    end in
  let '(radix, s3) :=
    match s2 with
    | String "0" (String "x" r) | String "0" (String "X" r) => (16, r)
    | _ => (10, s2)
    end in
  Z.mul sign <$> parse_digits radix s3 None.

(** ** Express routers *)

Inductive method := GET | POST | PUT | DELETE.

Definition method_eqb (a b : method) : bool :=
  match a, b with
  | GET, GET | POST, POST | PUT, PUT | DELETE, DELETE => true
  | _, _ => false
  end.

(** A segment of a route path: a literal, or a parameter such as [:id]. *)
Inductive segment :=
| Lit (s : string)
| Param.

(** A request path is the list of its segments, decoded: [/] is [[]] and
    [/7/end] is [["7"; "end"]].  By Express's defaults a literal matches
    without regard to the case of its letters, which are ASCII letters in
    every route here, and a parameter matches any non-empty segment;
    [path_matches] gives the value of the (last) parameter. *)
Fixpoint path_matches (pattern : list segment) (p : list string)
    (id : string) : option string :=
  match pattern, p with
  | [], [] => Some id
  | Lit l :: pattern', s :: p' =>
    if String.eqb (lower_ascii_string l) (lower_ascii_string s)
    then path_matches pattern' p' id else None
  | Param :: pattern', s :: p' =>
    if String.eqb s "" then None else path_matches pattern' p' s
  | _, _ => None
  end.

(** The routes of a router are tried in the order of their registration;
    the first whose method and path match handles the request. *)
Fixpoint dispatch {H} (routes : list (method * list segment * H))
    (m : method) (p : list string) : option (H * string) :=
  match routes with
  | [] => None
  | (m', pattern, h) :: routes' =>
    match (if method_eqb m' m then path_matches pattern p "" else None) with
    | Some id => Some (h, id)
    | None => dispatch routes' m p
    end
  end.

(** The request as the matched route sees it: [req.params.id] is set. *)
Definition with_id (req : Request) (id : string) : Request :=
  {| ip := ip req; path := path req; url := url req;
     originalUrl := originalUrl req; authorization := authorization req;
     params_id := id; query := query req; body := body req;
     user := user req; file := file req |}.

(** ** routes/cases.ts *)

Module Cases.

(** The module-level array [mockCases] as it is when the server starts. *)
Definition mockCases : list (gmap string value) := [
  object [
    ("id", VStr "1");
    ("case_number", VStr "2024-CV-001234");
    ("title", VStr "Smith vs. Johnson Contract Dispute");
    ("plaintiff", VStr "John Smith");
    ("defendant", VStr "Jane Johnson");
    ("jurisdiction", VStr "Superior Court of California");
    ("status", VStr "active");
    ("case_type", VStr "civil");
    ("priority", VStr "medium");
    ("tags", VArr [VStr "contract"; VStr "business"]);
    ("next_hearing", VStr "2024-02-15T10:00:00Z");
    ("summary", VStr "Contract dispute regarding software development agreement");
    ("created_date", VStr "2024-01-15T10:00:00Z");
    ("updated_date", VStr "2024-01-20T14:30:00Z");
    ("user_id", VStr "1") ];
  object [
    ("id", VStr "2");
    ("case_number", VStr "2024-CR-005678");
    ("title", VStr "State vs. Williams DUI Case");
    ("plaintiff", VStr "State of California");
    ("defendant", VStr "Robert Williams");
    ("jurisdiction", VStr "Municipal Court");
    ("status", VStr "pending");
    ("case_type", VStr "criminal");
    ("priority", VStr "high");
    ("tags", VArr [VStr "dui"; VStr "criminal"]);
    ("next_hearing", VStr "2024-02-10T09:00:00Z");
    ("summary", VStr "DUI case with blood alcohol level of 0.12");
    ("created_date", VStr "2024-01-10T08:00:00Z");
    ("updated_date", VStr "2024-01-18T16:45:00Z");
    ("user_id", VStr "1") ] ].

(** The values of the union type of [CaseData.status]. *)
Definition statuses : list string :=
  ["active"; "pending"; "closed"; "appealed"; "settled"].

Section WithRuntime.
Context `{Runtime}.

(** [c.field?.toLowerCase().includes(term)]: [undefined] when the property
    is null or undefined, a [TypeError] when it is a value without
    [toLowerCase]. *)
Definition lower_includes (c : gmap string value) (field term : string) :
    ApiError + value :=
  match get c field with
  | VUndefined | VNull => inr VUndefined
  | VStr s => inr (VBool (includes (toLowerCase s) term))
  | _ =>
    inl (engineError "TypeError"
           ("c." +:+ field +:+ "?.toLowerCase is not a function"))
  end.

End WithRuntime.

(** [a || b] where both sides may throw and [b] is only evaluated when [a]
    is falsy. *)
Definition or_throwing (a : ApiError + value) (b : ApiError + value) :
    ApiError + value :=
  match a with
  | inl e => inl e
  | inr v => if truthy v then inr v else b
  end.

Section WithRuntime.
Context `{Runtime}.

(** The callback of the search filter of [GET /api/cases]. *)
Definition search_matches (term : string) (c : gmap string value) :
    ApiError + bool :=
  match or_throwing (lower_includes c "case_number" term)
       (or_throwing (lower_includes c "title" term)
       (or_throwing (lower_includes c "plaintiff" term)
                    (lower_includes c "defendant" term))) with
  | inl e => inl e
  | inr v => inr (truthy v)
  end.

End WithRuntime.

(** A query parameter that is present, non-empty and not ['all']. *)
Definition active_filter (q : option string) : option string :=
  match q with
  | Some s => if String.eqb s "" || String.eqb s "all" then None else Some s
  | None => None
  end.

(** [cases.filter(c => c[field] === wanted)] when the filter applies. *)
Definition filter_field (field : string) (q : option string)
    (cases : list (gmap string value)) : list (gmap string value) :=
  match active_filter q with
  | Some wanted =>
    List.filter (fun c => strict_eq (get c field) (VStr wanted)) cases
  | None => cases
  end.

Section WithRuntime.
Context `{Runtime}.

(** [new Date(a.updated_date).getTime() - new Date(b.updated_date).getTime()];
    [None] is [NaN]. *)
Definition updated_diff (a b : gmap string value) : option Z :=
  match Date_getTime (get a "updated_date"), Date_getTime (get b "updated_date") with
  | Some x, Some y => Some (x - y)
  | _, _ => None
  end.

(** [GET /api/cases]. *)
Definition get_root (store : list (gmap string value)) (req : Request) :
    outcome :=
  let sort := default "-updated_date" (query req !! "sort") in
  let limit := query req !! "limit" in
  let search := query req !! "search" in
  let cases := store in
  let cases := filter_field "status" (query req !! "status") cases in
  let cases := filter_field "case_type" (query req !! "case_type") cases in
  let cases := filter_field "priority" (query req !! "priority") cases in
  let searched :=
    match search with
    | Some s =>
      if String.eqb s "" then inr cases
      else filter_throwing (search_matches (toLowerCase s)) cases
    | None => inr cases
    end in
  match searched with
  | inl e => Thrown e
  | inr cases =>
    let cases :=
      if String.eqb sort "-updated_date" then
        Array_sort (fun a b => updated_diff b a) cases
      else if String.eqb sort "updated_date" then
        Array_sort (fun a b => updated_diff a b) cases
      else cases in
    let cases :=
      match limit with
      | Some l => if String.eqb l "" then cases
                  else Array_slice0 cases (parseInt l)
      | None => cases
      end in
    Sent {| status := 200;
            json := object [
              ("success", VBool true);
              ("data", VArr (VObj <$> cases));
              ("total", VInt (Z.of_nat (length cases))) ] |}
  end.

End WithRuntime.

(** [GET /api/cases/:id]. *)
Definition get_by_id (store : list (gmap string value)) (req : Request) :
    outcome :=
  match List.find (fun c => strict_eq (get c "id") (VStr (params_id req))) store with
  | None => Thrown (apiError "Case not found" 404 "CASE_NOT_FOUND")
  | Some case_item =>
    Sent {| status := 200;
            json := object [("success", VBool true);
                            ("data", VObj case_item)] |}
  end.

(** [POST /api/cases]; [now] is the reading of [Date.now()], [t_created]
    and [t_updated] those of the two [new Date()]. *)
Definition post_root (store : list (gmap string value)) (req : Request)
    (now t_created t_updated : Z) : outcome * list (gmap string value) :=
  let caseData := body req in
  if negb (truthy (get caseData "case_number")) ||
     negb (truthy (get caseData "title")) then
    (Thrown (apiError "Case number and title are required" 400
                      "MISSING_REQUIRED_FIELDS"), store)
  else
    match List.find (fun c => strict_eq (get c "case_number")
                                        (get caseData "case_number")) store with
    | Some _ =>
      (Thrown (apiError "Case number already exists" 409
                        "DUPLICATE_CASE_NUMBER"), store)
    | None =>
      let newCase := extend caseData [
        ("id", VStr (Z_toString now));
        ("created_date", VStr (toISOString t_created));
        ("updated_date", VStr (toISOString t_updated));
        ("user_id", user_id_or_1 req) ] in
      (Sent {| status := 201;
               json := object [
                 ("success", VBool true);
                 ("data", VObj newCase);
                 ("message", VStr "Case created successfully") ] |},
       store ++ [newCase])
    end.

(** [PUT /api/cases/:id]. *)
Definition put_by_id (store : list (gmap string value)) (req : Request)
    (t_updated : Z) : outcome * list (gmap string value) :=
  let updates := body req in
  match findIndex (fun c => strict_eq (get c "id") (VStr (params_id req))) store with
  | None => (Thrown (apiError "Case not found" 404 "CASE_NOT_FOUND"), store)
  | Some caseIndex =>
    let updated :=
      extend (spread (default ∅ (store !! caseIndex)) updates)
             [("updated_date", VStr (toISOString t_updated))] in
    (Sent {| status := 200;
             json := object [
               ("success", VBool true);
               ("data", VObj updated);
               ("message", VStr "Case updated successfully") ] |},
     <[caseIndex := updated]> store)
  end.

(** [DELETE /api/cases/:id]. *)
Definition delete_by_id (store : list (gmap string value)) (req : Request) :
    outcome * list (gmap string value) :=
  match findIndex (fun c => strict_eq (get c "id") (VStr (params_id req))) store with
  | None => (Thrown (apiError "Case not found" 404 "CASE_NOT_FOUND"), store)
  | Some caseIndex =>
    (Sent {| status := 200;
             json := object [
               ("success", VBool true);
               ("message", VStr "Case deleted successfully") ] |},
     delete caseIndex store)
  end.

Section WithRuntime.
Context `{Runtime}.

(** The callback of the filter of [GET /api/cases/search], which also
    looks into the summary. *)
Definition search_matches_summary (term : string) (c : gmap string value) :
    ApiError + bool :=
  match or_throwing (lower_includes c "case_number" term)
       (or_throwing (lower_includes c "title" term)
       (or_throwing (lower_includes c "plaintiff" term)
       (or_throwing (lower_includes c "defendant" term)
                    (lower_includes c "summary" term)))) with
  | inl e => inl e
  | inr v => inr (truthy v)
  end.

(** The handler registered for [GET /api/cases/search]. *)
Definition get_search (store : list (gmap string value)) (req : Request) :
    outcome :=
  match query req !! "q" with
  | Some q =>
    if String.eqb q "" then
      Thrown (apiError "Search query required" 400 "MISSING_QUERY")
    else
      match filter_throwing (search_matches_summary (toLowerCase q)) store with
      | inl e => Thrown e
      | inr results =>
        Sent {| status := 200;
                json := object [
                  ("success", VBool true);
                  ("data", VArr (VObj <$> results));
                  ("total", VInt (Z.of_nat (length results)));
                  ("query", VStr q) ] |}
      end
  | None => Thrown (apiError "Search query required" 400 "MISSING_QUERY")
  end.

End WithRuntime.

(** [mockCases.filter(c => c[field] === v).length]. *)
Definition count_where (field v : string) (store : list (gmap string value)) :
    Z :=
  Z.of_nat (length (List.filter
                      (fun c => strict_eq (get c field) (VStr v)) store)).

(** The handler registered for [GET /api/cases/stats]. *)
Definition get_stats (store : list (gmap string value)) : outcome :=
  Sent {| status := 200;
          json := object [
            ("success", VBool true);
            ("data", VObj (object [
               ("total", VInt (Z.of_nat (length store)));
               ("active", VInt (count_where "status" "active" store));
               ("pending", VInt (count_where "status" "pending" store));
               ("closed", VInt (count_where "status" "closed" store));
               ("urgent", VInt (count_where "priority" "urgent" store));
               ("by_type", VObj (object [
                  ("civil", VInt (count_where "case_type" "civil" store));
                  ("criminal", VInt (count_where "case_type" "criminal" store));
                  ("family", VInt (count_where "case_type" "family" store));
                  ("probate", VInt (count_where "case_type" "probate" store));
                  ("bankruptcy", VInt (count_where "case_type" "bankruptcy" store));
                  ("administrative",
                   VInt (count_where "case_type" "administrative" store)) ]))
            ])) ] |}.

(** The handlers of the router, and its routes in the order in which the
    file registers them. *)
Inductive handler :=
| GetRoot | GetById | PostRoot | PutById | DeleteById | GetSearch | GetStats.

Definition routes : list (method * list segment * handler) := [
  (GET, [], GetRoot);
  (GET, [Param], GetById);
  (POST, [], PostRoot);
  (PUT, [Param], PutById);
  (DELETE, [Param], DeleteById);
  (GET, [Lit "search"], GetSearch);
  (GET, [Lit "stats"], GetStats) ].

Section Router.
Context `{Runtime}.

(** The router of [/api/cases]: the outcome of the route that handles the
    request and the store afterwards, or [None] when no route matches and
    the request falls through.  [clock k] is the [k]-th reading of the
    clock the handler takes. *)
Definition router (store : list (gmap string value)) (req : Request)
    (m : method) (p : list string) (clock : nat -> Z) :
    option (outcome * list (gmap string value)) :=
  match dispatch routes m p with
  | None => None
  | Some (h, id) =>
    let req := with_id req id in
    Some match h with
         | GetRoot => (get_root store req, store)
         | GetById => (get_by_id store req, store)
         | PostRoot =>
           post_root store req (clock 0%nat) (clock 1%nat) (clock 2%nat)
         | PutById => put_by_id store req (clock 0%nat)
         | DeleteById => delete_by_id store req
         | GetSearch => (get_search store req, store)
         | GetStats => (get_stats store, store)
         end
  end.

End Router.

End Cases.

(** A middleware either passes control on ([next()]), possibly having
    attached something to the request or the response, or answers itself. *)
Inductive passed (A : Type) :=
| Next (a : A)
| Answered (r : Response).
Arguments Next {A} a.
Arguments Answered {A} r.

(** ** middleware/auth.ts and routes/auth.ts *)

Module Auth.
Section WithRuntime.
Context `{Runtime}.

(** [process.env.JWT_SECRET || 'your-secret-key-change-in-production']. *)
Definition JWT_SECRET (env : option string) : string :=
  match env with
  | Some s => if String.eqb s "" then "your-secret-key-change-in-production" else s
  | None => "your-secret-key-change-in-production"
  end.

(** [generateToken(payload)], signed at clock reading [now]. *)
Definition generateToken (env : option string) (now : Z)
    (payload : gmap string value) : string :=
  jwt_sign payload (JWT_SECRET env) "24h" now.

(** [generateRefreshToken(payload)]. *)
Definition generateRefreshToken (env : option string) (now : Z)
    (payload : gmap string value) : string :=
  jwt_sign payload (JWT_SECRET env) "7d" now.

(** [decoded.exp < Date.now() / 1000]; [jwt.verify] only returns payloads
    whose [exp], when present, is a number, and [undefined < x] is false. *)
Definition exp_before (decoded : gmap string value) (now : Z) : bool :=
  match get decoded "exp" with
  | VNum (Num e) => negb (Qle_bool (Qmake now 1000) e)
  | _ => false
  end.

(** [authMiddleware(req, res, next)]: [t_verify] is the clock as
    [jwt.verify] reads it, [now] the reading of [Date.now()]. *)
Definition authMiddleware (env : option string) (t_verify now : Z)
    (req : Request) : passed Request :=
  let unauthorized msg :=
    Answered {| status := 401;
                json := object [("success", VBool false);
                                ("message", VStr msg)] |} in
  match authorization req with
  | None => unauthorized "Access token required"
  | Some authHeader =>
    if String.eqb authHeader "" || negb (startsWith "Bearer " authHeader) then
      unauthorized "Access token required"
    else
      let token := substring 7 (String.length authHeader - 7) authHeader in
      match jwt_verify token (JWT_SECRET env) t_verify with
      | Decoded decoded =>
        if exp_before decoded now then unauthorized "Token expired"
        else
          Next {| ip := ip req; path := path req; url := url req;
                  originalUrl := originalUrl req;
                  authorization := authorization req;
                  params_id := params_id req; query := query req;
                  body := body req;
                  user := Some (object [("id", get decoded "id");
                                        ("email", get decoded "email");
                                        ("role", get decoded "role")]);
                  file := file req |}
      | JsonWebTokenError => unauthorized "Invalid token"
      | OtherError =>
        Answered {| status := 500;
                    json := object [("success", VBool false);
                                    ("message", VStr "Authentication error")] |}
      end
  end.

(** The array [mockUsers] that [POST /api/auth/login] builds on every call;
    [salt] is the salt [bcrypt.hash] draws for the demo password. *)
Definition mockUsers (salt : string) : list (gmap string value) := [
  object [
    ("id", VStr "1");
    ("email", VStr "demo@caseclerk.ai");
    ("password", VStr (bcrypt_hash "demo123" 10 salt));
    ("full_name", VStr "Demo User");
    ("role", VStr "attorney");
    ("onboarding_completed", VBool true) ] ].

(** The body of the [try] block of [POST /api/auth/login].
    [bcrypt.compare] rejects arguments that are not strings. *)
Definition login_attempt (env : option string) (req : Request)
    (salt : string) (t_access t_refresh : Z) : outcome :=
  let email := get (body req) "email" in
  let password := get (body req) "password" in
  match List.find (fun u => strict_eq (get u "email") email) (mockUsers salt) with
  | None => Thrown (apiError "Invalid credentials" 401 "INVALID_CREDENTIALS")
  | Some user =>
    match password, get user "password" with
    | VStr pw, VStr hash =>
      if negb (bcrypt_compare pw hash) then
        Thrown (apiError "Invalid credentials" 401 "INVALID_CREDENTIALS")
      else
        let accessToken :=
          generateToken env t_access
            (object [("id", get user "id"); ("email", get user "email");
                     ("role", get user "role")]) in
        let refreshToken :=
          generateRefreshToken env t_refresh
            (object [("id", get user "id"); ("email", get user "email")]) in
        Sent {| status := 200;
                json := object [
                  ("success", VBool true);
                  ("data", VObj (object [
                     ("user", VObj (object [
                        ("id", get user "id");
                        ("email", get user "email");
                        ("full_name", get user "full_name");
                        ("role", get user "role");
                        ("onboarding_completed",
                         get user "onboarding_completed") ]));
                     ("access_token", VStr accessToken);
                     ("refresh_token", VStr refreshToken);
                     ("expires_in", VInt (24 * 60 * 60)) ])) ] |}
    | _, _ => Thrown (engineError "Error" "Illegal arguments")
    end
  end.

(** [POST /api/auth/login]: whatever the [try] block throws is replaced by
    the [AUTH_FAILED] error. *)
Definition login (env : option string) (req : Request) (salt : string)
    (t_access t_refresh : Z) : outcome :=
  if negb (truthy (get (body req) "email")) ||
     negb (truthy (get (body req) "password")) then
    Thrown (apiError "Email and password are required" 400
                     "MISSING_CREDENTIALS")
  else
    match login_attempt env req salt t_access t_refresh with
    | Sent r => Sent r
    | Thrown _ => Thrown (apiError "Authentication failed" 401 "AUTH_FAILED")
    end.

(** [array.includes(v)] for an array of strings and any value [v]. *)
Definition includes_value (l : list string) (v : value) : bool :=
  match v with
  | VStr s => existsb (String.eqb s) l
  | _ => false
  end.

(** [requireRole(roles)(req, res, next)]. *)
Definition requireRole (roles : list string) (req : Request) :
    passed Request :=
  match user req with
  | None =>
    Answered {| status := 401;
                json := object [("success", VBool false);
                                ("message", VStr "Authentication required")] |}
  | Some u =>
    if negb (includes_value roles (get u "role")) then
      Answered {| status := 403;
                  json := object [("success", VBool false);
                                  ("message", VStr "Insufficient permissions")] |}
    else Next req
  end.

(** [verifyRefreshToken(token)], with [None] for [null]: whatever
    [jwt.verify] throws is caught, and it throws a [JsonWebTokenError] for
    a token that is not a string. *)
Definition verifyRefreshToken (env : option string) (now : Z)
    (token : value) : option (gmap string value) :=
  match token with
  | VStr t =>
    match jwt_verify t (JWT_SECRET env) now with
    | Decoded decoded =>
      Some (object [("id", get decoded "id");
                    ("email", get decoded "email")])
    | _ => None
    end
  | _ => None
  end.

(** [POST /api/auth/refresh]; [t_verify] is the clock as [jwt.verify] reads
    it, [t_sign] as [jwt.sign] does. *)
Definition refresh (env : option string) (req : Request)
    (t_verify t_sign : Z) : outcome :=
  let refresh_token := get (body req) "refresh_token" in
  if negb (truthy refresh_token) then
    Thrown (apiError "Refresh token required" 400 "MISSING_REFRESH_TOKEN")
  else
    match verifyRefreshToken env t_verify refresh_token with
    | None =>
      Thrown (apiError "Invalid refresh token" 401 "INVALID_REFRESH_TOKEN")
    | Some decoded =>
      let accessToken :=
        generateToken env t_sign
          (object [("id", get decoded "id"); ("email", get decoded "email");
                   ("role", VStr "attorney")]) in
      Sent {| status := 200;
              json := object [
                ("success", VBool true);
                ("data", VObj (object [
                   ("access_token", VStr accessToken);
                   ("expires_in", VInt (24 * 60 * 60)) ])) ] |}
    end.

End WithRuntime.
End Auth.

(** ** middleware/rateLimiter.ts *)

Module RateLimiter.

(** An entry of the module-level [store]. *)
Record entry := { count : Z; resetTime : Z }.

(** The limits chosen from the request path: [(maxRequests, windowMs)]. *)
Definition limits (p : string) : Z * Z :=
  if includes p "/auth/login" then (5, 15 * 60 * 1000)
  else if includes p "/upload" then (10, 60 * 1000)
  else if includes p "/ai/" then (20, 60 * 1000)
  else (100, 15 * 60 * 1000).

(** [Math.ceil(a / b)] for integers [a] and positive [b]. *)
Definition ceil_div (a b : Z) : Z := - ((- a) / b).

(** [rateLimiter(req, res, next)] at clock reading [now]: the headers it
    sets when it calls [next()], or the response it sends, and the store
    afterwards. *)
Definition rateLimiter (store : gmap string entry) (req : Request) (now : Z) :
    passed (list (string * string)) * gmap string entry :=
  let clientId :=
    match ip req with
    | Some a => if String.eqb a "" then "unknown" else a
    | None => "unknown"
    end in
  let '(maxRequests, windowMs) := limits (path req) in
  let key := clientId +:+ ":" +:+ path req in
  let fresh :=
    (Next [("X-RateLimit-Limit", Z_toString maxRequests);
           ("X-RateLimit-Remaining", Z_toString (maxRequests - 1));
           ("X-RateLimit-Reset", toISOString (now + windowMs))],
     <[key := {| count := 1; resetTime := now + windowMs |}]> store) in
  match store !! key with
  | None => fresh
  | Some record =>
    if resetTime record <? now then fresh
    else if maxRequests <=? count record then
      (Answered {| status := 429;
                   json := object [
                     ("success", VBool false);
                     ("message", VStr "Too many requests");
                     ("retryAfter",
                      VInt (ceil_div (resetTime record - now) 1000)) ] |},
       store)
    else
      (Next [("X-RateLimit-Limit", Z_toString maxRequests);
             ("X-RateLimit-Remaining",
              Z_toString (maxRequests - (count record + 1)));
             ("X-RateLimit-Reset", toISOString (resetTime record))],
       <[key := {| count := count record + 1;
                   resetTime := resetTime record |}]> store)
  end.

(** The client id and the store key of a request, as [rateLimiter]
    computes them: [req.ip || 'unknown'] and [`${clientId}:${req.path}`]. *)
Definition clientId (req : Request) : string :=
  match ip req with
  | Some a => if String.eqb a "" then "unknown" else a
  | None => "unknown"
  end.

Definition key (req : Request) : string := clientId req +:+ ":" +:+ path req.

(** The callback of [setInterval]: every entry whose window has ended
    before [now] is deleted. *)
Definition cleanup (store : gmap string entry) (now : Z) : gmap string entry :=
  filter (fun kv => ¬ (resetTime (snd kv) < now)) store.

(** The same request arriving at each of the clock readings [times], in
    turn: what the limiter did with each arrival, and the store at the end. *)
Fixpoint replay (store : gmap string entry) (req : Request) (times : list Z) :
    list (passed (list (string * string))) * gmap string entry :=
  match times with
  | [] => ([], store)
  | t :: times' =>
    let '(r, store1) := rateLimiter store req t in
    let '(rs, store2) := replay store1 req times' in
    (r :: rs, store2)
  end.

End RateLimiter.

(** Whether a middleware passed control on. *)
Definition admitted {A} (p : passed A) : bool :=
  match p with Next _ => true | Answered _ => false end.

(** ** index.ts: the handler of unmatched routes *)

(** [app.use('*', ...)], registered after all the routes. *)
Definition notFoundHandler (req : Request) : Response :=
  {| status := 404;
     json := object [("success", VBool false);
                     ("message", VStr "Route not found");
                     ("path", VStr (originalUrl req))] |}.

(** The envelope [{success: false, error: {code, message}}]: [success] is
    [false] and [error] is an object with a [code] and a [message]. *)
Definition has_envelope (r : Response) : bool :=
  strict_eq (get (json r) "success") (VBool false) &&
  match get (json r) "error" with
  | VObj err => bool_decide (is_Some (err !! "code")) &&
                bool_decide (is_Some (err !! "message"))
  | _ => false
  end.

(** ** routes/documents.ts *)

Module Documents.

(** A file part of a multipart request as multer sees it: the form field
    it was sent under, its name and MIME type, and its size in bytes. *)
Record Upload := {
  fieldname : string;
  originalname : string;
  mimetype : string;
  size : Z
}.

(** [limits.fileSize] of the multer configuration. *)
Definition fileSize : Z := 50 * 1024 * 1024.

Definition allowedTypes : list string := [
  "application/pdf";
  "application/msword";
  "application/vnd.openxmlformats-officedocument.wordprocessingml.document";
  "text/plain";
  "image/jpeg";
  "image/png";
  "image/gif" ].

(** [array.includes(s)] for an array of strings. *)
Definition Array_includes (l : list string) (s : string) : bool :=
  existsb (String.eqb s) l.

(** The [fileFilter] callback: [cb(null, true)] or [cb(error)]. *)
Definition fileFilter (f : Upload) : ApiError + bool :=
  if Array_includes allowedTypes (mimetype f) then inr true
  else inl (engineError "Error" "File type not supported").

(** The error multer passes to [next] for one of its limit codes. *)
Definition MulterError (c msg : string) : ApiError :=
  {| name := "MulterError"; message := msg; statusCode := None;
     code := VStr c; details := VUndefined; stack := "" |}.

Section WithRuntime.
Context `{Runtime}.

(** The [filename] callback of the disk storage; [now] is [Date.now()] and
    [rnd] is [Math.round(Math.random() * 1E9)]. *)
Definition filename (f : Upload) (now rnd : Z) : string :=
  fieldname f +:+ "-" +:+ Z_toString now +:+ "-" +:+ Z_toString rnd +:+
  path_extname (originalname f).

(** Whether storing a part of [n] bytes runs into [limits.fileSize]. *)
Definition over_limit (n : Z) : bool :=
  (fileSize <? n) || ((n =? fileSize) && multer_refuses_at_limit).

(** Modelled from the spec: [upload.single('file')] of multer, a library
    that is not among the sources.  The spec gives the route a "50MB limit"
    and "whitelisted MIME types" and has an upload "exceeding 50MB"
    rejected.  The limit, the file filter and the file name are those the
    source configures multer with, and the checks come in the order of
    multer's middleware: a request without a file part passes with
    [req.file] undefined, and so does one whose file part has no file name,
    which is skipped; a file part under another field name is an unexpected
    file; then the file filter decides; then the part is stored, which fails
    once it holds more than [limits.fileSize] bytes (for a part of exactly
    that many bytes the runtime says which way it goes).  An error goes to
    [next(err)] and the route handler does not run.  Of the properties of
    [req.file], those the route handler reads are kept. *)
Definition upload_single (u : option Upload) (now rnd : Z) :
    ApiError + option (gmap string value) :=
  match u with
  | None => inr None
  | Some f =>
    if String.eqb (originalname f) "" then inr None
    else if negb (String.eqb (fieldname f) "file") then
      inl (MulterError "LIMIT_UNEXPECTED_FILE" "Unexpected field")
    else
      match fileFilter f with
      | inl e => inl e
      | inr false => inr None
      | inr true =>
        if over_limit (size f) then
          inl (MulterError "LIMIT_FILE_SIZE" "File too large")
        else
          inr (Some (object [
            ("fieldname", VStr (fieldname f));
            ("originalname", VStr (originalname f));
            ("mimetype", VStr (mimetype f));
            ("filename", VStr (filename f now rnd));
            ("size", VInt (size f)) ]))
      end
  end.

End WithRuntime.

(** The module-level array [mockDocuments] as it is when the server starts. *)
Definition mockDocuments : list (gmap string value) := [
  object [
    ("id", VStr "1");
    ("case_id", VStr "1");
    ("original_name", VStr "contract_agreement.pdf");
    ("file_name", VStr "doc-1234567890-contract_agreement.pdf");
    ("file_url", VStr "/uploads/doc-1234567890-contract_agreement.pdf");
    ("file_size", VInt 2048576);
    ("mime_type", VStr "application/pdf");
    ("document_type", VStr "other");
    ("status", VStr "completed");
    ("ai_summary", VStr "Software development contract between Smith and Johnson for web application development.");
    ("extracted_text", VStr "This agreement is entered into between John Smith and Jane Johnson...");
    ("tags", VArr [VStr "contract"; VStr "software"; VStr "development"]);
    ("metadata", VObj (object [("pages", VInt 5); ("word_count", VInt 1250)]));
    ("created_date", VStr "2024-01-15T10:00:00Z");
    ("updated_date", VStr "2024-01-15T10:30:00Z");
    ("user_id", VStr "1") ] ].

(** A template literal [`/uploads/${v}`] and string concatenation convert
    their operand to a string; the file name multer stores is one. *)
Definition string_of (v : value) : string :=
  match v with VStr s => s | _ => "" end.

(** The route handler of [POST /api/documents/upload], run after multer has
    set [req.file] and [req.body].  The timer that marks a document under
    processing as completed two seconds later is not part of the request. *)
Definition upload_handler (store : list (gmap string value)) (req : Request)
    (now t_created t_updated : Z) : outcome * list (gmap string value) :=
  match file req with
  | None => (Thrown (apiError "No file uploaded" 400 "NO_FILE"), store)
  | Some f =>
    let case_id := get (body req) "case_id" in
    let document_type :=
      match get (body req) "document_type" with
      | VUndefined => VStr "other"
      | v => v
      end in
    let processed :=
      strict_eq (get f "mimetype") (VStr "application/pdf") ||
      strict_eq (get f "mimetype") (VStr "text/plain") in
    let newDocument := object [
      ("id", VStr (Z_toString now));
      ("case_id", case_id);
      ("original_name", get f "originalname");
      ("file_name", get f "filename");
      ("file_url", VStr ("/uploads/" +:+ string_of (get f "filename")));
      ("file_size", get f "size");
      ("mime_type", get f "mimetype");
      ("document_type", document_type);
      ("status", VStr (if processed then "processing" else "completed"));
      ("tags", VArr []);
      ("metadata", VObj ∅);
      ("created_date", VStr (toISOString t_created));
      ("updated_date", VStr (toISOString t_updated));
      ("user_id", user_id_or_1 req) ] in
    (Sent {| status := 201;
             json := object [
               ("success", VBool true);
               ("data", VObj newDocument);
               ("message", VStr "Document uploaded successfully") ] |},
     store ++ [newDocument])
  end.

Section WithRuntime.
Context `{Runtime}.

(** [POST /api/documents/upload]: multer first, then the route handler.
    [u] is the file part of the request, if it has one. *)
Definition post_upload (store : list (gmap string value)) (req : Request)
    (u : option Upload) (t_name rnd now t_created t_updated : Z) :
    outcome * list (gmap string value) :=
  match upload_single u t_name rnd with
  | inl e => (Thrown e, store)
  | inr f =>
    upload_handler store
      {| ip := ip req; path := path req; url := url req;
         originalUrl := originalUrl req; authorization := authorization req;
         params_id := params_id req; query := query req; body := body req;
         user := user req; file := f |}
      now t_created t_updated
  end.

End WithRuntime.

(** The handlers of the router, and its routes in the order in which the
    file registers them. *)
Inductive handler :=
| GetRoot | GetById | PostUpload | PutById | DeleteById | GetDownload
| PostProcess | GetStatus | GetSearch | GetStats.

Definition routes : list (method * list segment * handler) := [
  (GET, [], GetRoot);
  (GET, [Param], GetById);
  (POST, [Lit "upload"], PostUpload);
  (PUT, [Param], PutById);
  (DELETE, [Param], DeleteById);
  (GET, [Param; Lit "download"], GetDownload);
  (POST, [Param; Lit "process"], PostProcess);
  (GET, [Param; Lit "status"], GetStatus);
  (GET, [Lit "search"], GetSearch);
  (GET, [Lit "stats"], GetStats) ].

End Documents.

(** ** routes/calendarEvents.ts *)

Module CalendarEvents.
Section WithRuntime.
Context `{Runtime}.

(** [POST /api/calendar-events]. *)
Definition post_root (store : list (gmap string value)) (req : Request)
    (now t_created t_updated : Z) : outcome * list (gmap string value) :=
  let eventData := body req in
  if negb (truthy (get eventData "title")) ||
     negb (truthy (get eventData "start_time")) ||
     negb (truthy (get eventData "end_time")) then
    (Thrown (apiError "Title, start time, and end time are required" 400
                      "MISSING_REQUIRED_FIELDS"), store)
  else if Date_ge (get eventData "start_time") (get eventData "end_time") then
    (Thrown (apiError "End time must be after start time" 400
                      "INVALID_DATE_RANGE"), store)
  else
    let newEvent := extend eventData [
      ("id", VStr (Z_toString now));
      ("created_date", VStr (toISOString t_created));
      ("updated_date", VStr (toISOString t_updated));
      ("user_id", user_id_or_1 req) ] in
    (Sent {| status := 201;
             json := object [
               ("success", VBool true);
               ("data", VObj newEvent);
               ("message", VStr "Calendar event created successfully") ] |},
     store ++ [newEvent]).

(** [PUT /api/calendar-events/:id]. *)
Definition put_by_id (store : list (gmap string value)) (req : Request)
    (t_updated : Z) : outcome * list (gmap string value) :=
  let updates := body req in
  match findIndex (fun e => strict_eq (get e "id") (VStr (params_id req))) store with
  | None =>
    (Thrown (apiError "Calendar event not found" 404 "EVENT_NOT_FOUND"), store)
  | Some eventIndex =>
    let event := default ∅ (store !! eventIndex) in
    let startTime := or_else (get updates "start_time") (get event "start_time") in
    let endTime := or_else (get updates "end_time") (get event "end_time") in
    if (truthy (get updates "start_time") || truthy (get updates "end_time")) &&
       Date_ge startTime endTime then
      (Thrown (apiError "End time must be after start time" 400
                        "INVALID_DATE_RANGE"), store)
    else
      let updated :=
        extend (spread event updates)
               [("updated_date", VStr (toISOString t_updated))] in
      (Sent {| status := 200;
               json := object [
                 ("success", VBool true);
                 ("data", VObj updated);
                 ("message", VStr "Calendar event updated successfully") ] |},
       <[eventIndex := updated]> store)
  end.

(** [PUT /api/calendar-events/:id/reschedule]. *)
Definition put_reschedule (store : list (gmap string value)) (req : Request)
    (t_updated : Z) : outcome * list (gmap string value) :=
  let start_time := get (body req) "start_time" in
  let end_time := get (body req) "end_time" in
  if negb (truthy start_time) || negb (truthy end_time) then
    (Thrown (apiError "Start time and end time are required" 400
                      "MISSING_TIMES"), store)
  else
    match findIndex (fun e => strict_eq (get e "id") (VStr (params_id req))) store with
    | None =>
      (Thrown (apiError "Calendar event not found" 404 "EVENT_NOT_FOUND"),
       store)
    | Some eventIndex =>
      if Date_ge start_time end_time then
        (Thrown (apiError "End time must be after start time" 400
                          "INVALID_DATE_RANGE"), store)
      else
        let updated :=
          extend (default ∅ (store !! eventIndex)) [
            ("start_time", start_time);
            ("end_time", end_time);
            ("status", VStr "rescheduled");
            ("updated_date", VStr (toISOString t_updated)) ] in
        (Sent {| status := 200;
                 json := object [
                   ("success", VBool true);
                   ("data", VObj updated);
                   ("message", VStr "Event rescheduled successfully") ] |},
         <[eventIndex := updated]> store)
    end.

(** An event whose start is strictly earlier than its end, as dates. *)
Definition starts_before_end (e : gmap string value) : bool :=
  Date_lt (get e "start_time") (get e "end_time").

(** Every truthy [start_time] or [end_time] of a request body is a value
    the [Date] constructor turns into a valid date. *)
Definition supplies_valid_dates (b : gmap string value) : Prop :=
  ∀ k v, k ∈ ["start_time"; "end_time"] → b !! k = Some v →
         truthy v = true → is_Some (Date_getTime v).

(** Every [start_time] or [end_time] a request body has is truthy. *)
Definition supplies_truthy_dates (b : gmap string value) : Prop :=
  ∀ k v, k ∈ ["start_time"; "end_time"] → b !! k = Some v → truthy v = true.

End WithRuntime.

(** The module-level array [mockEvents] as it is when the server starts. *)
Definition mockEvents : list (gmap string value) := [
  object [
    ("id", VStr "1");
    ("case_id", VStr "1");
    ("title", VStr "Contract Dispute Hearing");
    ("description", VStr "Initial hearing for Smith vs. Johnson contract dispute");
    ("start_time", VStr "2024-02-15T10:00:00Z");
    ("end_time", VStr "2024-02-15T11:00:00Z");
    ("location", VStr "Superior Court of California, Room 101");
    ("event_type", VStr "hearing");
    ("priority", VStr "high");
    ("status", VStr "scheduled");
    ("attendees", VArr [
       VObj (object [("name", VStr "John Smith");
                     ("email", VStr "john.smith@email.com");
                     ("role", VStr "client"); ("required", VBool true)]);
       VObj (object [("name", VStr "Judge Williams");
                     ("role", VStr "judge"); ("required", VBool true)]) ]);
    ("reminders", VArr [
       VObj (object [("time_before", VInt 1440); ("method", VStr "email");
                     ("sent", VBool false)]);
       VObj (object [("time_before", VInt 60);
                     ("method", VStr "notification");
                     ("sent", VBool false)]) ]);
    ("notes", VStr "Bring all contract documents and evidence");
    ("documents", VArr [VStr "1"]);
    ("created_date", VStr "2024-01-15T10:00:00Z");
    ("updated_date", VStr "2024-01-15T10:00:00Z");
    ("user_id", VStr "1") ];
  object [
    ("id", VStr "2");
    ("case_id", VStr "2");
    ("title", VStr "Client Consultation - Williams DUI");
    ("description", VStr "Initial consultation with Robert Williams regarding DUI case");
    ("start_time", VStr "2024-02-12T14:00:00Z");
    ("end_time", VStr "2024-02-12T15:00:00Z");
    ("location", VStr "Law Office Conference Room A");
    ("event_type", VStr "consultation");
    ("priority", VStr "medium");
    ("status", VStr "confirmed");
    ("attendees", VArr [
       VObj (object [("name", VStr "Robert Williams");
                     ("email", VStr "robert.williams@email.com");
                     ("role", VStr "client"); ("required", VBool true)]) ]);
    ("reminders", VArr [
       VObj (object [("time_before", VInt 60); ("method", VStr "email");
                     ("sent", VBool false)]) ]);
    ("notes", VStr "Review police report and breathalyzer results");
    ("documents", VArr []);
    ("created_date", VStr "2024-01-10T08:00:00Z");
    ("updated_date", VStr "2024-01-18T16:45:00Z");
    ("user_id", VStr "1") ] ].


(** The handlers of the router, and its routes in the order in which the
    file registers them. *)
Inductive handler :=
| GetRoot | GetById | PostRoot | PutById | DeleteById | PutReschedule
| GetUpcoming | GetToday | GetStats.

Definition routes : list (method * list segment * handler) := [
  (GET, [], GetRoot);
  (GET, [Param], GetById);
  (POST, [], PostRoot);
  (PUT, [Param], PutById);
  (DELETE, [Param], DeleteById);
  (PUT, [Param; Lit "reschedule"], PutReschedule);
  (GET, [Lit "upcoming"], GetUpcoming);
  (GET, [Lit "today"], GetToday);
  (GET, [Lit "stats"], GetStats) ].

End CalendarEvents.

(** ** routes/callLogs.ts *)

Module CallLogs.
Section WithRuntime.
Context `{Runtime}.

(** [Math.floor((endTime.getTime() - startTime.getTime()) / 1000)], which
    is [NaN] when [started_at] is not a valid date. *)
Definition duration_since (started_at : value) (t_end : Z) : number :=
  match Date_getTime started_at with
  | Some t_start => Num (inject_Z ((t_end - t_start) / 1000))
  | None => NaN
  end.

(** [POST /api/call-logs/:id/end]; [t_end] is the reading of the first
    [new Date()], [t_updated] that of the second. *)
Definition post_end (store : list (gmap string value)) (req : Request)
    (t_end t_updated : Z) : outcome * list (gmap string value) :=
  match findIndex (fun c => strict_eq (get c "id") (VStr (params_id req))) store with
  | None =>
    (Thrown (apiError "Call log not found" 404 "CALL_LOG_NOT_FOUND"), store)
  | Some callLogIndex =>
    let callLog := default ∅ (store !! callLogIndex) in
    let store' :=
      if negb (truthy (get callLog "ended_at")) then
        <[callLogIndex := extend callLog [
            ("ended_at", VStr (toISOString t_end));
            ("duration", VNum (duration_since (get callLog "started_at") t_end));
            ("call_status", VStr "completed");
            ("updated_date", VStr (toISOString t_updated)) ]]> store
      else store in
    (Sent {| status := 200;
             json := object [
               ("success", VBool true);
               ("data", VObj (default ∅ (store' !! callLogIndex)));
               ("message", VStr "Call ended successfully") ] |},
     store')
  end.

End WithRuntime.

(** [POST /api/call-logs]; [now] is the reading of [Date.now()] and the
    other two those of the two [new Date()]. *)
Definition post_root (store : list (gmap string value)) (req : Request)
    (now t_created t_updated : Z) : outcome * list (gmap string value) :=
  let callData := body req in
  if negb (truthy (get callData "to_number")) ||
     negb (truthy (get callData "from_number")) ||
     negb (truthy (get callData "started_at")) then
    (Thrown (apiError "To number, from number, and start time are required"
                      400 "MISSING_REQUIRED_FIELDS"), store)
  else
    let newCallLog :=
      extend callData [
        ("id", VStr (Z_toString now));
        ("created_date", VStr (toISOString t_created));
        ("updated_date", VStr (toISOString t_updated));
        ("user_id", user_id_or_1 req) ] in
    (Sent {| status := 201;
             json := object [
               ("success", VBool true);
               ("data", VObj newCallLog);
               ("message", VStr "Call log created successfully") ] |},
     store ++ [newCallLog]).

(** The module-level array [mockCallLogs] as it is when the server starts. *)
Definition mockCallLogs : list (gmap string value) := [
  object [
    ("id", VStr "1");
    ("case_id", VStr "1");
    ("to_number", VStr "+15551234567");
    ("from_number", VStr "+15559876543");
    ("started_at", VStr "2024-01-20T14:00:00Z");
    ("ended_at", VStr "2024-01-20T14:15:00Z");
    ("duration", VInt 900);
    ("recording_url", VStr "/recordings/call-1-20240120.mp3");
    ("transcript", VStr "Attorney: Good afternoon, Mr. Smith. I wanted to discuss the contract dispute case...");
    ("summary", VStr "Discussed contract dispute details with client. Client provided additional evidence.");
    ("call_status", VStr "completed");
    ("call_purpose", VStr "client_consultation");
    ("notes", VStr "Client mentioned new witness who saw the contract signing");
    ("action_items", VArr [
       VStr "Contact new witness for statement";
       VStr "Review additional contract evidence";
       VStr "Schedule follow-up meeting" ]);
    ("participants", VArr [
       VObj (object [("name", VStr "John Smith"); ("role", VStr "client");
                     ("phone", VStr "+15551234567")]);
       VObj (object [("name", VStr "Demo Attorney"); ("role", VStr "attorney");
                     ("phone", VStr "+15559876543")]) ]);
    ("ai_insights", VObj (object [
       ("sentiment", VStr "positive");
       ("key_topics", VArr [VStr "contract dispute"; VStr "witness testimony";
                            VStr "evidence"]);
       ("follow_up_required", VBool true);
       ("urgency_level", VStr "medium") ]));
    ("created_date", VStr "2024-01-20T14:00:00Z");
    ("updated_date", VStr "2024-01-20T14:16:00Z");
    ("user_id", VStr "1") ];
  object [
    ("id", VStr "2");
    ("case_id", VStr "2");
    ("to_number", VStr "+15555551234");
    ("from_number", VStr "+15559876543");
    ("started_at", VStr "2024-01-18T10:30:00Z");
    ("ended_at", VStr "2024-01-18T10:45:00Z");
    ("duration", VInt 900);
    ("call_status", VStr "completed");
    ("call_purpose", VStr "client_consultation");
    ("notes", VStr "Initial consultation for DUI case");
    ("action_items", VArr [
       VStr "Request police report";
       VStr "Schedule DMV hearing";
       VStr "Gather character references" ]);
    ("participants", VArr [
       VObj (object [("name", VStr "Robert Williams"); ("role", VStr "client");
                     ("phone", VStr "+15555551234")]) ]);
    ("ai_insights", VObj (object [
       ("sentiment", VStr "neutral");
       ("key_topics", VArr [VStr "DUI"; VStr "police report";
                            VStr "DMV hearing"]);
       ("follow_up_required", VBool true);
       ("urgency_level", VStr "high") ]));
    ("created_date", VStr "2024-01-18T10:30:00Z");
    ("updated_date", VStr "2024-01-18T10:46:00Z");
    ("user_id", VStr "1") ] ].

(** [POST /api/call-logs/initiate]; the four clock readings are those of
    [Date.now()] and of the three [new Date()].  The timer that marks the
    call as ringing one second later is not part of the request. *)
Definition post_initiate (store : list (gmap string value)) (req : Request)
    (now t_started t_created t_updated : Z) :
    outcome * list (gmap string value) :=
  let to_number := get (body req) "to_number" in
  let case_id := get (body req) "case_id" in
  let call_purpose :=
    match get (body req) "call_purpose" with
    | VUndefined => VStr "other"
    | v => v
    end in
  if negb (truthy to_number) then
    (Thrown (apiError "To number is required" 400 "MISSING_TO_NUMBER"), store)
  else
    let newCall := object [
      ("id", VStr (Z_toString now));
      ("case_id", case_id);
      ("to_number", to_number);
      ("from_number", VStr "+15559876543");
      ("started_at", VStr (toISOString t_started));
      ("call_status", VStr "initiated");
      ("call_purpose", call_purpose);
      ("notes", VStr "");
      ("action_items", VArr []);
      ("participants", VArr []);
      ("created_date", VStr (toISOString t_created));
      ("updated_date", VStr (toISOString t_updated));
      ("user_id", user_id_or_1 req) ] in
    (Sent {| status := 201;
             json := object [
               ("success", VBool true);
               ("data", VObj (object [("call_id", get newCall "id");
                                      ("status", VStr "initiated")]));
               ("message", VStr "Call initiated successfully") ] |},
     store ++ [newCall]).

(** The callback that [POST /api/call-logs/initiate] hands to [setTimeout]
    for one second later: it looks up the call by the id the closure
    holds, [newCall.id], and writes two properties of the call it finds.
    [t] is the reading of its [new Date()]. *)
Definition initiate_timer (store : list (gmap string value)) (id : value)
    (t : Z) : list (gmap string value) :=
  match findIndex (fun c => strict_eq (get c "id") id) store with
  | None => store
  | Some callIndex =>
    match store !! callIndex with
    | None => store
    | Some call =>
      <[callIndex := extend call [
          ("call_status", VStr "ringing");
          ("updated_date", VStr (toISOString t)) ]]> store
    end
  end.

(** The handlers of the router, and its routes in the order in which the
    file registers them. *)
Inductive handler :=
| GetRoot | GetById | PostRoot | PutById | DeleteById | PostInitiate
| PostEnd | GetTranscript | PostSummarize | GetSearch | GetStats.

Definition routes : list (method * list segment * handler) := [
  (GET, [], GetRoot);
  (GET, [Param], GetById);
  (POST, [], PostRoot);
  (PUT, [Param], PutById);
  (DELETE, [Param], DeleteById);
  (POST, [Lit "initiate"], PostInitiate);
  (POST, [Param; Lit "end"], PostEnd);
  (GET, [Param; Lit "transcript"], GetTranscript);
  (POST, [Param; Lit "summarize"], PostSummarize);
  (GET, [Lit "search"], GetSearch);
  (GET, [Lit "stats"], GetStats) ].

End CallLogs.

(** ** A runtime for worked examples *)

(** Days since 1970-01-01 of a calendar date, the inverse of
    [civil_from_days]. *)
Definition days_from_civil (y m d : Z) : Z :=
  let y' := if m <=? 2 then y - 1 else y in
  let era := y' / 400 in
  let yoe := y' - era * 400 in
  let mp := if 2 <? m then m - 3 else m + 9 in
  let doy := (153 * mp + 2) / 5 + d - 1 in
  let doe := yoe * 365 + yoe / 4 - yoe / 100 + doy in
  era * 146097 + doe - 719468.

Definition two_digits (a b : ascii) : option Z :=
  match digit_value 10 a, digit_value 10 b with
  | Some x, Some y => Some (x * 10 + y)
  | _, _ => None
  end.

(** The milliseconds of the tail of a timestamp: [Z] or [.sssZ]. *)
Definition parse_millis (tail : list ascii) : option Z :=
  match tail with
  | ["Z"]%char => Some 0
  | ["."; a; b; c; "Z"]%char =>
    match digit_value 10 a, two_digits b c with
    | Some x, Some y => Some (x * 100 + y)
    | _, _ => None
    end
  | _ => None
  end.

(** The time value of a timestamp written [YYYY-MM-DDTHH:mm:ssZ] or
    [YYYY-MM-DDTHH:mm:ss.sssZ], the forms of the timestamps in the mock data
    and of [toISOString]; [None] for any other string. *)
Definition parse_iso (s : string) : option Z :=
  match list_ascii_of_string s with
  | (y1 :: y2 :: y3 :: y4 :: "-" :: m1 :: m2 :: "-" :: d1 :: d2 :: "T" ::
     h1 :: h2 :: ":" :: n1 :: n2 :: ":" :: s1 :: s2 :: tail)%char =>
    match two_digits y1 y2, two_digits y3 y4, two_digits m1 m2,
          two_digits d1 d2, two_digits h1 h2, two_digits n1 n2,
          two_digits s1 s2, parse_millis tail with
    | Some yh, Some yl, Some m, Some d, Some h, Some n, Some sec, Some ms =>
      let y := yh * 100 + yl in
      let days := days_from_civil y m d in
      if bool_decide (civil_from_days days = (y, m, d)) &&
         (h <? 24) && (n <? 60) && (sec <? 60)
      then Some (days * 86400000 + h * 3600000 + n * 60000 + sec * 1000 + ms)
      else None
    | _, _, _, _, _, _, _, _ => None
    end
  | _ => None
  end.

(** The text of [p] from the last dot of its last segment on, or the empty
    string when that segment has no dot after its first character; [inside]
    is whether the character before belongs to the same segment. *)
Fixpoint last_extension (inside : bool) (p : string) : string :=
  match p with
  | EmptyString => EmptyString
  | String c r =>
    match last_extension (negb (Ascii.eqb c "/")) r with
    | EmptyString =>
      if Ascii.eqb c "." && inside && negb (includes r "/") then p
      else EmptyString
    | e => e
    end
  end.

(** Lower case for text in ASCII and Latin-1: besides [A] to [Z], the
    capital letters U+00C0 to U+00DE (but not the sign U+00D7) move to their
    small letters, 32 code points on; [lead] is whether the byte before was
    the lead byte [0xC3]. *)
Fixpoint lower_latin1 (lead : bool) (s : string) : string :=
  match s with
  | EmptyString => EmptyString
  | String c r =>
    let n := nat_of_ascii c in
    let c' :=
      if lead then
        if (Nat.leb 128 n && Nat.leb n 158 && negb (Nat.eqb n 151))%bool
        then ascii_of_nat (n + 32) else c
      else lower_ascii c in
    String c' (lower_latin1 (Nat.eqb n 195) r)
  end.

(** A [Runtime] whose date constructor reads numbers, booleans, [null] and
    the timestamps of [parse_iso], whose tokens are readable strings, whose
    password hash is the password behind a fixed prefix, whose case tables
    end with Latin-1, and whose multer refuses a file of exactly the limit. *)
Definition demo_runtime : Runtime := {|
  Date_getTime v :=
    match v with
    | VNull => Some 0
    | VBool b => Some (if b then 1 else 0)
    | VNum (Num q) =>
      let t := Z.quot (Qnum q) (Zpos (Qden q)) in
      if Z.abs t <=? 8640000000000000 then Some t else None
    | VStr s => parse_iso s
    | _ => None
    end;
  jwt_parts payload secret expiresIn iat :=
    ("jwt", match get payload "id" with VStr i => i | _ => "" end, expiresIn);
  jwt_verify token secret now :=
    if String.eqb token "jwt.1.24h" then
      Decoded (object [("id", VStr "1"); ("email", VStr "demo@caseclerk.ai");
                       ("role", VStr "attorney");
                       ("exp", VInt (now / 1000 + 3600))])
    else JsonWebTokenError;
  bcrypt_hash password rounds salt := "$2a$10$" +:+ password;
  bcrypt_compare password hash := String.eqb hash ("$2a$10$" +:+ password);
  path_extname p := last_extension false p;
  String_toLowerCase s := lower_latin1 false s;
  multer_refuses_at_limit := true
|}.

(** The example runtime with a [jwt.verify] that also accepts the refresh
    token it signs for the demo user. *)
Definition demo_runtime_refresh : Runtime := {|
  Date_getTime := @Date_getTime demo_runtime;
  jwt_parts := @jwt_parts demo_runtime;
  jwt_verify token secret now :=
    if String.eqb token "jwt.1.7d" then
      Decoded (object [("id", VStr "1"); ("email", VStr "demo@caseclerk.ai");
                       ("exp", VInt (now / 1000 + 604800))])
    else @jwt_verify demo_runtime token secret now;
  bcrypt_hash := @bcrypt_hash demo_runtime;
  bcrypt_compare := @bcrypt_compare demo_runtime;
  path_extname := @path_extname demo_runtime;
  String_toLowerCase := @String_toLowerCase demo_runtime;
  multer_refuses_at_limit := @multer_refuses_at_limit demo_runtime
|}.

(** A request with the given route parameter, query string and body and
    nothing else. *)
Definition request (id : string) (q : gmap string string)
    (b : gmap string value) : Request :=
  {| ip := None; path := "/"; url := "/"; originalUrl := "/";
     authorization := None; params_id := id; query := q; body := b;
     user := None; file := None |}.

(** The status of a response that was sent, the [data] property of its
    body, and the error a handler threw. *)
Definition sent_status (o : outcome) : option Z :=
  match o with Sent r => Some (status r) | Thrown _ => None end.

Definition sent_data (o : outcome) : value :=
  match o with Sent r => get (json r) "data" | Thrown _ => VUndefined end.

Definition thrown (o : outcome) : option ApiError :=
  match o with Sent _ => None | Thrown e => Some e end.

(** The case numbers of the stored cases are pairwise distinct (under
    [===], the comparison of the duplicate check of [POST /api/cases]). *)
Definition unique_case_numbers (store : list (gmap string value)) : Prop :=
  ∀ i j ci cj, store !! i = Some ci → store !! j = Some cj → i ≠ j →
    strict_eq (get ci "case_number") (get cj "case_number") = false.

(** The status of a case is one of the values of [CaseData.status]. *)
Definition valid_status (c : gmap string value) : bool :=
  match get c "status" with
  | VStr s => bool_decide (s ∈ Cases.statuses)
  | _ => false
  end.

(** A case whose searched properties are strings, or are missing. *)
Definition searchable (c : gmap string value) : Prop :=
  ∀ field, field ∈ ["case_number"; "title"; "plaintiff"; "defendant"] →
    get c field = VUndefined ∨ get c field = VNull ∨
    ∃ s, get c field = VStr s.

(** * Properties *)

(** ** The built-ins on sample inputs *)

Example toISOString_ex : toISOString 1700000000000 = "2023-11-14T22:13:20.000Z".
Proof. vm_compute. reflexivity. Qed.
Example toISOString_ex2 : toISOString (-1) = "1969-12-31T23:59:59.999Z".
Proof. vm_compute. reflexivity. Qed.
Example toISOString_ex3 : toISOString 951782400000 = "2000-02-29T00:00:00.000Z".
Proof. vm_compute. reflexivity. Qed.
Example toISOString_ex4 : toISOString (-62198755200000) = "-000001-01-01T00:00:00.000Z".
Proof. vm_compute. reflexivity. Qed.
Example parseInt_ex : parseInt "  42px" = Some 42 /\ parseInt "-7" = Some (-7)
  /\ parseInt "0x1f" = Some 31 /\ parseInt "abc" = None /\ parseInt "" = None.
Proof. vm_compute. repeat split. Qed.
Example slice_ex : Array_slice0 [1;2;3;4] (Some 2) = [1;2]
  /\ Array_slice0 [1;2;3;4] (Some (-1)) = [1;2;3]
  /\ Array_slice0 [1;2;3;4] None = [] /\ Array_slice0 [1;2;3;4] (Some 9) = [1;2;3;4].
Proof. vm_compute. repeat split. Qed.
Example sort_ex : Array_sort (fun a b => Some (a - b)) [3;1;2;1] = [1;1;2;3].
Proof. vm_compute. reflexivity. Qed.
Example parse_iso_ex : parse_iso "2024-02-15T10:00:00Z" = Some 1707991200000
  /\ parse_iso "2024-02-30T10:00:00Z" = None /\ parse_iso "tomorrow" = None
  /\ toISOString 1707991200000 = "2024-02-15T10:00:00.000Z"
  /\ parse_iso (toISOString 1700000000123) = Some 1700000000123.
Proof. vm_compute. repeat split. Qed.

(** ** Values, objects and arrays *)

Lemma get_Some (o : gmap string value) k v : o !! k = Some v → get o k = v.
Proof. intros Hk. unfold get. by rewrite Hk. Qed.

Lemma get_insert_eq (o : gmap string value) k v : get (<[k := v]> o) k = v.
Proof. unfold get. by rewrite lookup_insert_eq. Qed.

Lemma get_insert_ne (o : gmap string value) k k' v :
  k ≠ k' → get (<[k := v]> o) k' = get o k'.
Proof. intros Hne. unfold get. by rewrite lookup_insert_ne. Qed.

(** Reading a property of an object literal built over [o]. *)
Ltac read_property :=
  unfold object, extend; cbn [fold_left fst snd];
  repeat first [ rewrite get_insert_eq | rewrite get_insert_ne by done ].

Lemma get_spread_None (a b : gmap string value) k :
  b !! k = None → get (spread a b) k = get a k.
Proof.
  intros Hb. unfold get, spread. rewrite lookup_union_r; done.
Qed.

Lemma get_spread_Some (a b : gmap string value) k v :
  b !! k = Some v → get (spread a b) k = v.
Proof.
  intros Hb. unfold get, spread.
  by rewrite (lookup_union_Some_l b a k v Hb).
Qed.

Lemma strict_eq_VStr v s : strict_eq v (VStr s) = true ↔ v = VStr s.
Proof.
  split.
  - destruct v as [| |b|[|q]|s'|l|o]; simpl; try discriminate.
    intros Heq. apply String.eqb_eq in Heq. by subst.
  - intros ->. simpl. apply String.eqb_refl.
Qed.

Lemma strict_eq_sym a b : strict_eq a b = strict_eq b a.
Proof.
  destruct a as [| |x|[|x]|x|x|x], b as [| |y|[|y]|y|y|y]; simpl; try done.
  - by destruct x, y.
  - destruct (Qeq_bool x y) eqn:Hxy, (Qeq_bool y x) eqn:Hyx; try done.
    + apply Qeq_bool_iff in Hxy. symmetry in Hxy.
      apply Qeq_bool_iff in Hxy. congruence.
    + apply Qeq_bool_iff in Hyx. symmetry in Hyx.
      apply Qeq_bool_iff in Hyx. congruence.
  - apply String.eqb_sym.
Qed.

Lemma find_none_iff {A} (p : A → bool) (l : list A) :
  List.find p l = None ↔ ∀ x, x ∈ l → p x = false.
Proof.
  induction l as [|y l IH]; simpl.
  - split; [intros _ x Hx; by apply elem_of_nil in Hx | done].
  - destruct (p y) eqn:Hy.
    + split; [done|]. intros Hall. specialize (Hall y (list_elem_of_here _ _)).
      congruence.
    + rewrite IH. split.
      * intros Hall x Hx. apply elem_of_cons in Hx as [->|Hx]; auto.
      * intros Hall x Hx. apply Hall. by apply list_elem_of_further.
Qed.

Lemma find_app_none {A} (p : A → bool) (l l' : list A) :
  List.find p l = None → List.find p (l ++ l') = List.find p l'.
Proof.
  induction l as [|y l IH]; simpl; [done|].
  destruct (p y); [done | exact IH].
Qed.

Lemma findIndex_Some {A} (p : A → bool) (l : list A) i :
  findIndex p l = Some i →
  ∃ x, l !! i = Some x ∧ p x = true ∧ ∀ j y, (j < i)%nat → l !! j = Some y → p y = false.
Proof.
  revert i. induction l as [|y l IH]; simpl; intros i Hi; [done|].
  destruct (p y) eqn:Hy.
  - injection Hi as <-. exists y. repeat split; [done|]. intros j z Hj. lia.
  - destruct (findIndex p l) as [k|] eqn:Hk; [|done].
    injection Hi as <-. destruct (IH k eq_refl) as (x & Hx & Hpx & Hbefore).
    exists x. repeat split; [done..|].
    intros [|j] z Hj Hz; simpl in Hz; [congruence|].
    apply (Hbefore j z); [lia | done].
Qed.

(** ** Cases: create then read (C1) *)

(** C1 (as amended).  A [POST /api/cases] whose body has a truthy
    [case_number] and [title], whose [case_number] is not yet in the store,
    and whose generated id ([Date.now().toString()]) is not the id of a case
    already in the store, answers 201 with the new case and appends it; a
    [GET /api/cases/:id] with that id right after answers success with a
    case whose [case_number] and [title] are the submitted ones. *)
Theorem post_then_get_by_id (store : list (gmap string value))
    (req : Request) (now t_created t_updated : Z) :
  truthy (get (body req) "case_number") = true →
  truthy (get (body req) "title") = true →
  (∀ c, c ∈ store →
     strict_eq (get c "case_number") (get (body req) "case_number") = false) →
  (∀ c, c ∈ store → strict_eq (get c "id") (VStr (Z_toString now)) = false) →
  ∃ newCase,
    Cases.post_root store req now t_created t_updated =
      (Sent {| status := 201;
               json := object [("success", VBool true);
                               ("data", VObj newCase);
                               ("message", VStr "Case created successfully")] |},
       store ++ [newCase]) ∧
    get newCase "id" = VStr (Z_toString now) ∧
    ∀ req', params_id req' = Z_toString now →
      Cases.get_by_id (store ++ [newCase]) req' =
        Sent {| status := 200;
                json := object [("success", VBool true);
                                ("data", VObj newCase)] |} ∧
      get newCase "case_number" = get (body req) "case_number" ∧
      get newCase "title" = get (body req) "title".
Proof.
  intros Hnum Htitle Hfresh Hid.
  eexists. unfold Cases.post_root. rewrite Hnum, Htitle. simpl.
  apply find_none_iff in Hfresh. rewrite Hfresh.
  split; [reflexivity|]. split; [by read_property|].
  intros req' Hreq'. split; [|split; by read_property].
  unfold Cases.get_by_id. rewrite Hreq'.
  apply find_none_iff in Hid. rewrite (find_app_none _ _ _ Hid). simpl.
  read_property. simpl. by rewrite String.eqb_refl.
Qed.

(** The theorem at work on the initial store. *)
Lemma post_then_get_by_id_witness :
  let req := request "" ∅ (object [("case_number", VStr "2024-FA-000042");
                                   ("title", VStr "In re Estate of Doe")]) in
  ∃ newCase,
    Cases.post_root Cases.mockCases req 1700000000000 1700000000000 1700000000001 =
      (Sent {| status := 201;
               json := object [("success", VBool true);
                               ("data", VObj newCase);
                               ("message", VStr "Case created successfully")] |},
       Cases.mockCases ++ [newCase]) ∧
    get newCase "id" = VStr "1700000000000" ∧
    get newCase "case_number" = VStr "2024-FA-000042" ∧
    get newCase "title" = VStr "In re Estate of Doe".
Proof.
  intros req.
  destruct (post_then_get_by_id Cases.mockCases req
              1700000000000 1700000000000 1700000000001)
    as (newCase & Hpost & Hid & Hget).
  - reflexivity.
  - reflexivity.
  - intros c Hc. repeat (apply elem_of_cons in Hc as [->|Hc]; [reflexivity|]).
    by apply elem_of_nil in Hc.
  - intros c Hc. repeat (apply elem_of_cons in Hc as [->|Hc]; [reflexivity|]).
    by apply elem_of_nil in Hc.
  - exists newCase. split; [exact Hpost|]. split; [exact Hid|].
    destruct (Hget (request "1700000000000" ∅ ∅) eq_refl) as (_ & Hnum & Htitle).
    split; [exact Hnum | exact Htitle].
Defined.

(** C1 as stated fails when the generated id is already taken: two cases
    created within the same millisecond get the same id, and the read by id
    finds the older one. *)
Lemma post_then_get_by_id_same_millisecond :
  let first := request "" ∅ (object [("case_number", VStr "2024-FA-000041");
                                     ("title", VStr "First filing")]) in
  let second := request "" ∅ (object [("case_number", VStr "2024-FA-000042");
                                      ("title", VStr "Second filing")]) in
  let store1 := snd (Cases.post_root Cases.mockCases first
                       1700000000000 1700000000000 1700000000000) in
  let created := Cases.post_root store1 second
                       1700000000000 1700000000000 1700000000000 in
  let read := Cases.get_by_id (snd created) (request "1700000000000" ∅ ∅) in
  sent_status (fst created) = Some 201 ∧
  (∃ newCase, sent_data (fst created) = VObj newCase ∧
              get newCase "id" = VStr "1700000000000" ∧
              get newCase "case_number" = VStr "2024-FA-000042") ∧
  sent_status read = Some 200 ∧
  ∃ found, sent_data read = VObj found ∧
           get found "case_number" = VStr "2024-FA-000041" ∧
           get found "title" = VStr "First filing".
Proof.
  vm_compute. split; [reflexivity|]. split.
  - eexists. split; [reflexivity|]. split; reflexivity.
  - split; [reflexivity|]. eexists. split; [reflexivity|]. split; reflexivity.
Qed.

(** ** Cases: duplicate case numbers (C2) *)

(** C2 (as amended).  A [POST /api/cases] whose body passes the
    required-field check (truthy [case_number] and [title]) and whose
    [case_number] equals that of a stored case throws the
    [DUPLICATE_CASE_NUMBER] error and leaves the store as it was; the global
    error handler renders that error as a 409 whose [error.code] is
    [DUPLICATE_CASE_NUMBER]. *)
Theorem post_duplicate_case_number (store : list (gmap string value))
    (req : Request) (now t_created t_updated : Z) :
  truthy (get (body req) "case_number") = true →
  truthy (get (body req) "title") = true →
  (∃ c, c ∈ store ∧
        strict_eq (get c "case_number") (get (body req) "case_number") = true) →
  Cases.post_root store req now t_created t_updated =
    (Thrown (apiError "Case number already exists" 409 "DUPLICATE_CASE_NUMBER"),
     store) ∧
  ∀ NODE_ENV t,
    let r := respond NODE_ENV t req
               (fst (Cases.post_root store req now t_created t_updated)) in
    status r = 409 ∧
    get (json r) "success" = VBool false ∧
    ∃ err, get (json r) "error" = VObj err ∧
           get err "code" = VStr "DUPLICATE_CASE_NUMBER".
Proof.
  intros Hnum Htitle (c & Hc & Hdup).
  assert (Cases.post_root store req now t_created t_updated =
    (Thrown (apiError "Case number already exists" 409 "DUPLICATE_CASE_NUMBER"),
     store)) as Hpost.
  { unfold Cases.post_root. rewrite Hnum, Htitle. simpl.
    destruct (List.find _ store) as [c'|] eqn:Hfind; [done|].
    rewrite find_none_iff in Hfind. rewrite (Hfind c Hc) in Hdup. done. }
  split; [exact Hpost|]. intros NODE_ENV t. rewrite Hpost. simpl.
  split; [done|]. split; [by read_property|].
  eexists. split; [by read_property|].
  destruct (bool_decide (NODE_ENV = Some "development"));
    (rewrite get_spread_None; [by read_property | done]).
Qed.

(** The theorem at work: the case number of the first mock case again. *)
Lemma post_duplicate_case_number_witness :
  let req := request "" ∅ (object [("case_number", VStr "2024-CV-001234");
                                   ("title", VStr "Another Smith matter")]) in
  Cases.post_root Cases.mockCases req 1700000000000 1700000000000 1700000000000 =
    (Thrown (apiError "Case number already exists" 409 "DUPLICATE_CASE_NUMBER"),
     Cases.mockCases).
Proof.
  intros req.
  refine (proj1 (post_duplicate_case_number Cases.mockCases req
                   1700000000000 1700000000000 1700000000000 _ _ _)).
  - reflexivity.
  - reflexivity.
  - eexists. split; [apply list_elem_of_here | reflexivity].
Defined.

(** C2 as stated fails when the body does not pass the required-field
    check, which comes first: a duplicate [case_number] without a [title] is
    answered 400 [MISSING_REQUIRED_FIELDS], not 409. *)
Lemma post_duplicate_without_title :
  let req := request "" ∅ (object [("case_number", VStr "2024-CV-001234")]) in
  let created := Cases.post_root Cases.mockCases req
                   1700000000000 1700000000000 1700000000000 in
  (∃ c, c ∈ Cases.mockCases ∧
        get c "case_number" = get (body req) "case_number") ∧
  thrown (fst created) =
    Some (apiError "Case number and title are required" 400
                   "MISSING_REQUIRED_FIELDS") ∧
  status (respond None 1700000000000 req (fst created)) = 400.
Proof.
  split; [|split; reflexivity].
  eexists. split; [apply list_elem_of_here | reflexivity].
Qed.

(** ** Cases: filtering by status (C4) *)

Lemma insert_sorted_Permutation {A} (cmp : A → A → option Z) x (l : list A) :
  Permutation (insert_sorted cmp x l) (x :: l).
Proof.
  induction l as [|y l IH]; simpl; [done|].
  destruct (0 <? default 0 (cmp x y)); [|done].
  rewrite IH. apply perm_swap.
Qed.

Lemma Array_sort_Permutation {A} (cmp : A → A → option Z) (l : list A) :
  Permutation (Array_sort cmp l) l.
Proof.
  induction l as [|x l IH]; simpl; [done|].
  rewrite insert_sorted_Permutation. by constructor.
Qed.

Lemma elem_of_filter_field_active (store : list (gmap string value)) c :
  c ∈ Cases.filter_field "status" (Some "active") store ↔
  c ∈ store ∧ get c "status" = VStr "active".
Proof.
  unfold Cases.filter_field. simpl.
  rewrite !list_elem_of_In, filter_In, strict_eq_VStr. done.
Qed.

Lemma elem_of_filter_field field q (store : list (gmap string value)) c :
  c ∈ Cases.filter_field field q store → c ∈ store.
Proof.
  unfold Cases.filter_field. destruct (Cases.active_filter q); [|done].
  rewrite !list_elem_of_In, filter_In. tauto.
Qed.

Lemma elem_of_filter_throwing {A} (p : A → ApiError + bool) (l r : list A) x :
  filter_throwing p l = inr r → x ∈ r → x ∈ l.
Proof.
  revert r. induction l as [|y l IH]; simpl; intros r Hr Hx.
  - by injection Hr as <-.
  - destruct (p y) as [e|b]; [done|].
    destruct (filter_throwing p l) as [e|r']; [done|].
    injection Hr as <-. destruct b.
    + apply elem_of_cons in Hx as [->|Hx]; [apply list_elem_of_here|].
      apply list_elem_of_further. by apply (IH r').
    + apply list_elem_of_further. by apply (IH r').
Qed.

Lemma elem_of_Array_slice0 {A} (l : list A) e x :
  x ∈ Array_slice0 l e → x ∈ l.
Proof. unfold Array_slice0. apply (subseteq_take _ l). Qed.

(** C4.  Whatever the store holds and whatever else the query asks for, a
    [GET /api/cases] with [status=active] that answers returns only stored
    cases whose [status] is ['active'].  When [status=active] is the whole
    query it answers 200 with [success: true] and a [data] array that is a
    rearrangement of the stored cases whose [status] is ['active'] (the
    default sort by [updated_date] only reorders them), with [total] its
    length: a case is returned exactly when it is stored with
    [status === 'active']. *)
Theorem get_root_status_active `{Runtime} (store : list (gmap string value))
    (req : Request) :
  query req !! "status" = Some "active" →
  (∀ r, Cases.get_root store req = Sent r →
     ∃ cases,
       r = {| status := 200;
              json := object [("success", VBool true);
                              ("data", VArr (VObj <$> cases));
                              ("total", VInt (Z.of_nat (length cases)))] |} ∧
       ∀ c, c ∈ cases → c ∈ store ∧ get c "status" = VStr "active") ∧
  (query req = {[ "status" := "active" ]} →
   ∃ cases,
     Cases.get_root store req =
       Sent {| status := 200;
               json := object [("success", VBool true);
                               ("data", VArr (VObj <$> cases));
                               ("total", VInt (Z.of_nat (length cases)))] |} ∧
     Permutation cases
       (List.filter (fun c => strict_eq (get c "status") (VStr "active")) store) ∧
     ∀ c, c ∈ cases ↔ c ∈ store ∧ get c "status" = VStr "active").
Proof.
  intros Hstatus. split.
  - intros r. unfold Cases.get_root. rewrite Hstatus.
    set (active := Cases.filter_field "status" (Some "active") store).
    set (filtered := Cases.filter_field "priority" _ _).
    assert (∀ c, c ∈ filtered → c ∈ store ∧ get c "status" = VStr "active")
      as Hfiltered.
    { intros c Hc. apply elem_of_filter_field_active.
      by do 2 apply elem_of_filter_field in Hc. }
    destruct (match query req !! "search" with Some _ => _ | None => _ end)
      as [e|searched] eqn:Hsearch; [done|].
    assert (∀ c, c ∈ searched → c ∈ filtered) as Hsearched.
    { intros c Hc. destruct (query req !! "search") as [s|].
      - destruct (String.eqb s ""); [by injection Hsearch as <-|].
        by eapply elem_of_filter_throwing.
      - by injection Hsearch as <-. }
    intros [= <-]. eexists. split; [reflexivity|].
    intros c Hc. apply Hfiltered, Hsearched.
    assert (∀ l : list (gmap string value),
              c ∈ match query req !! "limit" with
                  | Some lim => if String.eqb lim "" then l
                                else Array_slice0 l (parseInt lim)
                  | None => l
                  end → c ∈ l) as Hlimit.
    { intros l. destruct (query req !! "limit") as [lim|]; [|done].
      destruct (String.eqb lim ""); [done|]. apply elem_of_Array_slice0. }
    apply Hlimit in Hc.
    destruct (String.eqb _ "-updated_date");
      [by rewrite Array_sort_Permutation in Hc|].
    destruct (String.eqb _ "updated_date");
      [by rewrite Array_sort_Permutation in Hc|]. done.
  - intros Hq. eexists. unfold Cases.get_root. rewrite Hq.
    rewrite lookup_singleton_eq, !lookup_singleton_ne by done. simpl.
    split; [reflexivity|]. split.
    + apply Array_sort_Permutation.
    + intros c. rewrite Array_sort_Permutation.
      apply (elem_of_filter_field_active store c).
Qed.

(** The theorem at work on the initial store: only the first mock case is
    active. *)
Lemma get_root_status_active_witness :
  ∃ cases,
    sent_data (@Cases.get_root demo_runtime Cases.mockCases
                 (request "" {[ "status" := "active" ]} ∅)) =
      VArr (VObj <$> cases) ∧
    (λ c, get c "id") <$> cases = [VStr "1"].
Proof.
  destruct (@get_root_status_active demo_runtime Cases.mockCases
              (request "" {[ "status" := "active" ]} ∅)
              (lookup_singleton_eq _ _))
    as [_ Hexact].
  destruct (Hexact eq_refl) as (cases & Hget & Hperm & _).
  exists cases. split; [exact (f_equal sent_data Hget)|].
  change (List.filter _ Cases.mockCases) with (take 1 Cases.mockCases) in Hperm.
  apply Permutation_singleton_r in Hperm. by rewrite Hperm.
Defined.

(** ** Cases: uniqueness of case numbers (C7) *)

Lemma mockCases_unique : unique_case_numbers Cases.mockCases.
Proof.
  intros [|[|i]] [|[|j]] ci cj Hi Hj Hne; simpl in *;
    try done; by simplify_eq.
Qed.

(** [POST /api/cases] keeps the case numbers distinct. *)
Lemma post_root_unique (store : list (gmap string value)) req now t1 t2 :
  unique_case_numbers store →
  unique_case_numbers (snd (Cases.post_root store req now t1 t2)).
Proof.
  intros Huniq. unfold Cases.post_root.
  destruct (_ || _); [done|].
  destruct (List.find _ store) eqn:Hfind; [done|]. simpl.
  rewrite find_none_iff in Hfind.
  assert (∀ k c, store !! k = Some c →
    strict_eq (get c "case_number")
      (get (extend (body req)
         [("id", VStr (Z_toString now));
          ("created_date", VStr (toISOString t1));
          ("updated_date", VStr (toISOString t2));
          ("user_id", user_id_or_1 req)]) "case_number") = false) as Hnew.
  { intros k c Hk. read_property. apply Hfind. by eapply list_elem_of_lookup_2. }
  intros i j ci cj Hi Hj Hne.
  destruct (decide (i < length store)%nat) as [Hil|Hil],
           (decide (j < length store)%nat) as [Hjl|Hjl].
  - rewrite lookup_app_l in Hi, Hj by done. by eapply Huniq.
  - rewrite lookup_app_l in Hi by done. rewrite lookup_app_r in Hj by lia.
    apply list_lookup_singleton_Some in Hj as [_ <-]. by eapply Hnew.
  - rewrite lookup_app_r in Hi by lia. rewrite lookup_app_l in Hj by done.
    apply list_lookup_singleton_Some in Hi as [_ <-].
    rewrite strict_eq_sym. by eapply Hnew.
  - rewrite lookup_app_r in Hi, Hj by lia.
    apply list_lookup_singleton_Some in Hi as [Hi _].
    apply list_lookup_singleton_Some in Hj as [Hj _]. lia.
Qed.

(** [DELETE /api/cases/:id] keeps the case numbers distinct. *)
Lemma delete_by_id_unique (store : list (gmap string value)) req :
  unique_case_numbers store →
  unique_case_numbers (snd (Cases.delete_by_id store req)).
Proof.
  intros Huniq. unfold Cases.delete_by_id.
  destruct (findIndex _ store) as [k|]; [|done]. simpl.
  intros i j ci cj Hi Hj Hne. rewrite list_lookup_delete in Hi, Hj.
  eapply Huniq; [exact Hi | exact Hj |].
  repeat case_decide; lia.
Qed.

(** C7 fails on [PUT /api/cases/:id], which stores the [case_number] of the
    request body without the duplicate check that [POST /api/cases] makes:
    giving the second mock case the number of the first one is answered 200
    and leaves two cases with the same number. *)
Theorem put_by_id_duplicates_case_number (t_updated : Z) :
  let req := request "2" ∅ (object [("case_number", VStr "2024-CV-001234")]) in
  let updated := Cases.put_by_id Cases.mockCases req t_updated in
  unique_case_numbers Cases.mockCases ∧
  sent_status (fst updated) = Some 200 ∧
  (λ c, get c "case_number") <$> snd updated =
    [VStr "2024-CV-001234"; VStr "2024-CV-001234"] ∧
  ¬ unique_case_numbers (snd updated).
Proof.
  intros req updated.
  assert ((λ c, get c "case_number") <$> snd updated =
    [VStr "2024-CV-001234"; VStr "2024-CV-001234"]) as Hnums.
  { vm_compute. reflexivity. }
  split; [exact mockCases_unique|].
  split; [vm_compute; reflexivity|]. split; [exact Hnums|].
  intros Huniq.
  destruct (snd updated) as [|c0 [|c1 [|c2 l]]] eqn:Hs; try done.
  simpl in Hnums. injection Hnums as H0 H1.
  specialize (Huniq 0%nat 1%nat c0 c1 eq_refl eq_refl ltac:(done)).
  by rewrite H0, H1 in Huniq.
Qed.

(** ** Cases: the status enumeration (C8) *)

Lemma mockCases_valid_status : Forall (λ c, valid_status c = true) Cases.mockCases.
Proof. repeat constructor. Qed.

(** C8 (as amended).  The handlers store the [status] of the request body as
    it comes.  If every stored case has a status of the enumeration, so has
    every case after a [POST /api/cases] whose body carries a status of the
    enumeration, and after a [PUT /api/cases/:id] whose body carries such a
    status or no [status] property at all. *)
Theorem status_enumeration_preserved (store : list (gmap string value))
    (req : Request) (now t_created t_updated : Z) :
  Forall (λ c, valid_status c = true) store →
  (valid_status (body req) = true →
   Forall (λ c, valid_status c = true)
     (snd (Cases.post_root store req now t_created t_updated))) ∧
  (valid_status (body req) = true ∨ body req !! "status" = None →
   Forall (λ c, valid_status c = true)
     (snd (Cases.put_by_id store req t_updated))).
Proof.
  intros Hstore. split.
  - intros Hbody. unfold Cases.post_root.
    destruct (_ || _); [done|]. destruct (List.find _ store); [done|]. simpl.
    apply Forall_app. split; [done|]. constructor; [|done].
    unfold valid_status in *. by read_property.
  - intros Hbody. unfold Cases.put_by_id.
    destruct (findIndex _ store) as [i|] eqn:Hi; [|done]. simpl.
    apply findIndex_Some in Hi as (c & Hc & _).
    apply Forall_insert; [done|]. rewrite Hc. simpl.
    unfold valid_status in *. read_property.
    destruct (body req !! "status") as [v|] eqn:Hv.
    + rewrite (get_spread_Some _ _ _ v Hv).
      destruct Hbody as [Hbody|?]; [|done].
      unfold get in Hbody. by rewrite Hv in Hbody.
    + rewrite (get_spread_None _ _ _ Hv).
      by eapply (proj1 (Forall_lookup _ _) Hstore).
Qed.

(** The theorem at work on the initial store: a new settled case, and an
    update of the first mock case that does not touch its status. *)
Lemma status_enumeration_preserved_witness :
  let req := request "1" ∅ (object [("case_number", VStr "2024-PR-000007");
                                    ("title", VStr "Estate of Roe");
                                    ("status", VStr "settled")]) in
  let req' := request "1" ∅ (object [("judge", VStr "Hon. A. Williams")]) in
  Forall (λ c, valid_status c = true)
    (snd (Cases.post_root Cases.mockCases req 1700000000000 0 0)) ∧
  Forall (λ c, valid_status c = true)
    (snd (Cases.put_by_id Cases.mockCases req' 1700000000000)).
Proof.
  intros req req'. split.
  - apply (proj1 (status_enumeration_preserved Cases.mockCases req
                    1700000000000 0 0 mockCases_valid_status)).
    reflexivity.
  - apply (proj2 (status_enumeration_preserved Cases.mockCases req'
                    0 0 1700000000000 mockCases_valid_status)).
    right. reflexivity.
Defined.

(** C8 as stated fails: a status outside the enumeration in the body of a
    [POST /api/cases] or a [PUT /api/cases/:id] is stored unchanged. *)
Lemma status_outside_enumeration_stored :
  let req := request "1" ∅ (object [("case_number", VStr "2024-PR-000007");
                                    ("title", VStr "Estate of Roe");
                                    ("status", VStr "archived")]) in
  let created := Cases.post_root Cases.mockCases req 1700000000000 0 0 in
  let updated := Cases.put_by_id Cases.mockCases req 1700000000000 in
  Forall (λ c, valid_status c = true) Cases.mockCases ∧
  sent_status (fst created) = Some 201 ∧
  (λ c, get c "status") <$> snd created =
    [VStr "active"; VStr "pending"; VStr "archived"] ∧
  ¬ Forall (λ c, valid_status c = true) (snd created) ∧
  sent_status (fst updated) = Some 200 ∧
  (λ c, get c "status") <$> snd updated = [VStr "archived"; VStr "pending"] ∧
  ¬ Forall (λ c, valid_status c = true) (snd updated).
Proof.
  intros req created updated.
  split; [exact mockCases_valid_status|].
  split; [vm_compute; reflexivity|]. split; [vm_compute; reflexivity|].
  split.
  { intros Hall. rewrite Forall_lookup in Hall.
    specialize (Hall 2%nat _ eq_refl). vm_compute in Hall. discriminate. }
  split; [vm_compute; reflexivity|]. split; [vm_compute; reflexivity|].
  intros Hall. rewrite Forall_lookup in Hall.
  specialize (Hall 0%nat _ eq_refl). vm_compute in Hall. discriminate.
Qed.

(** ** Login with the demo credentials (C3) *)

(** A token is its three parts joined by dots, and never the empty
    string. *)
Lemma jwt_sign_parts `{Runtime} payload secret expiresIn now :
  jwt_sign payload secret expiresIn now =
    (jwt_parts payload secret expiresIn now).1.1 +:+ "." +:+
    (jwt_parts payload secret expiresIn now).1.2 +:+ "." +:+
    (jwt_parts payload secret expiresIn now).2.
Proof.
  unfold jwt_sign.
  by destruct (jwt_parts payload secret expiresIn now) as [[header claims] sig].
Qed.

Lemma jwt_sign_nonempty `{Runtime} payload secret expiresIn now :
  jwt_sign payload secret expiresIn now ≠ "".
Proof.
  rewrite jwt_sign_parts.
  by destruct ((jwt_parts payload secret expiresIn now).1.1).
Qed.

(** C3.  With a [bcrypt.compare] that accepts a password against its own
    hash, [POST /api/auth/login] with email [demo@caseclerk.ai] and password
    [demo123] answers success with an [access_token] that is not empty and
    is the token of the parts the library makes for the payload of id
    ['1'], that email and role ['attorney'], under the configured secret and
    for 24 hours; with a [refresh_token] of the parts it makes for id ['1']
    and that email, for 7 days; and with [expires_in] 86400.  The secret is
    the environment's [JWT_SECRET] when that is set and not empty, and the
    source's default otherwise. *)
Theorem login_demo_credentials `{Runtime} (env : option string)
    (req : Request) (salt : string) (t_access t_refresh : Z) :
  (∀ password rounds salt',
     bcrypt_compare password (bcrypt_hash password rounds salt') = true) →
  body req !! "email" = Some (VStr "demo@caseclerk.ai") →
  body req !! "password" = Some (VStr "demo123") →
  let secret :=
    match env with
    | Some s => if String.eqb s "" then "your-secret-key-change-in-production"
                else s
    | None => "your-secret-key-change-in-production"
    end in
  let token (parts : string * string * string) :=
    parts.1.1 +:+ "." +:+ parts.1.2 +:+ "." +:+ parts.2 in
  let access_token :=
    token (jwt_parts (object [("id", VStr "1");
                              ("email", VStr "demo@caseclerk.ai");
                              ("role", VStr "attorney")])
                     secret "24h" t_access) in
  let refresh_token :=
    token (jwt_parts (object [("id", VStr "1");
                              ("email", VStr "demo@caseclerk.ai")])
                     secret "7d" t_refresh) in
  Auth.login env req salt t_access t_refresh =
    Sent {| status := 200;
            json := object [
              ("success", VBool true);
              ("data", VObj (object [
                 ("user", VObj (object [
                    ("id", VStr "1");
                    ("email", VStr "demo@caseclerk.ai");
                    ("full_name", VStr "Demo User");
                    ("role", VStr "attorney");
                    ("onboarding_completed", VBool true) ]));
                 ("access_token", VStr access_token);
                 ("refresh_token", VStr refresh_token);
                 ("expires_in", VInt 86400) ])) ] |} ∧
  access_token ≠ "" ∧ refresh_token ≠ "".
Proof.
  intros Hcompare Hemail Hpassword secret token access_token refresh_token.
  subst access_token refresh_token token. cbn beta.
  rewrite <- !jwt_sign_parts.
  split; [|split; apply jwt_sign_nonempty].
  unfold Auth.login, Auth.login_attempt.
  rewrite (get_Some _ _ _ Hemail), (get_Some _ _ _ Hpassword). simpl.
  unfold Auth.mockUsers. cbn [List.find].
  replace (strict_eq _ (VStr "demo@caseclerk.ai")) with true
    by (symmetry; apply strict_eq_VStr; by read_property).
  read_property. rewrite Hcompare. simpl.
  reflexivity.
Qed.

(** The theorem at work in the example runtime. *)
Lemma login_demo_credentials_witness :
  let req := request "" ∅ (object [("email", VStr "demo@caseclerk.ai");
                                   ("password", VStr "demo123")]) in
  ∃ user, sent_data (@Auth.login demo_runtime None req "N9qo8uLOickgx2ZMRZoMye"
                       1700000000000 1700000000000) =
    VObj (object [("user", user); ("access_token", VStr "jwt.1.24h");
                  ("refresh_token", VStr "jwt.1.7d");
                  ("expires_in", VInt 86400)]).
Proof.
  intros req.
  destruct (@login_demo_credentials demo_runtime None req
              "N9qo8uLOickgx2ZMRZoMye" 1700000000000 1700000000000)
    as (Hlogin & _ & _).
  - intros password rounds salt'. apply String.eqb_refl.
  - reflexivity.
  - reflexivity.
  - eexists. rewrite Hlogin. vm_compute. reflexivity.
Defined.

(** ** Upload limits (C5) *)

Lemma Array_includes_spec (l : list string) (s : string) :
  Documents.Array_includes l s = true ↔ s ∈ l.
Proof.
  unfold Documents.Array_includes. rewrite existsb_exists, list_elem_of_In.
  split.
  - intros (x & Hx & Heq). apply String.eqb_eq in Heq. by subst.
  - intros Hs. exists s. split; [done | apply String.eqb_refl].
Qed.

(** C5 (as amended).  Every upload to [POST /api/documents/upload] of a
    file of more than [50 * 1024 * 1024] bytes is rejected: the request ends
    in an error and no document is added.  The error is multer's
    [LIMIT_FILE_SIZE], which the error handler renders as a 500, when the
    file part has a file name, is sent under the field [file] and has a MIME
    type of the whitelist, which are the checks that come before the limit.
    Likewise every upload of a file whose MIME type is not in the whitelist
    is rejected and adds no document, and it is the file filter that rejects
    it, with ['File type not supported'], when the part has a file name and
    is sent under the field [file]. *)
Theorem upload_rejected `{Runtime} (store : list (gmap string value))
    (req : Request) (f : Documents.Upload)
    (t_name rnd now t_created t_updated : Z) :
  let result :=
    Documents.post_upload store req (Some f) t_name rnd now t_created t_updated in
  (Documents.size f > 50 * 1024 * 1024 →
     snd result = store ∧
     (∃ e, fst result = Thrown e) ∧
     (Documents.originalname f ≠ "" →
      Documents.fieldname f = "file" →
      Documents.mimetype f ∈ Documents.allowedTypes →
      fst result =
        Thrown (Documents.MulterError "LIMIT_FILE_SIZE" "File too large") ∧
      ∀ NODE_ENV t, status (respond NODE_ENV t req (fst result)) = 500)) ∧
  (Documents.mimetype f ∉ Documents.allowedTypes →
     snd result = store ∧
     (∃ e, fst result = Thrown e) ∧
     (Documents.originalname f ≠ "" →
      Documents.fieldname f = "file" →
      fst result = Thrown (engineError "Error" "File type not supported") ∧
      ∀ NODE_ENV t, status (respond NODE_ENV t req (fst result)) = 500)).
Proof.
  intros result. subst result.
  unfold Documents.post_upload, Documents.upload_single.
  destruct (String.eqb_spec (Documents.originalname f) "") as [Hname|Hname].
  { unfold Documents.upload_handler. cbn [file fst snd].
    split; intros _; (split; [done|]); (split; [by eexists|]); done. }
  destruct (String.eqb_spec (Documents.fieldname f) "file") as [Hfield|Hfield];
    cbn [negb].
  2: { split; intros _; (split; [done|]); (split; [by eexists|]); done. }
  unfold Documents.fileFilter.
  destruct (Documents.Array_includes _ _) eqn:Hmime.
  - apply Array_includes_spec in Hmime. split; [|done].
    intros Hsize.
    assert (Documents.over_limit (Documents.size f) = true) as ->.
    { unfold Documents.over_limit, Documents.fileSize.
      apply orb_true_intro. left. apply Z.ltb_lt. lia. }
    split; [done|]. split; [by eexists|]. by intros.
  - assert (Documents.mimetype f ∉ Documents.allowedTypes) as Hout.
    { intros Hin. apply Array_includes_spec in Hin. congruence. }
    split; intros _; (split; [done|]); (split; [by eexists|]).
    + by intros _ _ Hin.
    + by intros.
Qed.

(** The theorem at work: a PDF of 50MB and one byte, and a ZIP archive. *)
Lemma upload_rejected_witness :
  let pdf := {| Documents.fieldname := "file";
                Documents.originalname := "exhibits.pdf";
                Documents.mimetype := "application/pdf";
                Documents.size := 52428801 |} in
  let zip := {| Documents.fieldname := "file";
                Documents.originalname := "exhibits.zip";
                Documents.mimetype := "application/zip";
                Documents.size := 1024 |} in
  @Documents.post_upload demo_runtime Documents.mockDocuments (request "" ∅ ∅)
      (Some pdf) 1700000000000 123456789 1700000000001 1700000000001 1700000000001 =
    (Thrown (Documents.MulterError "LIMIT_FILE_SIZE" "File too large"),
     Documents.mockDocuments) ∧
  @Documents.post_upload demo_runtime Documents.mockDocuments (request "" ∅ ∅)
      (Some zip) 1700000000000 123456789 1700000000001 1700000000001 1700000000001 =
    (Thrown (engineError "Error" "File type not supported"),
     Documents.mockDocuments).
Proof.
  intros pdf zip. split.
  - destruct (@upload_rejected demo_runtime Documents.mockDocuments
                (request "" ∅ ∅) pdf 1700000000000 123456789
                1700000000001 1700000000001 1700000000001) as [Hbig _].
    destruct Hbig as (Hstore & _ & Herr); [simpl; lia|].
    apply injective_projections; [|exact Hstore].
    apply Herr; [discriminate | reflexivity |].
    apply Array_includes_spec. reflexivity.
  - destruct (@upload_rejected demo_runtime Documents.mockDocuments
                (request "" ∅ ∅) zip 1700000000000 123456789
                1700000000001 1700000000001 1700000000001) as [_ Hmime].
    destruct Hmime as (Hstore & _ & Herr).
    + intros Hin. apply Array_includes_spec in Hin. discriminate.
    + apply injective_projections; [|exact Hstore].
      apply Herr; [discriminate | reflexivity].
Defined.

(** C5 as stated fails where another check comes first: a ZIP archive of
    60MB is rejected by the file filter and not by the size limit, a PDF of
    60MB sent under the field [document] is rejected as an unexpected file,
    and so is a ZIP archive under that field, which the file filter never
    sees. *)
Lemma upload_rejected_by_an_earlier_check :
  let upload f :=
    fst (@Documents.post_upload demo_runtime Documents.mockDocuments
           (request "" ∅ ∅) (Some f)
           1700000000000 123456789 1700000000001 1700000000001 1700000000001) in
  let zip := {| Documents.fieldname := "file";
                Documents.originalname := "discovery.zip";
                Documents.mimetype := "application/zip";
                Documents.size := 62914560 |} in
  let stray_pdf := {| Documents.fieldname := "document";
                      Documents.originalname := "exhibits.pdf";
                      Documents.mimetype := "application/pdf";
                      Documents.size := 62914560 |} in
  let stray_zip := {| Documents.fieldname := "document";
                      Documents.originalname := "discovery.zip";
                      Documents.mimetype := "application/zip";
                      Documents.size := 1024 |} in
  Documents.size zip > 50 * 1024 * 1024 ∧
  upload zip = Thrown (engineError "Error" "File type not supported") ∧
  upload zip ≠
    Thrown (Documents.MulterError "LIMIT_FILE_SIZE" "File too large") ∧
  Documents.size stray_pdf > 50 * 1024 * 1024 ∧
  upload stray_pdf =
    Thrown (Documents.MulterError "LIMIT_UNEXPECTED_FILE" "Unexpected field") ∧
  upload stray_pdf ≠
    Thrown (Documents.MulterError "LIMIT_FILE_SIZE" "File too large") ∧
  (Documents.mimetype stray_zip ∉ Documents.allowedTypes) ∧
  upload stray_zip =
    Thrown (Documents.MulterError "LIMIT_UNEXPECTED_FILE" "Unexpected field") ∧
  upload stray_zip ≠ Thrown (engineError "Error" "File type not supported").
Proof.
  intros upload zip stray_pdf stray_zip.
  assert (upload zip = Thrown (engineError "Error" "File type not supported"))
    as Hzip by (vm_compute; reflexivity).
  assert (upload stray_pdf =
          Thrown (Documents.MulterError "LIMIT_UNEXPECTED_FILE"
                                        "Unexpected field"))
    as Hpdf by (vm_compute; reflexivity).
  assert (upload stray_zip =
          Thrown (Documents.MulterError "LIMIT_UNEXPECTED_FILE"
                                        "Unexpected field"))
    as Hstray by (vm_compute; reflexivity).
  rewrite Hzip, Hpdf, Hstray.
  split; [simpl; lia|]. split; [done|]. split; [discriminate|].
  split; [simpl; lia|]. split; [done|]. split; [discriminate|].
  split; [|split; [done | discriminate]].
  intros Hin. apply Array_includes_spec in Hin. discriminate.
Qed.

(** A file one byte under 50MB with an allowed type is accepted and
    recorded. *)
Example upload_accepted_under_limit :
  let pdf := {| Documents.fieldname := "file";
                Documents.originalname := "exhibits.pdf";
                Documents.mimetype := "application/pdf";
                Documents.size := 52428799 |} in
  let result := @Documents.post_upload demo_runtime Documents.mockDocuments
      (request "" ∅ ∅) (Some pdf)
      1700000000000 123456789 1700000000001 1700000000001 1700000000001 in
  sent_status (fst result) = Some 201 ∧
  (λ d, get d "file_name") <$> snd result =
    [VStr "doc-1234567890-contract_agreement.pdf";
     VStr "file-1700000000000-123456789.pdf"] ∧
  (λ d, get d "status") <$> snd result = [VStr "completed"; VStr "processing"].
Proof. vm_compute. repeat split. Qed.

(** ** The error envelope (C6) *)

Lemma errorHandler_json NODE_ENV now error req :
  ∃ code message extra,
    json (errorHandler NODE_ENV now error req) =
      object [("success", VBool false);
              ("error", VObj (spread (object [("code", code);
                                              ("message", VStr message)])
                                     extra));
              ("timestamp", VStr (toISOString now));
              ("path", VStr (url req))] ∧
    (extra = ∅ ∨ extra = object [("stack", VStr (stack error));
                                 ("details", details error)]).
Proof.
  unfold errorHandler.
  destruct (if String.eqb (name error) "ValidationError" then _ else _)
    as [[st msg] c].
  eexists _, _, _. split; [reflexivity|].
  destruct (bool_decide (NODE_ENV = Some "development")); auto.
Qed.

Lemma errorHandler_has_envelope NODE_ENV now error req :
  has_envelope (errorHandler NODE_ENV now error req) = true.
Proof.
  destruct (errorHandler_json NODE_ENV now error req)
    as (c & m & extra & Hjson & Hextra).
  unfold has_envelope. rewrite Hjson. read_property. simpl.
  apply andb_true_intro. split; apply bool_decide_eq_true;
    destruct Hextra as [-> | ->]; unfold spread;
    rewrite lookup_union_r by done; by read_property.
Qed.

(** C6 (as amended).  Every response the centralized [errorHandler]
    produces, hence the answer to every error thrown by a route handler or
    passed to [next], carries the envelope
    [{success: false, error: {code, message}}].  The 429 of the rate
    limiter, the 401 and 500 of the authentication middleware and the 404
    of unmatched routes are sent by those handlers themselves, as
    [{success: false, message, ...}] without an [error] property. *)
Theorem error_envelope `{Runtime} :
  (∀ NODE_ENV now error req,
     has_envelope (errorHandler NODE_ENV now error req) = true) ∧
  (∀ NODE_ENV now req e,
     has_envelope (respond NODE_ENV now req (Thrown e)) = true) ∧
  (∀ store req now r,
     fst (RateLimiter.rateLimiter store req now) = Answered r →
     status r = 429 ∧ get (json r) "success" = VBool false ∧
     get (json r) "message" = VStr "Too many requests" ∧
     json r !! "error" = None) ∧
  (∀ env t_verify now req r,
     Auth.authMiddleware env t_verify now req = Answered r →
     (status r = 401 ∨ status r = 500) ∧
     get (json r) "success" = VBool false ∧
     (∃ m, get (json r) "message" = VStr m) ∧
     json r !! "error" = None) ∧
  (∀ req,
     status (notFoundHandler req) = 404 ∧
     get (json (notFoundHandler req)) "success" = VBool false ∧
     get (json (notFoundHandler req)) "message" = VStr "Route not found" ∧
     json (notFoundHandler req) !! "error" = None).
Proof.
  split; [exact errorHandler_has_envelope|].
  split; [intros; apply errorHandler_has_envelope|].
  split; [|split].
  - intros store req now r. unfold RateLimiter.rateLimiter.
    destruct (RateLimiter.limits (path req)) as [maxRequests windowMs].
    destruct (store !! _) as [record|]; [|done].
    destruct (RateLimiter.resetTime record <? now); [done|].
    destruct (maxRequests <=? RateLimiter.count record); [|done].
    simpl. intros [= <-]. simpl. by read_property.
  - intros env t_verify now req r. unfold Auth.authMiddleware.
    destruct (authorization req) as [authHeader|];
      [destruct (_ || _); [|destruct (jwt_verify _ _ _) as [decoded| |];
         [destruct (Auth.exp_before decoded now)|..]]|];
      try done; intros [= <-]; simpl;
      (split; [auto|]); (split; [by read_property|]);
      (split; [eexists; by read_property | done]).
  - intros req. simpl. by read_property.
Qed.

(** The theorem at work: a missing case rendered in production, and the
    answer to a login attempt over the limit. *)
Lemma error_envelope_witness :
  let req := request "404" ∅ ∅ in
  let login := {| ip := Some "203.0.113.7"; path := "/auth/login";
                  url := "/api/auth/login"; originalUrl := "/api/auth/login";
                  authorization := None; params_id := ""; query := ∅;
                  body := ∅; user := None; file := None |} in
  let limited :=
    {[ "203.0.113.7:/auth/login" :=
         {| RateLimiter.count := 5; RateLimiter.resetTime := 1700000900000 |} ]} in
  has_envelope (respond (Some "production") 1700000000000 req
                  (Cases.get_by_id Cases.mockCases req)) = true ∧
  ∃ r, fst (RateLimiter.rateLimiter limited login 1700000000000) = Answered r ∧
       status r = 429 ∧ json r !! "error" = None.
Proof.
  intros req login limited.
  destruct (@error_envelope demo_runtime) as (_ & Hthrown & Hlimit & _).
  split; [apply Hthrown|].
  eexists. split; [vm_compute; reflexivity|].
  destruct (Hlimit limited login 1700000000000 _ ltac:(vm_compute; reflexivity))
    as (Hstatus & _ & _ & Herror).
  split; [exact Hstatus | exact Herror].
Defined.

(** C6 as stated fails for the responses that do not go through the error
    handler: a sixth login attempt within the window is answered 429, a
    request without an [Authorization] header 401, and an unmatched route
    404; none of the three bodies has the envelope. *)
Lemma direct_error_responses_lack_envelope :
  let login := {| ip := Some "203.0.113.7"; path := "/auth/login";
                  url := "/api/auth/login"; originalUrl := "/api/auth/login";
                  authorization := None; params_id := ""; query := ∅;
                  body := ∅; user := None; file := None |} in
  let limited :=
    {[ "203.0.113.7:/auth/login" :=
         {| RateLimiter.count := 5; RateLimiter.resetTime := 1700000900000 |} ]} in
  fst (RateLimiter.rateLimiter limited login 1700000000000) =
    Answered {| status := 429;
                json := object [("success", VBool false);
                                ("message", VStr "Too many requests");
                                ("retryAfter", VInt 900)] |} ∧
  has_envelope {| status := 429;
                  json := object [("success", VBool false);
                                  ("message", VStr "Too many requests");
                                  ("retryAfter", VInt 900)] |} = false ∧
  (∃ r, @Auth.authMiddleware demo_runtime None 1700000000000 1700000000000
          (request "1" ∅ ∅) = Answered r ∧
        status r = 401 ∧ has_envelope r = false) ∧
  status (notFoundHandler (request "" ∅ ∅)) = 404 ∧
  has_envelope (notFoundHandler (request "" ∅ ∅)) = false.
Proof.
  intros login limited.
  split; [vm_compute; reflexivity|]. split; [vm_compute; reflexivity|].
  split; [eexists; split; [reflexivity | split; vm_compute; reflexivity]|].
  split; vm_compute; reflexivity.
Qed.

(** ** Calendar events: start before end (C9) *)

(** ["start_time"] and ["end_time"] are the two date properties. *)
Ltac date_key :=
  first [ apply list_elem_of_here
        | apply list_elem_of_further, list_elem_of_here ].

Section CalendarFacts.
Context `{Runtime}.

Lemma Date_ge_false_lt a b :
  is_Some (Date_getTime a) → is_Some (Date_getTime b) →
  Date_ge a b = false → Date_lt a b = true.
Proof.
  unfold Date_ge, Date_lt. intros [x ->] [y ->] Hge.
  apply Z.leb_gt in Hge. by apply Z.ltb_lt.
Qed.

Lemma Date_lt_false_ge a b :
  is_Some (Date_getTime a) → is_Some (Date_getTime b) →
  Date_lt a b = false → Date_ge a b = true.
Proof.
  unfold Date_ge, Date_lt. intros [x ->] [y ->] Hlt.
  apply Z.ltb_ge in Hlt. by apply Z.leb_le.
Qed.

Lemma Date_lt_valid a b :
  Date_lt a b = true → is_Some (Date_getTime a) ∧ is_Some (Date_getTime b).
Proof.
  unfold Date_lt. destruct (Date_getTime a), (Date_getTime b); try done.
Qed.

Lemma truthy_get_Some (o : gmap string value) k :
  truthy (get o k) = true → o !! k = Some (get o k).
Proof. unfold get. by destruct (o !! k). Qed.

Lemma supplied_valid b k :
  CalendarEvents.supplies_valid_dates b → k ∈ ["start_time"; "end_time"] →
  truthy (get b k) = true → is_Some (Date_getTime (get b k)).
Proof.
  intros Hvalid Hk Htruthy.
  apply (Hvalid k _ Hk (truthy_get_Some _ _ Htruthy) Htruthy).
Qed.

Lemma post_root_ordered store req now t1 t2 :
  CalendarEvents.supplies_valid_dates (body req) →
  Forall (λ e, CalendarEvents.starts_before_end e = true) store →
  Forall (λ e, CalendarEvents.starts_before_end e = true)
    (snd (CalendarEvents.post_root store req now t1 t2)).
Proof.
  intros Hvalid Hstore. unfold CalendarEvents.post_root.
  destruct (negb (truthy (get (body req) "title"))); [done|].
  destruct (truthy (get (body req) "start_time")) eqn:Hs; [|done].
  destruct (truthy (get (body req) "end_time")) eqn:He; [|done]. simpl.
  destruct (Date_ge _ _) eqn:Hge; [done|]. simpl.
  apply Forall_app. split; [done|]. constructor; [|done].
  unfold CalendarEvents.starts_before_end. read_property.
  apply Date_ge_false_lt; [apply supplied_valid|apply supplied_valid|]; try done;
    date_key.
Qed.

Lemma put_reschedule_ordered store req t :
  CalendarEvents.supplies_valid_dates (body req) →
  Forall (λ e, CalendarEvents.starts_before_end e = true) store →
  Forall (λ e, CalendarEvents.starts_before_end e = true)
    (snd (CalendarEvents.put_reschedule store req t)).
Proof.
  intros Hvalid Hstore. unfold CalendarEvents.put_reschedule.
  destruct (truthy (get (body req) "start_time")) eqn:Hs; [|done].
  destruct (truthy (get (body req) "end_time")) eqn:He; [|done]. simpl.
  destruct (findIndex _ store) as [i|]; [|done].
  destruct (Date_ge _ _) eqn:Hge; [done|]. simpl.
  apply Forall_insert; [done|].
  unfold CalendarEvents.starts_before_end. read_property.
  apply Date_ge_false_lt; [apply supplied_valid|apply supplied_valid|]; try done;
    date_key.
Qed.

(** What [PUT /api/calendar-events/:id] validates is what it stores, as
    long as the supplied times are truthy. *)
Lemma or_else_spread (ev updates : gmap string value) k :
  (∀ v, updates !! k = Some v → truthy v = true) →
  or_else (get updates k) (get ev k) = get (spread ev updates) k.
Proof.
  intros Htruthy. destruct (updates !! k) as [v|] eqn:Hk.
  - rewrite (get_spread_Some _ _ _ v Hk), (get_Some _ _ _ Hk).
    unfold or_else. by rewrite (Htruthy v).
  - rewrite (get_spread_None _ _ _ Hk). unfold or_else, get at 1 2.
    by rewrite Hk.
Qed.

Lemma put_by_id_ordered store req t :
  CalendarEvents.supplies_valid_dates (body req) → CalendarEvents.supplies_truthy_dates (body req) →
  Forall (λ e, CalendarEvents.starts_before_end e = true) store →
  Forall (λ e, CalendarEvents.starts_before_end e = true)
    (snd (CalendarEvents.put_by_id store req t)).
Proof.
  intros Hvalid Htruthy Hstore. unfold CalendarEvents.put_by_id.
  destruct (findIndex _ store) as [i|] eqn:Hi; [|done].
  apply findIndex_Some in Hi as (ev & Hev & _). rewrite Hev. simpl.
  pose proof (proj1 (Forall_lookup _ _) Hstore i ev Hev) as Hordered.
  simpl in Hordered.
  rewrite !or_else_spread by (intros v Hv; eapply Htruthy; [|done]; date_key).
  destruct (_ && _) eqn:Hcheck; [done|]. simpl.
  apply Forall_insert; [done|].
  unfold CalendarEvents.starts_before_end in *. read_property.
  destruct (Date_lt_valid _ _ Hordered) as [Hvs Hve].
  assert (∀ k, k ∈ ["start_time"; "end_time"] →
            is_Some (Date_getTime (get ev k)) →
            is_Some (Date_getTime (get (spread ev (body req)) k))) as Hget.
  { intros k Hk Hevk. destruct (body req !! k) as [v|] eqn:Hbk.
    - rewrite (get_spread_Some _ _ _ v Hbk). eauto.
    - by rewrite (get_spread_None _ _ _ Hbk). }
  destruct (truthy (get (body req) "start_time") ||
            truthy (get (body req) "end_time")) eqn:Hsupplied.
  - simpl in Hcheck.
    apply Date_ge_false_lt; [apply Hget|apply Hget|]; try done; date_key.
  - apply orb_false_elim in Hsupplied as [Hs He].
    assert (∀ k, k ∈ ["start_time"; "end_time"] →
              truthy (get (body req) k) = false → body req !! k = None) as Hnone.
    { intros k Hk Hfalsy. destruct (body req !! k) as [v|] eqn:Hbk; [|done].
      rewrite (get_Some _ _ _ Hbk), (Htruthy k v Hk Hbk) in Hfalsy. done. }
    rewrite !get_spread_None by (apply Hnone; [date_key | done]). done.
Qed.

End CalendarFacts.

Lemma calendar_thrown_unchanged `{Runtime} store req now t1 t2 t :
  (∀ e, fst (CalendarEvents.post_root store req now t1 t2) = Thrown e →
        snd (CalendarEvents.post_root store req now t1 t2) = store) ∧
  (∀ e, fst (CalendarEvents.put_by_id store req t) = Thrown e →
        snd (CalendarEvents.put_by_id store req t) = store) ∧
  (∀ e, fst (CalendarEvents.put_reschedule store req t) = Thrown e →
        snd (CalendarEvents.put_reschedule store req t) = store).
Proof.
  unfold CalendarEvents.post_root, CalendarEvents.put_by_id,
    CalendarEvents.put_reschedule.
  repeat split; intros e;
    repeat (match goal with
            | |- context [if ?b then _ else _] => destruct b
            | |- context [match ?o with Some _ => _ | None => _ end] => destruct o
            end; try done).
Qed.

(** C9 (as amended).  Take a store in which every event starts strictly
    before it ends, and a request whose truthy [start_time] and [end_time]
    are valid dates.  Then every event in the store after
    [POST /api/calendar-events] and after
    [PUT /api/calendar-events/:id/reschedule] starts strictly before it
    ends, and so does every event after [PUT /api/calendar-events/:id] when
    the times the body supplies are truthy; a handler that throws leaves
    the store unchanged; and a request that passes the checks made before
    the date check (required fields present, event found) and whose
    resulting start is not strictly before its end is answered with the 400
    error [INVALID_DATE_RANGE]. *)
Theorem calendar_dates_ordered `{Runtime} (store : list (gmap string value))
    (req : Request) (now t_created t_updated : Z) :
  CalendarEvents.supplies_valid_dates (body req) →
  Forall (λ e, CalendarEvents.starts_before_end e = true) store →
  let created := CalendarEvents.post_root store req now t_created t_updated in
  let rescheduled := CalendarEvents.put_reschedule store req t_updated in
  let updated := CalendarEvents.put_by_id store req t_updated in
  let found :=
    findIndex (λ e, strict_eq (get e "id") (VStr (params_id req))) store in
  let invalid_range :=
    Thrown (apiError "End time must be after start time" 400
                     "INVALID_DATE_RANGE") in
  Forall (λ e, CalendarEvents.starts_before_end e = true) (snd created) ∧
  Forall (λ e, CalendarEvents.starts_before_end e = true) (snd rescheduled) ∧
  (CalendarEvents.supplies_truthy_dates (body req) →
   Forall (λ e, CalendarEvents.starts_before_end e = true) (snd updated)) ∧
  ((∀ e, fst created = Thrown e → snd created = store) ∧
   (∀ e, fst updated = Thrown e → snd updated = store) ∧
   (∀ e, fst rescheduled = Thrown e → snd rescheduled = store)) ∧
  (truthy (get (body req) "title") = true →
   truthy (get (body req) "start_time") = true →
   truthy (get (body req) "end_time") = true →
   CalendarEvents.starts_before_end (body req) = false →
   created = (invalid_range, store)) ∧
  (truthy (get (body req) "start_time") = true →
   truthy (get (body req) "end_time") = true →
   is_Some found →
   CalendarEvents.starts_before_end (body req) = false →
   rescheduled = (invalid_range, store)) ∧
  (CalendarEvents.supplies_truthy_dates (body req) →
   ∀ i ev, found = Some i → store !! i = Some ev →
   is_Some (body req !! "start_time") ∨ is_Some (body req !! "end_time") →
   CalendarEvents.starts_before_end (spread ev (body req)) = false →
   updated = (invalid_range, store)).
Proof.
  intros Hvalid Hstore created rescheduled updated found invalid_range.
  split; [by apply post_root_ordered|].
  split; [by apply put_reschedule_ordered|].
  split; [intros Htruthy; by apply put_by_id_ordered|].
  split; [apply calendar_thrown_unchanged|].
  assert (∀ k, k ∈ ["start_time"; "end_time"] →
            truthy (get (body req) k) = true →
            is_Some (Date_getTime (get (body req) k))) as Hsupplied.
  { intros k Hk Hkt. by apply supplied_valid. }
  split; [|split].
  - intros Htitle Hs He Hlt. subst created. unfold CalendarEvents.post_root.
    rewrite Htitle, Hs, He. simpl.
    rewrite Date_lt_false_ge; [done| | |done]; apply Hsupplied; try done;
      date_key.
  - intros Hs He [i Hi] Hlt. subst rescheduled found.
    unfold CalendarEvents.put_reschedule. rewrite Hs, He, Hi. simpl.
    rewrite Date_lt_false_ge; [done| | |done]; apply Hsupplied; try done;
      date_key.
  - intros Htruthy i ev Hi Hev Hany Hlt. subst updated found.
    unfold CalendarEvents.put_by_id. rewrite Hi, Hev. simpl.
    rewrite !or_else_spread
      by (intros v Hv; eapply Htruthy; [|done]; date_key).
    pose proof (proj1 (Forall_lookup _ _) Hstore i ev Hev) as Hordered.
    simpl in Hordered.
    destruct (Date_lt_valid _ _ Hordered) as [Hvs Hve].
    assert (∀ k, k ∈ ["start_time"; "end_time"] →
              is_Some (Date_getTime (get ev k)) →
              is_Some (Date_getTime (get (spread ev (body req)) k))) as Hget.
    { intros k Hk Hevk. destruct (body req !! k) as [v|] eqn:Hbk.
      - rewrite (get_spread_Some _ _ _ v Hbk).
        apply (Hvalid k v Hk Hbk). by eapply Htruthy.
      - by rewrite (get_spread_None _ _ _ Hbk). }
    assert ((truthy (get (body req) "start_time") ||
             truthy (get (body req) "end_time")) = true) as ->.
    { apply orb_true_iff.
      destruct Hany as [Hsome|Hsome]; destruct Hsome as [v Hv]; [left|right];
        rewrite (get_Some _ _ _ Hv); eapply Htruthy; [|done| |done]; date_key. }
    rewrite Date_lt_false_ge; [done| | |done]; apply Hget; try done; date_key.
Qed.

Lemma mockEvents_ordered :
  Forall (λ e, @CalendarEvents.starts_before_end demo_runtime e = true)
    CalendarEvents.mockEvents.
Proof. repeat constructor. Qed.

(** The theorem at work on the initial events, in the example runtime: a
    hearing that would end before it starts is rejected by all three
    routes. *)
Lemma calendar_dates_ordered_witness :
  let req := request "1" ∅ (object [("title", VStr "Motion hearing");
                                    ("start_time", VStr "2024-03-01T10:00:00Z");
                                    ("end_time", VStr "2024-03-01T09:00:00Z")]) in
  let invalid_range :=
    Thrown (apiError "End time must be after start time" 400
                     "INVALID_DATE_RANGE") in
  @CalendarEvents.post_root demo_runtime CalendarEvents.mockEvents req
      1700000000000 1700000000000 1700000000000 =
    (invalid_range, CalendarEvents.mockEvents) ∧
  @CalendarEvents.put_reschedule demo_runtime CalendarEvents.mockEvents req
      1700000000000 = (invalid_range, CalendarEvents.mockEvents) ∧
  @CalendarEvents.put_by_id demo_runtime CalendarEvents.mockEvents req
      1700000000000 = (invalid_range, CalendarEvents.mockEvents).
Proof.
  intros req invalid_range.
  assert (∀ k v, k ∈ ["start_time"; "end_time"] → body req !! k = Some v →
                 truthy v = true ∧ is_Some (@Date_getTime demo_runtime v))
    as Hbody.
  { intros k v Hk Hv.
    apply elem_of_cons in Hk as [->|Hk];
      [|apply elem_of_cons in Hk as [->|Hk]; [|by apply elem_of_nil in Hk]];
      vm_compute in Hv; injection Hv as <-; (split; [reflexivity|]);
      vm_compute; eauto. }
  destruct (@calendar_dates_ordered demo_runtime CalendarEvents.mockEvents req
              1700000000000 1700000000000 1700000000000)
    as (_ & _ & _ & _ & Hpost & Hres & Hput).
  - intros k v Hk Hv _. by apply (Hbody k v).
  - exact mockEvents_ordered.
  - split; [by apply Hpost|]. split.
    + apply Hres; try reflexivity. vm_compute. eauto.
    + apply (Hput (λ k v Hk Hv, proj1 (Hbody k v Hk Hv)) 0%nat
               (default ∅ (CalendarEvents.mockEvents !! 0%nat)));
        [reflexivity | reflexivity | | reflexivity].
      left. vm_compute. eauto.
Defined.

(** C9 as stated fails in three ways.  A start time that is not a date
    passes the range check (a comparison with an invalid date is false) and
    the event is stored; an update that blanks the start time is stored
    without any check; and a request that lacks a required field is
    answered [MISSING_REQUIRED_FIELDS] whatever its range. *)
Lemma calendar_invalid_dates_accepted :
  let undated := request "1" ∅ (object [("title", VStr "Deposition");
                                        ("start_time", VStr "TBD");
                                        ("end_time", VStr "2024-03-01T09:00:00Z")]) in
  let blank := request "1" ∅ (object [("start_time", VStr "")]) in
  let untitled := request "1" ∅ (object [("start_time", VStr "2024-03-01T10:00:00Z");
                                         ("end_time", VStr "2024-03-01T09:00:00Z")]) in
  let created := @CalendarEvents.post_root demo_runtime
      CalendarEvents.mockEvents undated 1700000000000 1700000000000 1700000000000 in
  let updated := @CalendarEvents.put_by_id demo_runtime
      CalendarEvents.mockEvents blank 1700000000000 in
  let refused := @CalendarEvents.post_root demo_runtime
      CalendarEvents.mockEvents untitled 1700000000000 1700000000000 1700000000000 in
  sent_status (fst created) = Some 201 ∧
  (λ e, get e "start_time") <$> snd created =
    [VStr "2024-02-15T10:00:00Z"; VStr "2024-02-12T14:00:00Z"; VStr "TBD"] ∧
  @CalendarEvents.starts_before_end demo_runtime <$> snd created =
    [true; true; false] ∧
  sent_status (fst updated) = Some 200 ∧
  (λ e, get e "start_time") <$> snd updated =
    [VStr ""; VStr "2024-02-12T14:00:00Z"] ∧
  @CalendarEvents.starts_before_end demo_runtime <$> snd updated =
    [false; true] ∧
  @CalendarEvents.starts_before_end demo_runtime (body untitled) = false ∧
  thrown (fst refused) =
    Some (apiError "Title, start time, and end time are required" 400
                   "MISSING_REQUIRED_FIELDS").
Proof. vm_compute. repeat split. Qed.

(** ** Ending a call twice (C10) *)

Lemma append_nonempty (s : string) c s' : s +:+ String c s' ≠ "".
Proof. by destruct s. Qed.

Lemma toISOString_nonempty t : toISOString t ≠ "".
Proof.
  unfold toISOString. destruct (civil_from_days _) as [[y m] d].
  apply append_nonempty.
Qed.

Lemma truthy_toISOString t : truthy (VStr (toISOString t)) = true.
Proof.
  simpl. destruct (String.eqb_spec (toISOString t) ""); [|done].
  by destruct (toISOString_nonempty t).
Qed.

Lemma findIndex_insert {A} (p : A → bool) (l : list A) i x :
  findIndex p l = Some i → p x = true → findIndex p (<[i := x]> l) = Some i.
Proof.
  revert i. induction l as [|y l IH]; simpl; intros i Hi Hx; [done|].
  destruct (p y) eqn:Hy.
  - injection Hi as <-. simpl. by rewrite Hx.
  - destruct (findIndex p l) as [k|] eqn:Hk; [|done].
    injection Hi as <-. simpl. rewrite Hy. by rewrite (IH k).
Qed.

Section CallLogFacts.
Context `{Runtime}.

Lemma post_end_already_ended (store : list (gmap string value)) req t1 t2 i c :
  findIndex (λ c, strict_eq (get c "id") (VStr (params_id req))) store = Some i →
  store !! i = Some c →
  truthy (get c "ended_at") = true →
  CallLogs.post_end store req t1 t2 =
    (Sent {| status := 200;
             json := object [("success", VBool true);
                             ("data", VObj c);
                             ("message", VStr "Call ended successfully")] |},
     store).
Proof.
  intros Hi Hc Hended. unfold CallLogs.post_end.
  rewrite Hi, Hc. simpl. rewrite Hended. simpl. by rewrite Hc.
Qed.

Lemma post_end_not_ended (store : list (gmap string value)) req t1 t2 i c :
  findIndex (λ c, strict_eq (get c "id") (VStr (params_id req))) store = Some i →
  store !! i = Some c →
  truthy (get c "ended_at") = false →
  let ended := extend c [
    ("ended_at", VStr (toISOString t1));
    ("duration", VNum (CallLogs.duration_since (get c "started_at") t1));
    ("call_status", VStr "completed");
    ("updated_date", VStr (toISOString t2)) ] in
  CallLogs.post_end store req t1 t2 =
    (Sent {| status := 200;
             json := object [("success", VBool true);
                             ("data", VObj ended);
                             ("message", VStr "Call ended successfully")] |},
     <[i := ended]> store).
Proof.
  intros Hi Hc Hended ended. unfold CallLogs.post_end.
  rewrite Hi, Hc. change (default ∅ (Some c)) with c.
  rewrite Hended. cbn [negb].
  rewrite list_lookup_insert_eq by by eapply lookup_lt_Some. done.
Qed.

Lemma post_end_idempotent (store : list (gmap string value)) req t1 t2 t3 t4 :
  snd (CallLogs.post_end (snd (CallLogs.post_end store req t1 t2)) req t3 t4) =
    snd (CallLogs.post_end store req t1 t2) ∧
  sent_data (fst (CallLogs.post_end
                    (snd (CallLogs.post_end store req t1 t2)) req t3 t4)) =
    sent_data (fst (CallLogs.post_end store req t1 t2)).
Proof.
  destruct (findIndex (λ c, strict_eq (get c "id") (VStr (params_id req))) store)
    as [i|] eqn:Hi.
  - destruct (findIndex_Some _ _ _ Hi) as (c & Hc & Hid & _).
    destruct (truthy (get c "ended_at")) eqn:Hended.
    + rewrite (post_end_already_ended store req t1 t2 i c Hi Hc Hended).
      cbn [fst snd].
      by rewrite (post_end_already_ended store req t3 t4 i c Hi Hc Hended).
    + rewrite (post_end_not_ended store req t1 t2 i c Hi Hc Hended).
      cbn [fst snd].
      assert (i < length store)%nat as Hlt by by eapply lookup_lt_Some.
      erewrite (post_end_already_ended _ req t3 t4 i); [done| | |].
      * apply findIndex_insert; [done|]. by read_property.
      * by rewrite list_lookup_insert_eq.
      * read_property. apply truthy_toISOString.
  - unfold CallLogs.post_end. rewrite Hi. cbn [fst snd]. by rewrite Hi.
Qed.

End CallLogFacts.

(** The first element that satisfies [p] is the one [findIndex] finds. *)
Lemma findIndex_first {A} (p : A → bool) (l : list A) i x :
  l !! i = Some x → p x = true →
  (∀ j y, (j < i)%nat → l !! j = Some y → p y = false) →
  findIndex p l = Some i.
Proof.
  revert i. induction l as [|y l IH]; intros i Hi Hx Hbefore; [done|].
  destruct i as [|i]; simpl in *.
  - injection Hi as ->. by rewrite Hx.
  - rewrite (Hbefore 0%nat y) by (done || lia).
    rewrite (IH i Hi Hx); [done|].
    intros j z Hj Hz. apply (Hbefore (S j) z); [lia | done].
Qed.

(** C10 (as amended).  When a call log has a truthy [ended_at] and is the
    first call log of the store with its id, [POST /api/call-logs/:id/end]
    for that id answers with that record and leaves the whole store, hence
    the record's [ended_at], [duration], [call_status] and [updated_date],
    as it was.  Ending a call a second time, at whatever later clock
    readings, leaves the store as the first end left it and returns the same
    record. *)
Theorem post_end_twice `{Runtime} (store : list (gmap string value))
    (req : Request) (t1 t2 t3 t4 : Z) :
  (∀ i c,
     store !! i = Some c →
     get c "id" = VStr (params_id req) →
     (∀ j c', (j < i)%nat → store !! j = Some c' →
              strict_eq (get c' "id") (VStr (params_id req)) = false) →
     truthy (get c "ended_at") = true →
     CallLogs.post_end store req t1 t2 =
       (Sent {| status := 200;
                json := object [("success", VBool true);
                                ("data", VObj c);
                                ("message", VStr "Call ended successfully")] |},
        store)) ∧
  let once := CallLogs.post_end store req t1 t2 in
  let twice := CallLogs.post_end (snd once) req t3 t4 in
  snd twice = snd once ∧ sent_data (fst twice) = sent_data (fst once).
Proof.
  split.
  - intros i c Hc Hid Hfirst Hended.
    apply (post_end_already_ended store req t1 t2 i c); [|done..].
    apply (findIndex_first _ store i c Hc); [|exact Hfirst].
    rewrite Hid. simpl. apply String.eqb_refl.
  - apply post_end_idempotent.
Qed.

(** The theorem at work in the example runtime: a call initiated at noon and
    ended ninety seconds later keeps its end time and duration when it is
    ended again an hour later. *)
Lemma post_end_twice_witness :
  let started := snd (CallLogs.post_initiate CallLogs.mockCallLogs
      (request "" ∅ (object [("to_number", VStr "+15550001111")]))
      1700049600000 1700049600000 1700049600000 1700049600000) in
  let req := request "1700049600000" ∅ ∅ in
  let once := @CallLogs.post_end demo_runtime started req
                1700049690000 1700049690001 in
  let twice := @CallLogs.post_end demo_runtime (snd once) req
                 1700053290000 1700053290000 in
  snd twice = snd once ∧
  (λ c, get c "ended_at") <$> snd twice =
    [VStr "2024-01-20T14:15:00Z"; VStr "2024-01-18T10:45:00Z";
     VStr "2023-11-15T12:01:30.000Z"] ∧
  (λ c, get c "duration") <$> snd twice = [VInt 900; VInt 900; VInt 90].
Proof.
  intros started req once twice.
  destruct (@post_end_twice demo_runtime started req
              1700049690000 1700049690001 1700053290000 1700053290000)
    as [Hended [Hstore _]].
  split; [exact Hstore|].
  assert ((λ c, get c "id") <$> snd once =
          [VStr "1"; VStr "2"; VStr "1700049600000"]) as Hids
    by (vm_compute; reflexivity).
  assert ((λ c, truthy (get c "ended_at")) <$> snd once = [true; true; true])
    as Hends by (vm_compute; reflexivity).
  assert (∀ j, (λ c, get c "id") <$> (snd once !! j) =
               [VStr "1"; VStr "2"; VStr "1700049600000"] !! j) as Hid
    by (intros j; by rewrite <- list_lookup_fmap, Hids).
  assert (∀ j, (λ c, truthy (get c "ended_at")) <$> (snd once !! j) =
               [true; true; true] !! j) as Hend
    by (intros j; by rewrite <- list_lookup_fmap, Hends).
  destruct (snd once !! 2%nat) as [c|] eqn:Hc;
    [|specialize (Hid 2%nat); rewrite Hc in Hid; discriminate].
  pose proof (proj1 (@post_end_twice demo_runtime (snd once) req
                1700053290000 1700053290000 0 0) 2%nat c Hc) as Hsame.
  fold twice in Hsame. rewrite Hsame.
  - cbn [snd]. split; vm_compute; reflexivity.
  - specialize (Hid 2%nat). rewrite Hc in Hid. by injection Hid.
  - intros j c' Hj Hc'. specialize (Hid j). rewrite Hc' in Hid.
    destruct j as [|[|j]]; [| |lia]; injection Hid as ->; reflexivity.
  - specialize (Hend 2%nat). rewrite Hc in Hend. by injection Hend.
Defined.

(** C10 as stated fails for a call log that is not the first with its id,
    and for one whose [ended_at] is set to the empty string.  A call started
    and a finished call logged within the same millisecond share their id:
    ending under that id ends and returns the call that was started, not the
    logged one whose [ended_at] is set, and the store changes.  A call
    logged with an empty [ended_at] gets a new end time and duration. *)
Lemma post_end_with_shared_id_or_empty_end :
  let started := snd (CallLogs.post_initiate CallLogs.mockCallLogs
      (request "" ∅ (object [("to_number", VStr "+15550001111")]))
      1700049600000 1700049600000 1700049600000 1700049600000) in
  let logged := snd (CallLogs.post_root started
      (request "" ∅ (object [("to_number", VStr "+15550002222");
                             ("from_number", VStr "+15559876543");
                             ("started_at", VStr "2023-11-15T11:00:00.000Z");
                             ("ended_at", VStr "2023-11-15T11:05:00.000Z");
                             ("duration", VInt 300);
                             ("call_status", VStr "completed")]))
      1700049600000 1700049600000 1700049600000) in
  let ended := @CallLogs.post_end demo_runtime logged
      (request "1700049600000" ∅ ∅) 1700049690000 1700049690000 in
  let blank := snd (CallLogs.post_root CallLogs.mockCallLogs
      (request "" ∅ (object [("to_number", VStr "+15550002222");
                             ("from_number", VStr "+15559876543");
                             ("started_at", VStr "2023-11-15T11:00:00.000Z");
                             ("ended_at", VStr "")]))
      1700049600000 1700049600000 1700049600000) in
  let reended := @CallLogs.post_end demo_runtime blank
      (request "1700049600000" ∅ ∅) 1700049690000 1700049690000 in
  (λ c, get c "id") <$> logged =
    [VStr "1"; VStr "2"; VStr "1700049600000"; VStr "1700049600000"] ∧
  (λ c, get c "ended_at") <$> logged =
    [VStr "2024-01-20T14:15:00Z"; VStr "2024-01-18T10:45:00Z"; VUndefined;
     VStr "2023-11-15T11:05:00.000Z"] ∧
  (λ c, get c "ended_at") <$> snd ended =
    [VStr "2024-01-20T14:15:00Z"; VStr "2024-01-18T10:45:00Z";
     VStr "2023-11-15T12:01:30.000Z"; VStr "2023-11-15T11:05:00.000Z"] ∧
  (∃ returned, sent_data (fst ended) = VObj returned ∧
               get returned "to_number" = VStr "+15550001111" ∧
               get returned "ended_at" = VStr "2023-11-15T12:01:30.000Z") ∧
  (λ c, get c "ended_at") <$> blank =
    [VStr "2024-01-20T14:15:00Z"; VStr "2024-01-18T10:45:00Z"; VStr ""] ∧
  (λ c, get c "ended_at") <$> snd reended =
    [VStr "2024-01-20T14:15:00Z"; VStr "2024-01-18T10:45:00Z";
     VStr "2023-11-15T12:01:30.000Z"].
Proof.
  vm_compute. repeat split. eexists. repeat split.
Qed.

(** * Further properties of the middleware and the routes *)

(** ** The rate limiter *)

Lemma rateLimiter_key store req now :
  RateLimiter.rateLimiter store req now =
  let '(maxRequests, windowMs) := RateLimiter.limits (path req) in
  let fresh :=
    (Next [("X-RateLimit-Limit", Z_toString maxRequests);
           ("X-RateLimit-Remaining", Z_toString (maxRequests - 1));
           ("X-RateLimit-Reset", toISOString (now + windowMs))],
     <[RateLimiter.key req :=
         {| RateLimiter.count := 1;
            RateLimiter.resetTime := now + windowMs |}]> store) in
  match store !! RateLimiter.key req with
  | None => fresh
  | Some record =>
    if RateLimiter.resetTime record <? now then fresh
    else if maxRequests <=? RateLimiter.count record then
      (Answered {| status := 429;
                   json := object [
                     ("success", VBool false);
                     ("message", VStr "Too many requests");
                     ("retryAfter",
                      VInt (RateLimiter.ceil_div
                              (RateLimiter.resetTime record - now) 1000)) ] |},
       store)
    else
      (Next [("X-RateLimit-Limit", Z_toString maxRequests);
             ("X-RateLimit-Remaining",
              Z_toString (maxRequests - (RateLimiter.count record + 1)));
             ("X-RateLimit-Reset", toISOString (RateLimiter.resetTime record))],
       <[RateLimiter.key req :=
           {| RateLimiter.count := RateLimiter.count record + 1;
              RateLimiter.resetTime := RateLimiter.resetTime record |}]> store)
  end.
Proof. reflexivity. Qed.

Lemma limits_positive p :
  0 < fst (RateLimiter.limits p) ∧ 0 < snd (RateLimiter.limits p).
Proof.
  unfold RateLimiter.limits.
  repeat (match goal with |- context [if ?b then _ else _] => destruct b end);
    simpl; lia.
Qed.

Lemma fmap_seq_shift {B} (f : nat → B) n :
  f <$> seq 1 n = (λ i, f (S i)) <$> seq 0 n.
Proof. by rewrite <- (fmap_S_seq 0), <- list_fmap_compose. Qed.

(** Within a window that is already open: with [c] requests counted so far,
    the next [maxRequests - c] arrivals pass and all later ones are
    refused. *)
Lemma replay_open_window req times : ∀ store c r,
  store !! RateLimiter.key req =
    Some {| RateLimiter.count := c; RateLimiter.resetTime := r |} →
  0 ≤ c →
  Forall (λ t, t ≤ r) times →
  admitted <$> fst (RateLimiter.replay store req times) =
    (λ i, bool_decide (c + Z.of_nat i < fst (RateLimiter.limits (path req))))
      <$> seq 0 (length times).
Proof.
  induction times as [|t times IH]; intros store c r Hkey Hc Hall; [done|].
  apply Forall_cons in Hall as [Ht Hall].
  cbn [RateLimiter.replay length seq]. rewrite rateLimiter_key, Hkey.
  destruct (RateLimiter.limits (path req)) as [maxRequests windowMs] eqn:Hlim.
  cbn [RateLimiter.resetTime RateLimiter.count fst] in *.
  assert ((r <? t) = false) as -> by (apply Z.ltb_ge; lia).
  rewrite fmap_cons, fmap_seq_shift.
  destruct (maxRequests <=? c) eqn:Hfull.
  - apply Z.leb_le in Hfull.
    pose proof (IH store c r Hkey Hc Hall) as IH'.
    destruct (RateLimiter.replay store req times) as [rs s2].
    cbn [fst] in *. rewrite fmap_cons, IH'.
    f_equal; [symmetry; apply bool_decide_eq_false; lia|].
    apply list_fmap_ext. intros i x _. apply bool_decide_ext. lia.
  - apply Z.leb_gt in Hfull.
    pose proof (IH _ (c + 1) r (lookup_insert_eq store _ _) ltac:(lia) Hall)
      as IH'.
    destruct (RateLimiter.replay _ req times) as [rs s2].
    cbn [fst] in *. rewrite fmap_cons, IH'.
    f_equal; [symmetry; apply bool_decide_eq_true; lia|].
    apply list_fmap_ext. intros i x _. apply bool_decide_ext. lia.
Qed.

(** X1.  A client whose key has no entry, or an entry whose window has
    ended, and who then sends the same request at a series of clock readings
    that all fall within the new window, has exactly its first
    [maxRequests] requests passed on; every later one is refused. *)
Theorem rate_limit_quota (store : gmap string RateLimiter.entry)
    (req : Request) (t0 : Z) (times : list Z) :
  (∀ e, store !! RateLimiter.key req = Some e → RateLimiter.resetTime e < t0) →
  Forall (λ t, t ≤ t0 + snd (RateLimiter.limits (path req))) times →
  admitted <$> fst (RateLimiter.replay store req (t0 :: times)) =
    (λ i, bool_decide (Z.of_nat i < fst (RateLimiter.limits (path req))))
      <$> seq 0 (S (length times)).
Proof.
  intros Hexpired Hall.
  cbn [RateLimiter.replay seq]. rewrite rateLimiter_key.
  pose proof (limits_positive (path req)) as [Hmax Hwin].
  destruct (RateLimiter.limits (path req)) as [maxRequests windowMs] eqn:Hlim.
  cbn [fst snd] in *.
  set (fresh := (Next _, <[RateLimiter.key req := _]> store)).
  assert (match store !! RateLimiter.key req with
          | Some record =>
            if RateLimiter.resetTime record <? t0 then fresh
            else if maxRequests <=? RateLimiter.count record
                 then (Answered _, store) else (Next _, _)
          | None => fresh
          end = fresh) as ->.
  { destruct (store !! RateLimiter.key req) as [e|] eqn:He; [|done].
    specialize (Hexpired e eq_refl). apply Z.ltb_lt in Hexpired.
    by rewrite Hexpired. }
  subst fresh. cbv beta iota.
  pose proof (replay_open_window req times _ 1 (t0 + windowMs)
                (lookup_insert_eq store _ _) ltac:(lia) Hall) as Hopen.
  rewrite Hlim in Hopen. revert Hopen.
  destruct (RateLimiter.replay (<[_ := _]> store) req times) as [rs s2].
  cbn [fst]. intros Hopen. rewrite !fmap_cons, fmap_seq_shift, Hopen.
  f_equal; [symmetry; apply bool_decide_eq_true; lia|].
  apply list_fmap_ext. intros i x _. apply bool_decide_ext. lia.
Qed.

(** The theorem at work: seven login attempts from one address within
    fifteen minutes; the first five pass. *)
Lemma rate_limit_quota_witness :
  let login := {| ip := Some "203.0.113.7"; path := "/auth/login";
                  url := "/api/auth/login"; originalUrl := "/api/auth/login";
                  authorization := None; params_id := ""; query := ∅;
                  body := ∅; user := None; file := None |} in
  admitted <$> fst (RateLimiter.replay ∅ login
    [1700000000000; 1700000001000; 1700000002000; 1700000003000;
     1700000004000; 1700000005000; 1700000900000]) =
  [true; true; true; true; true; false; false].
Proof.
  intros login.
  rewrite (rate_limit_quota ∅ login 1700000000000).
  - reflexivity.
  - intros e He. by rewrite lookup_empty in He.
  - repeat constructor; vm_compute; discriminate.
Defined.

(** X2.  The limiter reads and writes no entry but the one of the request's
    own key: every other entry is left as it was, and two stores that agree
    on the entry of that key get the same decision and the same new entry
    for it, whatever else they hold.  A request the limiter refuses (429)
    leaves the whole store as it was. *)
Theorem rate_limiter_isolated (store store' : gmap string RateLimiter.entry)
    (req : Request) (now : Z) :
  (∀ k, k ≠ RateLimiter.key req →
     snd (RateLimiter.rateLimiter store req now) !! k = store !! k) ∧
  (store !! RateLimiter.key req = store' !! RateLimiter.key req →
     fst (RateLimiter.rateLimiter store req now) =
       fst (RateLimiter.rateLimiter store' req now) ∧
     snd (RateLimiter.rateLimiter store req now) !! RateLimiter.key req =
       snd (RateLimiter.rateLimiter store' req now) !! RateLimiter.key req) ∧
  (∀ r, fst (RateLimiter.rateLimiter store req now) = Answered r →
     status r = 429 ∧ snd (RateLimiter.rateLimiter store req now) = store).
Proof.
  rewrite !rateLimiter_key.
  destruct (RateLimiter.limits (path req)) as [maxRequests windowMs].
  split; [|split].
  - destruct (store !! RateLimiter.key req) as [record|];
      [destruct (RateLimiter.resetTime record <? now);
         [|destruct (maxRequests <=? RateLimiter.count record)]|];
      cbn [fst snd]; intros k Hk; by rewrite ?lookup_insert_ne.
  - intros Hsame. rewrite <- Hsame.
    destruct (store !! RateLimiter.key req) as [record|] eqn:Hrecord;
      [destruct (RateLimiter.resetTime record <? now);
         [|destruct (maxRequests <=? RateLimiter.count record)]|];
      cbn [fst snd]; (split; [done|]);
      first [by rewrite !lookup_insert_eq | by rewrite Hrecord].
  - destruct (store !! RateLimiter.key req) as [record|];
      [destruct (RateLimiter.resetTime record <? now);
         [|destruct (maxRequests <=? RateLimiter.count record)]|];
      cbn [fst snd]; intros r Hr; try discriminate.
    by injection Hr as <-.
Qed.

(** The theorem at work: a sixth login attempt does not reset or touch the
    counter of an upload from the same address, and it is refused just the
    same when that counter is not there. *)
Lemma rate_limiter_isolated_witness :
  let login := {| ip := Some "203.0.113.7"; path := "/auth/login";
                  url := "/api/auth/login"; originalUrl := "/api/auth/login";
                  authorization := None; params_id := ""; query := ∅;
                  body := ∅; user := None; file := None |} in
  let alone : gmap string RateLimiter.entry :=
    {[ "203.0.113.7:/auth/login" :=
         {| RateLimiter.count := 5; RateLimiter.resetTime := 1700000900000 |} ]} in
  let store : gmap string RateLimiter.entry :=
    <[ "203.0.113.7:/documents/upload" :=
         {| RateLimiter.count := 3; RateLimiter.resetTime := 1700000060000 |} ]>
      alone in
  snd (RateLimiter.rateLimiter store login 1700000000000)
    !! "203.0.113.7:/documents/upload" =
  Some {| RateLimiter.count := 3; RateLimiter.resetTime := 1700000060000 |} ∧
  admitted (fst (RateLimiter.rateLimiter store login 1700000000000)) =
    admitted (fst (RateLimiter.rateLimiter alone login 1700000000000)).
Proof.
  intros login alone store.
  destruct (rate_limiter_isolated store alone login 1700000000000)
    as (Hothers & Hsame & _).
  split.
  - rewrite Hothers; [reflexivity | discriminate].
  - destruct Hsame as [-> _]; reflexivity.
Defined.

(** X3.  The periodic clean-up is invisible to the limiter: for a request
    that arrives at or after the clean-up's clock reading, the limiter
    decides the same with or without the clean-up, and cleaning up before
    the request or after it gives the same store. *)
Theorem cleanup_transparent (store : gmap string RateLimiter.entry)
    (req : Request) (t_cleanup now : Z) :
  t_cleanup ≤ now →
  RateLimiter.rateLimiter (RateLimiter.cleanup store t_cleanup) req now =
    (fst (RateLimiter.rateLimiter store req now),
     RateLimiter.cleanup (snd (RateLimiter.rateLimiter store req now)) t_cleanup).
Proof.
  intros Hle. rewrite !rateLimiter_key.
  pose proof (limits_positive (path req)) as [Hmax Hwin].
  destruct (RateLimiter.limits (path req)) as [maxRequests windowMs].
  cbn [fst snd] in *. unfold RateLimiter.cleanup.
  assert (∀ e : RateLimiter.entry, t_cleanup ≤ RateLimiter.resetTime e →
    filter (λ kv, ¬ RateLimiter.resetTime kv.2 < t_cleanup)
      (<[RateLimiter.key req := e]> store) =
    <[RateLimiter.key req := e]>
      (filter (λ kv : string * RateLimiter.entry,
                 ¬ RateLimiter.resetTime kv.2 < t_cleanup) store)) as Hins.
  { intros e He. apply map_filter_insert_True. simpl. lia. }
  destruct (store !! RateLimiter.key req) as [record|] eqn:Hkey.
  - destruct (decide (RateLimiter.resetTime record < t_cleanup)) as [Hold|Hkeep].
    + assert (filter (λ kv : string * RateLimiter.entry,
                        ¬ RateLimiter.resetTime kv.2 < t_cleanup) store
                !! RateLimiter.key req = None) as ->.
      { apply map_lookup_filter_None. right. intros e He. simpl.
        rewrite Hkey in He. injection He as <-. lia. }
      assert ((RateLimiter.resetTime record <? now) = true) as ->
        by (apply Z.ltb_lt; lia).
      cbn [fst snd]. rewrite Hins by (simpl; lia). done.
    + assert (filter (λ kv : string * RateLimiter.entry,
                        ¬ RateLimiter.resetTime kv.2 < t_cleanup) store
                !! RateLimiter.key req = Some record) as ->.
      { apply map_lookup_filter_Some. split; [done|]. simpl. lia. }
      destruct (RateLimiter.resetTime record <? now);
        [|destruct (maxRequests <=? RateLimiter.count record)];
        cbn [fst snd]; rewrite ?Hins by (simpl; lia); done.
  - assert (filter (λ kv : string * RateLimiter.entry,
                      ¬ RateLimiter.resetTime kv.2 < t_cleanup) store
              !! RateLimiter.key req = None) as ->.
    { apply map_lookup_filter_None. left. done. }
    cbn [fst snd]. rewrite Hins by (simpl; lia). done.
Qed.

(** The theorem at work: a clean-up five minutes in removes an entry that
    ended a minute earlier; the upload that follows is counted afresh either
    way. *)
Lemma cleanup_transparent_witness :
  let upload := {| ip := Some "203.0.113.7"; path := "/documents/upload";
                   url := "/api/documents/upload";
                   originalUrl := "/api/documents/upload";
                   authorization := None; params_id := ""; query := ∅;
                   body := ∅; user := None; file := None |} in
  let store : gmap string RateLimiter.entry :=
    {[ "203.0.113.7:/documents/upload" :=
         {| RateLimiter.count := 10; RateLimiter.resetTime := 1700000240000 |} ]} in
  RateLimiter.cleanup store 1700000300000 = ∅ ∧
  admitted (fst (RateLimiter.rateLimiter
                   (RateLimiter.cleanup store 1700000300000)
                   upload 1700000301000)) = true.
Proof.
  intros upload store. split.
  - apply map_eq. intros k. rewrite lookup_empty.
    apply map_lookup_filter_None. right. intros e He.
    apply lookup_singleton_Some in He as [_ <-]. simpl. lia.
  - rewrite (cleanup_transparent store upload 1700000300000 1700000301000);
      [reflexivity | lia].
Defined.

(** ** Authentication *)

Lemma substring_all (s : string) : substring 0 (String.length s) s = s.
Proof. induction s as [|b s IHs]; simpl; [done|]. by rewrite IHs. Qed.

Lemma startsWith_split (p s : string) :
  startsWith p s = true →
  s = p +:+ substring (String.length p) (String.length s - String.length p) s.
Proof.
  revert s. induction p as [|a p IH]; intros s Hs; simpl.
  - by rewrite Nat.sub_0_r, substring_all.
  - destruct s as [|b s]; [done|]. simpl in Hs.
    apply andb_prop in Hs as [Hab Hs]. apply Ascii.eqb_eq in Hab. subst b.
    cbn [String.length substring Nat.sub].
    change (String a s =
            String a (p +:+ substring (String.length p)
                              (String.length s - String.length p) s)).
    f_equal. by apply IH.
Qed.

Section AuthFacts.
Context `{Runtime}.

(** X4.  [authMiddleware] passes a request on only when its
    [Authorization] header is [Bearer ] followed by a token that
    [jwt.verify] decodes under the configured secret and whose [exp] is not
    before the current time; the request it passes on is the one it
    received with [req.user] set to the [id], [email] and [role] of the
    decoded token, and nothing else changed. *)
Theorem authMiddleware_passes_verified (env : option string)
    (t_verify now : Z) (req req' : Request) :
  Auth.authMiddleware env t_verify now req = Next req' →
  ∃ token decoded,
    authorization req = Some ("Bearer " +:+ token) ∧
    jwt_verify token (Auth.JWT_SECRET env) t_verify = Decoded decoded ∧
    Auth.exp_before decoded now = false ∧
    req' = {| ip := ip req; path := path req; url := url req;
              originalUrl := originalUrl req;
              authorization := authorization req;
              params_id := params_id req; query := query req;
              body := body req;
              user := Some (object [("id", get decoded "id");
                                    ("email", get decoded "email");
                                    ("role", get decoded "role")]);
              file := file req |}.
Proof.
  unfold Auth.authMiddleware.
  destruct (authorization req) as [authHeader|]; [|done].
  destruct (String.eqb authHeader ""); [done|].
  destruct (startsWith "Bearer " authHeader) eqn:Hbearer; [|done]. simpl.
  destruct (jwt_verify _ _ _) as [decoded| |] eqn:Hverify; [|done..].
  destruct (Auth.exp_before decoded now) eqn:Hexp; [done|].
  intros [= <-]. eexists _, decoded.
  split; [f_equal; exact (startsWith_split _ _ Hbearer)|]. done.
Qed.

(** What [authMiddleware] leaves in [req.user] of a request it passes
    on. *)
Lemma authMiddleware_sets_user (env : option string)
    (t_verify now : Z) (req req' : Request) :
  Auth.authMiddleware env t_verify now req = Next req' →
  ∃ token decoded,
    jwt_verify token (Auth.JWT_SECRET env) t_verify = Decoded decoded ∧
    user req' = Some (object [("id", get decoded "id");
                              ("email", get decoded "email");
                              ("role", get decoded "role")]).
Proof.
  unfold Auth.authMiddleware.
  destruct (authorization req) as [authHeader|]; [|done].
  destruct (String.eqb authHeader ""); [done|].
  destruct (startsWith "Bearer " authHeader); [|done]. simpl.
  destruct (jwt_verify _ _ _) as [decoded| |] eqn:Hverify; [|done..].
  destruct (Auth.exp_before decoded now); [done|].
  intros [= <-]. by eexists _, decoded.
Qed.

(** X5.  Without [req.user], [requireRole] answers 401.  After
    [authMiddleware] has passed a request on it never does: [req.user]
    holds the role of the decoded token, and [requireRole] passes the
    request on unchanged when that role is one of the listed roles and
    answers 403 otherwise. *)
Theorem requireRole_after_authMiddleware (env : option string)
    (t_verify now : Z) (req req' : Request) (roles : list string) :
  (∀ req0, user req0 = None →
     ∃ resp, Auth.requireRole roles req0 = Answered resp ∧
             status resp = 401) ∧
  (Auth.authMiddleware env t_verify now req = Next req' →
   ∃ token decoded u,
     jwt_verify token (Auth.JWT_SECRET env) t_verify = Decoded decoded ∧
     user req' = Some u ∧
     get u "role" = get decoded "role" ∧
     ((∃ r, get u "role" = VStr r ∧ r ∈ roles) →
      Auth.requireRole roles req' = Next req') ∧
     (¬ (∃ r, get u "role" = VStr r ∧ r ∈ roles) →
      ∃ resp, Auth.requireRole roles req' = Answered resp ∧
              status resp = 403)).
Proof.
  split.
  { intros req0 Hnone. unfold Auth.requireRole. rewrite Hnone.
    eexists. split; [reflexivity | done]. }
  intros Hauth.
  destruct (authMiddleware_sets_user _ _ _ _ _ Hauth)
    as (token & decoded & Hverify & Huser).
  eexists token, decoded, _. split; [done|]. split; [exact Huser|].
  split; [by read_property|].
  unfold Auth.requireRole. rewrite Huser.
  set (u := object _).
  assert (Auth.includes_value roles (get u "role") = true ↔
          ∃ r, get u "role" = VStr r ∧ r ∈ roles) as Hin.
  { unfold Auth.includes_value.
    destruct (get u "role") as [| |b|n|s|l|o];
      try (split; [done | by intros (r & ? & _)]).
    rewrite existsb_exists. split.
    - intros (x & Hx & Heq). apply String.eqb_eq in Heq. subst x.
      exists s. by rewrite list_elem_of_In.
    - intros (r & [= <-] & Hr). exists s.
      rewrite <- list_elem_of_In. by rewrite String.eqb_refl. }
  destruct (Auth.includes_value roles (get u "role")) eqn:Hrole; split.
  - done.
  - intros Hnot. destruct Hnot. by apply Hin.
  - intros Hyes. apply Hin in Hyes. done.
  - intros _. eexists. split; [reflexivity | done].
Qed.

(** X6.  [POST /api/auth/login] answers the 400 [MISSING_CREDENTIALS]
    error when the email or the password is falsy.  Otherwise it answers a
    200 when the email is the demo user's and the password is a string that
    [bcrypt.compare] accepts against the hash of the demo password, and the
    401 [AUTH_FAILED] error when it is not, the same error whichever part
    was wrong. *)
Theorem login_outcomes (env : option string) (req : Request) (salt : string)
    (t_access t_refresh : Z) :
  let email := get (body req) "email" in
  let password := get (body req) "password" in
  let result := Auth.login env req salt t_access t_refresh in
  let accepted :=
    email = VStr "demo@caseclerk.ai" ∧
    ∃ pw, password = VStr pw ∧
          bcrypt_compare pw (bcrypt_hash "demo123" 10 salt) = true in
  (truthy email = false ∨ truthy password = false →
   result = Thrown (apiError "Email and password are required" 400
                             "MISSING_CREDENTIALS")) ∧
  (truthy email = true → truthy password = true → accepted →
   ∃ r, result = Sent r ∧ status r = 200 ∧
        get (json r) "success" = VBool true) ∧
  (truthy email = true → truthy password = true → ¬ accepted →
   result = Thrown (apiError "Authentication failed" 401 "AUTH_FAILED")).
Proof.
  intros email password result accepted.
  subst email password result accepted. unfold Auth.login.
  split; [|split].
  - intros [-> | Hpw]; [done|]. rewrite Hpw. by rewrite orb_true_r.
  - intros -> -> (Hdemo & pw & Hpw & Hcompare). cbn [negb orb].
    unfold Auth.login_attempt, Auth.mockUsers. cbn [List.find].
    read_property. rewrite Hdemo, Hpw. cbn [strict_eq].
    rewrite String.eqb_refl. read_property. rewrite Hcompare. cbn [negb].
    eexists. split; [reflexivity|]. split; [done | by read_property].
  - intros -> -> Hnot. cbn [negb orb].
    unfold Auth.login_attempt, Auth.mockUsers. cbn [List.find].
    read_property.
    destruct (strict_eq (VStr "demo@caseclerk.ai") (get (body req) "email"))
      eqn:Hdemo; [|done].
    rewrite strict_eq_sym in Hdemo. apply strict_eq_VStr in Hdemo.
    read_property.
    destruct (get (body req) "password") as [| |b|n|pw|l|o]; try done.
    destruct (bcrypt_compare pw _) eqn:Hcompare; [|done].
    destruct Hnot. split; [done|]. by exists pw.
Qed.

Lemma login_demo_sent (env : option string) (req : Request) (salt : string)
    (t_access t_refresh : Z) :
  (∀ password rounds salt',
     bcrypt_compare password (bcrypt_hash password rounds salt') = true) →
  body req !! "email" = Some (VStr "demo@caseclerk.ai") →
  body req !! "password" = Some (VStr "demo123") →
  ∃ r data,
    Auth.login env req salt t_access t_refresh = Sent r ∧
    get (json r) "data" = VObj data ∧
    get data "refresh_token" =
      VStr (Auth.generateRefreshToken env t_refresh
              (object [("id", VStr "1");
                       ("email", VStr "demo@caseclerk.ai")])).
Proof.
  intros Hcompare Hemail Hpassword.
  unfold Auth.login, Auth.login_attempt.
  rewrite (get_Some _ _ _ Hemail), (get_Some _ _ _ Hpassword).
  cbn [truthy String.eqb Ascii.eqb Bool.eqb negb orb].
  unfold Auth.mockUsers. cbn [List.find].
  replace (strict_eq _ (VStr "demo@caseclerk.ai")) with true
    by (symmetry; apply strict_eq_VStr; by read_property).
  read_property. rewrite Hcompare. cbn [negb].
  eexists _, _. split; [reflexivity|]. cbn [json].
  split; [by read_property|]. by read_property.
Qed.

(** X7.  With a [bcrypt.compare] that accepts a password against its own
    hash, a login with the demo credentials returns as refresh token the
    token [jwt.sign] makes for id ['1'] and the demo email, under the
    configured secret and for 7 days.  When [jwt.verify] decodes that token
    under the same secret to that id and email, sending it to
    [POST /api/auth/refresh] is answered with a 200 whose access token is
    the token [jwt.sign] makes for that id, that email and the role
    ['attorney'], under the same secret and for 24 hours, and with
    [expires_in] 86400. *)
Theorem login_then_refresh (env : option string) (req : Request)
    (salt : string) (t_access t_refresh t_verify t_sign : Z)
    (decoded : gmap string value) :
  let secret :=
    match env with
    | Some s => if String.eqb s "" then "your-secret-key-change-in-production"
                else s
    | None => "your-secret-key-change-in-production"
    end in
  let token (parts : string * string * string) :=
    parts.1.1 +:+ "." +:+ parts.1.2 +:+ "." +:+ parts.2 in
  let refresh_token :=
    token (jwt_parts (object [("id", VStr "1");
                              ("email", VStr "demo@caseclerk.ai")])
                     secret "7d" t_refresh) in
  (∀ password rounds salt',
     bcrypt_compare password (bcrypt_hash password rounds salt') = true) →
  body req !! "email" = Some (VStr "demo@caseclerk.ai") →
  body req !! "password" = Some (VStr "demo123") →
  jwt_verify refresh_token secret t_verify = Decoded decoded →
  get decoded "id" = VStr "1" →
  get decoded "email" = VStr "demo@caseclerk.ai" →
  ∃ r data,
    Auth.login env req salt t_access t_refresh = Sent r ∧
    get (json r) "data" = VObj data ∧
    get data "refresh_token" = VStr refresh_token ∧
    ∀ req',
      get (body req') "refresh_token" = get data "refresh_token" →
      Auth.refresh env req' t_verify t_sign =
        Sent {| status := 200;
                json := object [
                  ("success", VBool true);
                  ("data", VObj (object [
                     ("access_token",
                      VStr (token (jwt_parts
                              (object [("id", VStr "1");
                                       ("email", VStr "demo@caseclerk.ai");
                                       ("role", VStr "attorney")])
                              secret "24h" t_sign)));
                     ("expires_in", VInt 86400) ])) ] |}.
Proof.
  intros secret token refresh_token Hcompare Hemail Hpassword Hverify
    Hid Hmail.
  subst refresh_token token. cbn beta in *.
  rewrite <- !jwt_sign_parts in *.
  set (refresh_token :=
         jwt_sign (object [("id", VStr "1");
                           ("email", VStr "demo@caseclerk.ai")])
                  secret "7d" t_refresh) in *.
  pose proof (jwt_sign_nonempty
                (object [("id", VStr "1"); ("email", VStr "demo@caseclerk.ai")])
                secret "7d" t_refresh) as Hnonempty.
  fold refresh_token in Hnonempty.
  destruct (login_demo_sent env req salt t_access t_refresh
              Hcompare Hemail Hpassword) as (r & data & Hlogin & Hdata & Htoken).
  exists r, data. split; [done|]. split; [done|]. split; [done|].
  intros req' Hbody. unfold Auth.refresh, Auth.verifyRefreshToken.
  rewrite Hbody, Htoken.
  change (Auth.generateRefreshToken env t_refresh _) with refresh_token.
  cbn [truthy].
  destruct (String.eqb_spec refresh_token ""); [done|]. cbn [negb].
  change (Auth.JWT_SECRET env) with secret.
  rewrite Hverify. read_property. by rewrite Hid, Hmail.
Qed.

(** X8.  [POST /api/auth/refresh] answers 400 without a refresh token and
    401 with one that [jwt.verify] does not decode under the configured
    secret (or that is not a string).  With one that [jwt.verify] decodes it
    answers 200 with an access token that is what [jwt.sign] returns for the
    id and the email of the decoded token and for the role ['attorney'],
    whatever the refresh token was issued for, under the same secret and for
    24 hours. *)
Theorem refresh_outcomes (env : option string) (req : Request)
    (t_verify t_sign : Z) :
  let secret :=
    match env with
    | Some s => if String.eqb s "" then "your-secret-key-change-in-production"
                else s
    | None => "your-secret-key-change-in-production"
    end in
  let token (parts : string * string * string) :=
    parts.1.1 +:+ "." +:+ parts.1.2 +:+ "." +:+ parts.2 in
  let sent := get (body req) "refresh_token" in
  let result := Auth.refresh env req t_verify t_sign in
  (truthy sent = false →
   result = Thrown (apiError "Refresh token required" 400
                             "MISSING_REFRESH_TOKEN")) ∧
  (truthy sent = true →
   (∀ t decoded, sent = VStr t →
      jwt_verify t secret t_verify ≠ Decoded decoded) →
   result = Thrown (apiError "Invalid refresh token" 401
                             "INVALID_REFRESH_TOKEN")) ∧
  (∀ t decoded,
     sent = VStr t → t ≠ "" →
     jwt_verify t secret t_verify = Decoded decoded →
     result =
       Sent {| status := 200;
               json := object [
                 ("success", VBool true);
                 ("data", VObj (object [
                    ("access_token",
                     VStr (token (jwt_parts
                             (object [("id", get decoded "id");
                                      ("email", get decoded "email");
                                      ("role", VStr "attorney")])
                             secret "24h" t_sign)));
                    ("expires_in", VInt 86400) ])) ] |}).
Proof.
  intros secret token sent result. subst token sent result. cbn beta.
  unfold Auth.refresh, Auth.verifyRefreshToken.
  change (Auth.JWT_SECRET env) with secret.
  split; [|split].
  - by intros ->.
  - intros -> Hnot. cbn [negb].
    destruct (get (body req) "refresh_token") as [| |b|n|t|l|o]; try done.
    destruct (jwt_verify t _ _) as [decoded| |] eqn:Hverify; try done.
    by destruct (Hnot t decoded).
  - intros t decoded -> Ht Hverify. rewrite <- jwt_sign_parts. cbn [truthy].
    destruct (String.eqb_spec t ""); [done|]. cbn [negb].
    rewrite Hverify. by read_property.
Qed.

End AuthFacts.

(** The theorems at work in the example runtime. *)
Lemma authMiddleware_passes_verified_witness :
  let req := {| ip := None; path := "/cases"; url := "/api/cases";
                originalUrl := "/api/cases";
                authorization := Some "Bearer jwt.1.24h"; params_id := "";
                query := ∅; body := ∅; user := None; file := None |} in
  ∃ token decoded,
    authorization req = Some ("Bearer " +:+ token) ∧
    @jwt_verify demo_runtime token (Auth.JWT_SECRET None) 1700000000000 =
      Decoded decoded ∧
    @Auth.exp_before decoded 1700000000000 = false.
Proof.
  intros req.
  destruct (@authMiddleware_passes_verified demo_runtime None
              1700000000000 1700000000000 req
              {| ip := None; path := "/cases"; url := "/api/cases";
                 originalUrl := "/api/cases";
                 authorization := Some "Bearer jwt.1.24h"; params_id := "";
                 query := ∅; body := ∅;
                 user := Some (object [("id", VStr "1");
                                       ("email", VStr "demo@caseclerk.ai");
                                       ("role", VStr "attorney")]);
                 file := None |})
    as (token & decoded & Hheader & Hverify & Hexp & _).
  - vm_compute. reflexivity.
  - exists token, decoded. done.
Defined.

Lemma requireRole_after_authMiddleware_witness :
  let req := {| ip := None; path := "/cases"; url := "/api/cases";
                originalUrl := "/api/cases";
                authorization := Some "Bearer jwt.1.24h"; params_id := "";
                query := ∅; body := ∅; user := None; file := None |} in
  ∃ req',
    @Auth.authMiddleware demo_runtime None 1700000000000 1700000000000 req =
      Next req' ∧
    Auth.requireRole ["attorney"; "admin"] req' = Next req'.
Proof.
  intros req.
  set (req' := {| ip := None; path := "/cases"; url := "/api/cases";
                  originalUrl := "/api/cases";
                  authorization := Some "Bearer jwt.1.24h"; params_id := "";
                  query := ∅; body := ∅;
                  user := Some (object [("id", VStr "1");
                                        ("email", VStr "demo@caseclerk.ai");
                                        ("role", VStr "attorney")]);
                  file := None |}).
  assert (@Auth.authMiddleware demo_runtime None 1700000000000 1700000000000
            req = Next req') as Hauth by (vm_compute; reflexivity).
  exists req'. split; [exact Hauth|].
  destruct (proj2 (@requireRole_after_authMiddleware demo_runtime None
                     1700000000000 1700000000000 req req'
                     ["attorney"; "admin"]) Hauth)
    as (token & decoded & u & _ & Hu & _ & Hyes & _).
  apply Hyes. exists "attorney". injection Hu as <-.
  split; [vm_compute; reflexivity | apply list_elem_of_here].
Defined.

Lemma login_then_refresh_witness :
  let login := request "" ∅ (object [("email", VStr "demo@caseclerk.ai");
                                     ("password", VStr "demo123")]) in
  let again := request "" ∅ (object [("refresh_token", VStr "jwt.1.7d")]) in
  sent_data (@Auth.refresh demo_runtime_refresh None again
               1700003600000 1700003600000) =
    VObj (object [("access_token", VStr "jwt.1.24h");
                  ("expires_in", VInt 86400)]).
Proof.
  intros login again.
  destruct (@login_then_refresh demo_runtime_refresh None login "salt"
             1700000000000 1700000000000 1700003600000 1700003600000
             (object [("id", VStr "1"); ("email", VStr "demo@caseclerk.ai");
                      ("exp", VInt (1700003600000 / 1000 + 604800))]))
    as (r & data & _ & _ & Htoken & Hrefresh).
  - intros password rounds salt'. apply String.eqb_refl.
  - reflexivity.
  - reflexivity.
  - reflexivity.
  - reflexivity.
  - reflexivity.
  - rewrite (Hrefresh again); [vm_compute; reflexivity|].
    rewrite Htoken. vm_compute. reflexivity.
Defined.

Lemma refresh_outcomes_witness :
  @Auth.refresh demo_runtime None (request "" ∅ ∅) 0 0 =
    Thrown (apiError "Refresh token required" 400 "MISSING_REFRESH_TOKEN") ∧
  @Auth.refresh demo_runtime None
      (request "" ∅ (object [("refresh_token", VStr "forged")])) 0 0 =
    Thrown (apiError "Invalid refresh token" 401 "INVALID_REFRESH_TOKEN") ∧
  sent_data (@Auth.refresh demo_runtime_refresh None
               (request "" ∅ (object [("refresh_token", VStr "jwt.1.7d")]))
               1700003600000 1700003600000) =
    VObj (object [("access_token", VStr "jwt.1.24h");
                  ("expires_in", VInt 86400)]).
Proof.
  split; [|split].
  - apply (proj1 (@refresh_outcomes demo_runtime None (request "" ∅ ∅) 0 0)).
    reflexivity.
  - apply (proj1 (proj2 (@refresh_outcomes demo_runtime None
             (request "" ∅ (object [("refresh_token", VStr "forged")])) 0 0))).
    + reflexivity.
    + intros t decoded [= <-]. discriminate.
  - rewrite (proj2 (proj2 (@refresh_outcomes demo_runtime_refresh None
               (request "" ∅ (object [("refresh_token", VStr "jwt.1.7d")]))
               1700003600000 1700003600000))
             "jwt.1.7d"
             (object [("id", VStr "1"); ("email", VStr "demo@caseclerk.ai");
                      ("exp", VInt (1700003600000 / 1000 + 604800))]));
      [vm_compute; reflexivity | reflexivity | discriminate | reflexivity].
Defined.

(** The login of the example runtime: the demo password is accepted and
    any other is answered with the 401 error. *)
Lemma login_outcomes_witness :
  let attempt pw :=
    @Auth.login demo_runtime None
      (request "" ∅ (object [("email", VStr "demo@caseclerk.ai");
                             ("password", VStr pw)]))
      "N9qo8uLOickgx2ZMRZoMye" 1700000000000 1700000000000 in
  sent_status (attempt "demo123") = Some 200 ∧
  attempt "demo1234" =
    Thrown (apiError "Authentication failed" 401 "AUTH_FAILED").
Proof.
  intros attempt. split.
  - destruct (proj1 (proj2 (@login_outcomes demo_runtime None
               (request "" ∅ (object [("email", VStr "demo@caseclerk.ai");
                                      ("password", VStr "demo123")]))
               "N9qo8uLOickgx2ZMRZoMye" 1700000000000 1700000000000)))
      as (r & Hsent & Hstatus & _).
    + reflexivity.
    + reflexivity.
    + split; [reflexivity|]. exists "demo123". split; reflexivity.
    + subst attempt. cbn beta. rewrite Hsent. cbn [sent_status].
      by rewrite Hstatus.
  - apply (proj2 (proj2 (@login_outcomes demo_runtime None
             (request "" ∅ (object [("email", VStr "demo@caseclerk.ai");
                                    ("password", VStr "demo1234")]))
             "N9qo8uLOickgx2ZMRZoMye" 1700000000000 1700000000000))).
    + reflexivity.
    + reflexivity.
    + intros (_ & pw & Hpw & Hcompare).
      assert (pw = "demo1234") as ->.
      { vm_compute in Hpw. by injection Hpw. }
      vm_compute in Hcompare. discriminate.
Defined.

(** ** The error handler *)

(** Looking a property up in an object literal. *)
Ltac read_property_lookup :=
  unfold object, extend; cbn [fold_left fst snd];
  repeat first [ rewrite lookup_insert_eq | rewrite lookup_insert_ne by done ].

Lemma errorHandler_error_object NODE_ENV now error req :
  ∃ c m,
    get (json (errorHandler NODE_ENV now error req)) "error" =
      VObj (spread (object [("code", c); ("message", VStr m)])
              (if bool_decide (NODE_ENV = Some "development")
               then object [("stack", VStr (stack error));
                            ("details", details error)]
               else ∅)) ∧
    (NODE_ENV = Some "production" →
     status (errorHandler NODE_ENV now error req) = 500 →
     m = "Internal server error").
Proof.
  unfold errorHandler.
  destruct (if String.eqb (name error) "ValidationError" then _ else _)
    as [[st msg] c].
  eexists _, _. cbn [json status]. split; [by read_property|].
  intros -> ->. done.
Qed.

(** X9.  Outside development the error handler discloses nothing but a
    code and a message: the [error] object of its response has exactly the
    properties [code] and [message], and in production the message of a 500
    is always ['Internal server error'].  The stack and the details appear
    only when [NODE_ENV] is ['development']. *)
Theorem errorHandler_discloses (NODE_ENV : option string) (now : Z)
    (error : ApiError) (req : Request) :
  ∃ err,
    get (json (errorHandler NODE_ENV now error req)) "error" = VObj err ∧
    (NODE_ENV ≠ Some "development" →
     dom err = {[ "code"; "message" ]}) ∧
    (NODE_ENV = Some "development" →
     err !! "stack" = Some (VStr (stack error)) ∧
     err !! "details" = Some (details error)) ∧
    (NODE_ENV = Some "production" →
     status (errorHandler NODE_ENV now error req) = 500 →
     err !! "message" = Some (VStr "Internal server error")).
Proof.
  destruct (errorHandler_error_object NODE_ENV now error req)
    as (c & m & Herr & Hprod).
  eexists. split; [exact Herr|]. split; [|split].
  - intros Hdev. rewrite bool_decide_eq_false_2 by done.
    unfold spread, object, extend. cbn [fold_left fst snd].
    rewrite (left_id_L ∅ (∪)), !dom_insert_L, dom_empty_L. set_solver.
  - intros ->. rewrite bool_decide_eq_true_2 by done.
    unfold spread. split; apply lookup_union_Some_l; by read_property.
  - intros Hp Hs. rewrite (Hprod Hp Hs). subst NODE_ENV.
    rewrite bool_decide_eq_false_2 by done.
    unfold spread. rewrite (left_id_L ∅ (∪)).
    unfold object, extend. cbn [fold_left fst snd].
    by rewrite lookup_insert_eq.
Qed.

(** The theorem at work: a [TypeError] rendered in production. *)
Lemma errorHandler_discloses_witness :
  let r := errorHandler (Some "production") 1700000000000
             (engineError "TypeError" "toLowerCase is not a function")
             (request "" ∅ ∅) in
  status r = 500 ∧
  get (json r) "error" =
    VObj (object [("code", VStr "INTERNAL_ERROR");
                  ("message", VStr "Internal server error")]).
Proof.
  intros r. split; [reflexivity|].
  destruct (errorHandler_discloses (Some "production") 1700000000000
              (engineError "TypeError" "toLowerCase is not a function")
              (request "" ∅ ∅)) as (err & Herr & Hdom & _ & Hmsg).
  specialize (Hdom ltac:(discriminate)).
  specialize (Hmsg eq_refl eq_refl).
  vm_compute. reflexivity.
Defined.

(** X10.  An error made by [createError] with a non-zero status, a
    non-empty code and a non-empty message comes out of the error handler
    with that status and that code, and with that message unless it is a
    500 in production.  In particular the error of [notFound] is rendered
    as a 404 with code [NOT_FOUND]. *)
Theorem createError_rendered (NODE_ENV : option string) (now : Z)
    (req : Request) (msg : string) (st : Z) (c : string) (d : value)
    (trace : string) :
  st ≠ 0 → c ≠ "" → msg ≠ "" →
  let r := errorHandler NODE_ENV now
             (createError msg (Some st) (VStr c) d trace) req in
  status r = st ∧
  (∃ err, get (json r) "error" = VObj err ∧
          err !! "code" = Some (VStr c) ∧
          (¬ (NODE_ENV = Some "production" ∧ st = 500) →
           err !! "message" = Some (VStr msg))) ∧
  status (errorHandler NODE_ENV now (notFound req) req) = 404 ∧
  (∃ err, get (json (errorHandler NODE_ENV now (notFound req) req)) "error" =
            VObj err ∧
          err !! "code" = Some (VStr "NOT_FOUND")).
Proof.
  intros Hst Hc Hmsg r. subst r. unfold errorHandler, createError.
  cbn [name message statusCode code details stack default]. unfold id.
  assert ((st =? 0) = false) as -> by by apply Z.eqb_neq.
  assert (truthy (VStr c) = true) as Hce
    by (simpl; by destruct (String.eqb_spec c "")).
  assert (String.eqb msg "" = false) as -> by by apply String.eqb_neq.
  rewrite Hce. unfold or_else. rewrite Hce.
  cbn [negb String.eqb Ascii.eqb Bool.eqb andb status json].
  split; [done|]. split; [|split; [done|]].
  - eexists. split; [by read_property|]. unfold spread. split.
    + destruct (bool_decide (NODE_ENV = Some "development"));
        [apply lookup_union_Some_raw; right; split; [done|]|
         rewrite (left_id_L ∅ (∪))]; by read_property_lookup.
    + intros Hnot.
      assert ((bool_decide (NODE_ENV = Some "production") && (st =? 500))
              = false) as ->.
      { apply andb_false_iff.
        destruct (decide (NODE_ENV = Some "production")) as [Hp|Hp];
          [right; apply Z.eqb_neq; intros ->; by apply Hnot
          |left; by apply bool_decide_eq_false_2]. }
      destruct (bool_decide (NODE_ENV = Some "development"));
        [apply lookup_union_Some_raw; right; split; [done|]|
         rewrite (left_id_L ∅ (∪))]; by read_property_lookup.
  - eexists. split; [by read_property|]. unfold spread.
    destruct (bool_decide (NODE_ENV = Some "development"));
      [apply lookup_union_Some_raw; right; split; [done|]|
       rewrite (left_id_L ∅ (∪))]; by read_property_lookup.
Qed.

(** The theorem at work: the duplicate case number error in development. *)
Lemma createError_rendered_witness :
  let r := errorHandler (Some "development") 1700000000000
             (apiError "Case number already exists" 409 "DUPLICATE_CASE_NUMBER")
             (request "" ∅ ∅) in
  status r = 409.
Proof.
  intros r.
  apply (createError_rendered (Some "development") 1700000000000
           (request "" ∅ ∅) "Case number already exists" 409
           "DUPLICATE_CASE_NUMBER" VUndefined "");
    discriminate.
Defined.

(** ** Cases: what create, update and delete store *)

Lemma lookup_extend_ne (o : gmap string value) l k :
  k ∉ l.*1 → extend o l !! k = o !! k.
Proof.
  unfold extend. revert o. induction l as [|[k' v] l IH]; intros o Hk; [done|].
  simpl in *. apply not_elem_of_cons in Hk as [Hne Hk].
  rewrite IH by done. by rewrite lookup_insert_ne.
Qed.

(** X11.  A case that [POST /api/cases] accepts is stored at the end of the
    array with the server's values for [id], [created_date],
    [updated_date] and [user_id], whatever the body says about them; every
    other property is stored exactly as the body has it. *)
Theorem post_root_server_fields (store store' : list (gmap string value))
    (req : Request) (now t_created t_updated : Z) (r : Response) :
  Cases.post_root store req now t_created t_updated = (Sent r, store') →
  ∃ newCase,
    store' = store ++ [newCase] ∧
    get (json r) "data" = VObj newCase ∧
    newCase !! "id" = Some (VStr (Z_toString now)) ∧
    newCase !! "created_date" = Some (VStr (toISOString t_created)) ∧
    newCase !! "updated_date" = Some (VStr (toISOString t_updated)) ∧
    newCase !! "user_id" = Some (user_id_or_1 req) ∧
    ∀ k, k ∉ ["id"; "created_date"; "updated_date"; "user_id"] →
         newCase !! k = body req !! k.
Proof.
  unfold Cases.post_root.
  destruct (_ || _); [done|]. destruct (List.find _ store); [done|].
  intros [= <- <-]. eexists. split; [reflexivity|]. cbn [json].
  split; [by read_property|].
  repeat (split; [by read_property_lookup|]).
  intros k Hk.
  by apply (lookup_extend_ne (body req) [(_, _); (_, _); (_, _); (_, _)]).
Qed.

(** The theorem at work: a body that tries to choose its own id and
    owner. *)
Lemma post_root_server_fields_witness :
  let req := request "" ∅ (object [("case_number", VStr "2024-FA-000042");
                                   ("title", VStr "In re Estate of Doe");
                                   ("id", VStr "1");
                                   ("user_id", VStr "42")]) in
  ∃ newCase,
    snd (Cases.post_root Cases.mockCases req 1700000000000 0 0) =
      Cases.mockCases ++ [newCase] ∧
    newCase !! "id" = Some (VStr "1700000000000") ∧
    newCase !! "user_id" = Some (VStr "1").
Proof.
  intros req.
  assert (sent_status (fst (Cases.post_root Cases.mockCases req
                              1700000000000 0 0)) = Some 201) as Hsent
    by (vm_compute; reflexivity).
  destruct (Cases.post_root Cases.mockCases req 1700000000000 0 0)
    as [[r|e] store'] eqn:Hpost; [|discriminate Hsent].
  destruct (post_root_server_fields Cases.mockCases store' req
              1700000000000 0 0 r Hpost)
    as (newCase & Hstore & _ & Hid & _ & _ & Huser & _).
  exists newCase. split; [exact Hstore|]. split; [exact Hid | exact Huser].
Defined.




Lemma find_of_findIndex {A} (p : A → bool) (l : list A) j x :
  findIndex p l = Some j → l !! j = Some x → List.find p l = Some x.
Proof.
  revert j. induction l as [|y l IH]; intros j Hj Hx; [done|].
  simpl in *. destruct (p y).
  - injection Hj as <-. simpl in Hx. congruence.
  - destruct (findIndex p l) as [j'|]; [|done]. injection Hj as <-.
    by apply (IH j').
Qed.

(** X12.  A [PUT /api/cases/:id] that succeeds replaces one stored case,
    the first with that id (no case before it has the id), and leaves every
    other position of the array as it was.  The new record has every property of the body with the
    body's value (except [updated_date], which is the server's), and the
    old record's value for every property the body does not have.  When the
    body has no [id], a [GET /api/cases/:id] right after returns that new
    record. *)
Theorem put_then_get_by_id (store store' : list (gmap string value))
    (req : Request) (t_updated : Z) (r : Response) :
  Cases.put_by_id store req t_updated = (Sent r, store') →
  ∃ i old updated,
    store !! i = Some old ∧
    strict_eq (get old "id") (VStr (params_id req)) = true ∧
    (∀ j c, (j < i)%nat → store !! j = Some c →
            strict_eq (get c "id") (VStr (params_id req)) = false) ∧
    store' = <[i := updated]> store ∧
    get (json r) "data" = VObj updated ∧
    updated !! "updated_date" = Some (VStr (toISOString t_updated)) ∧
    (∀ k v, k ≠ "updated_date" → body req !! k = Some v →
            updated !! k = Some v) ∧
    (∀ k, k ≠ "updated_date" → body req !! k = None →
          updated !! k = old !! k) ∧
    (body req !! "id" = None →
     Cases.get_by_id store' req =
       Sent {| status := 200;
               json := object [("success", VBool true);
                               ("data", VObj updated)] |}).
Proof.
  unfold Cases.put_by_id.
  destruct (findIndex _ store) as [i|] eqn:Hi; [|done].
  destruct (findIndex_Some _ _ _ Hi) as (old & Hold & Hid & Hbefore).
  rewrite Hold. cbn [default]. unfold id. intros [= <- <-].
  eexists i, old, _. split; [done|]. split; [done|]. split; [done|].
  split; [reflexivity|]. cbn [json]. split; [by read_property|].
  split; [by read_property_lookup|].
  assert (∀ k, k ≠ "updated_date" →
            <["updated_date" := VStr (toISOString t_updated)]>
              (spread old (body req)) !! k =
            spread old (body req) !! k) as Hkeep.
  { intros k Hk. by rewrite lookup_insert_ne. }
  split; [|split].
  - intros k v Hk Hv. rewrite Hkeep by done. unfold spread.
    by apply lookup_union_Some_l.
  - intros k Hk Hnone. rewrite Hkeep by done. unfold spread.
    by apply lookup_union_r.
  - intros Hnoid. unfold Cases.get_by_id.
    assert (findIndex (λ c, strict_eq (get c "id") (VStr (params_id req)))
              (<[i := <["updated_date" := VStr (toISOString t_updated)]>
                        (spread old (body req))]> store)
            = Some i) as Hi'.
    { apply findIndex_insert; [done|]. read_property.
      by rewrite (get_spread_None _ _ _ Hnoid). }
    rewrite (find_of_findIndex _ _ i _ Hi'
               (list_lookup_insert_eq _ _ _ (lookup_lt_Some _ _ _ Hold))).
    done.
Qed.

(** The theorem at work: a new judge for the second mock case. *)
Lemma put_then_get_by_id_witness :
  let req := request "2" ∅ (object [("judge", VStr "Hon. A. Williams")]) in
  sent_data (Cases.get_by_id
               (snd (Cases.put_by_id Cases.mockCases req 1700000000000)) req) =
  sent_data (fst (Cases.put_by_id Cases.mockCases req 1700000000000)).
Proof.
  intros req.
  assert (sent_status (fst (Cases.put_by_id Cases.mockCases req
                              1700000000000)) = Some 200) as Hsent
    by (vm_compute; reflexivity).
  destruct (Cases.put_by_id Cases.mockCases req 1700000000000)
    as [[r|e] store'] eqn:Hput; [|discriminate Hsent].
  destruct (put_then_get_by_id Cases.mockCases store' req 1700000000000 r Hput)
    as (i & old & new & _ & _ & _ & _ & Hdata & _ & _ & _ & Hget).
  cbn [fst snd]. rewrite Hget by (vm_compute; reflexivity).
  cbn [sent_data json]. rewrite Hdata. by read_property.
Defined.




(** X13.  A [DELETE /api/cases/:id] that succeeds removes exactly one case,
    the first with that id (no case before it has the id), and keeps the
    others in their order.  When no
    other stored case has that id, a [GET /api/cases/:id] right after is
    answered with the 404 error [CASE_NOT_FOUND]. *)
Theorem delete_then_get_by_id (store store' : list (gmap string value))
    (req : Request) (r : Response) :
  Cases.delete_by_id store req = (Sent r, store') →
  ∃ i old,
    store !! i = Some old ∧
    strict_eq (get old "id") (VStr (params_id req)) = true ∧
    (∀ j c, (j < i)%nat → store !! j = Some c →
            strict_eq (get c "id") (VStr (params_id req)) = false) ∧
    store' = delete i store ∧
    length store = S (length store') ∧
    ((∀ j c, j ≠ i → store !! j = Some c →
             strict_eq (get c "id") (VStr (params_id req)) = false) →
     Cases.get_by_id store' req =
       Thrown (apiError "Case not found" 404 "CASE_NOT_FOUND")).
Proof.
  unfold Cases.delete_by_id.
  destruct (findIndex _ store) as [i|] eqn:Hi; [|done].
  destruct (findIndex_Some _ _ _ Hi) as (old & Hold & Hid & Hbefore).
  intros [= <- <-]. exists i, old.
  split; [done|]. split; [done|]. split; [exact Hbefore|].
  repeat split; try done.
  - rewrite length_delete by eauto.
    apply lookup_lt_Some in Hold. lia.
  - intros Hothers. unfold Cases.get_by_id.
    replace (List.find _ (delete i store)) with (@None (gmap string value));
      [done|].
    symmetry. apply find_none_iff. intros c Hc.
    apply list_elem_of_lookup in Hc as [j Hj].
    rewrite list_lookup_delete in Hj.
    case_decide; eapply Hothers; try exact Hj; lia.
Qed.

Lemma mockCases_ids :
  (λ c, get c "id") <$> Cases.mockCases = [VStr "1"; VStr "2"].
Proof. vm_compute. reflexivity. Qed.

(** The theorem at work on the initial store. *)
Lemma delete_then_get_by_id_witness :
  let req := request "1" ∅ ∅ in
  Cases.get_by_id (snd (Cases.delete_by_id Cases.mockCases req)) req =
    Thrown (apiError "Case not found" 404 "CASE_NOT_FOUND").
Proof.
  intros req.
  assert (sent_status (fst (Cases.delete_by_id Cases.mockCases req)) =
          Some 200) as Hsent by (vm_compute; reflexivity).
  destruct (Cases.delete_by_id Cases.mockCases req)
    as [[r|e] store'] eqn:Hdelete; [|discriminate Hsent].
  destruct (delete_then_get_by_id Cases.mockCases store' req r Hdelete)
    as (i & old & Hold & Hid & _ & _ & _ & Hget).
  cbn [snd]. apply Hget.
  assert (∀ k c, Cases.mockCases !! k = Some c →
            [VStr "1"; VStr "2"] !! k = Some (get c "id")) as Hids.
  { intros k c Hk. rewrite <- mockCases_ids, list_lookup_fmap, Hk. done. }
  apply Hids in Hold. intros j c Hj Hc. apply Hids in Hc.
  destruct i as [|[|i]]; cbn in Hold; [|injection Hold as Hold..|done].
  - destruct j as [|[|j]]; cbn in Hc; [done| |done].
    injection Hc as <-. reflexivity.
  - rewrite <- Hold in Hid. discriminate Hid.
Defined.




(** ** Cases: the list route *)




(** Insertion keeps a list sorted when the comparator is the difference of
    a key. *)
Lemma insert_sorted_by_key {A} (k : A → Z) (cmp : A → A → option Z) x l :
  (∀ y, y ∈ l → cmp x y = Some (k x - k y)) →
  StronglySorted (λ a b, k a ≤ k b) l →
  StronglySorted (λ a b, k a ≤ k b) (insert_sorted cmp x l).
Proof.
  induction l as [|y l IH]; intros Hcmp Hsorted; simpl.
  - repeat constructor.
  - rewrite (Hcmp y) by apply list_elem_of_here. cbn [default]. unfold id.
    apply StronglySorted_inv in Hsorted as [Hl Hy].
    destruct (0 <? k x - k y) eqn:Hlt.
    + apply Z.ltb_lt in Hlt. constructor.
      * apply IH; [|done]. intros z Hz. apply Hcmp.
        by apply list_elem_of_further.
      * rewrite insert_sorted_Permutation. constructor; [lia | done].
    + apply Z.ltb_ge in Hlt. constructor; [by constructor|].
      constructor; [lia|]. eapply Forall_impl; [exact Hy|].
      intros z Hz. simpl in *. lia.
Qed.

Lemma Array_sort_by_key {A} (k : A → Z) (cmp : A → A → option Z) l :
  (∀ x y, x ∈ l → y ∈ l → cmp x y = Some (k x - k y)) →
  StronglySorted (λ a b, k a ≤ k b) (Array_sort cmp l).
Proof.
  induction l as [|x l IH]; intros Hcmp; simpl; [constructor|].
  apply insert_sorted_by_key.
  - intros y Hy. rewrite Array_sort_Permutation in Hy.
    apply Hcmp; [apply list_elem_of_here | by apply list_elem_of_further].
  - apply IH. intros y z Hy Hz. apply Hcmp; by apply list_elem_of_further.
Qed.

Lemma StronglySorted_take {A} (R : A → A → Prop) (l : list A) n :
  StronglySorted R l → StronglySorted R (take n l).
Proof.
  revert n. induction l as [|x l IH]; intros [|n] Hsorted; simpl;
    try constructor.
  - apply IH. by apply StronglySorted_inv in Hsorted as [? _].
  - apply StronglySorted_inv in Hsorted as [_ Hx].
    eapply Forall_forall. intros y Hy. rewrite Forall_forall in Hx.
    apply Hx. by eapply (subseteq_take n l).
Qed.

Lemma elem_of_Array_sort {A} (cmp : A → A → option Z) (l : list A) x :
  x ∈ Array_sort cmp l → x ∈ l.
Proof. by rewrite Array_sort_Permutation. Qed.

Lemma StronglySorted_impl_sub {A} (R R' : A → A → Prop) (l : list A) :
  StronglySorted R l → (∀ a b, R a b → R' a b) → StronglySorted R' l.
Proof.
  intros Hl Himpl. induction Hl as [|x l Hl IH Hx]; constructor; [done|].
  eapply Forall_impl; [exact Hx|]. intros y. apply Himpl.
Qed.

(** A sorted list is sorted by the order restricted to its members. *)
Lemma sorted_within {A} (k : A → Z) (l s : list A) :
  (∀ c, c ∈ l → c ∈ s) →
  StronglySorted (λ a b, k a ≤ k b) l →
  StronglySorted (λ a b, a ∈ s ∧ b ∈ s ∧ k a ≤ k b) l.
Proof.
  intros Hsub Hl. induction Hl as [|x l Hl IH Hx]; constructor.
  - apply IH. intros c Hc. apply Hsub. by apply list_elem_of_further.
  - rewrite Forall_forall in Hx. apply Forall_forall. intros y Hy.
    repeat split.
    + apply Hsub. apply list_elem_of_here.
    + apply Hsub. by apply list_elem_of_further.
    + by apply Hx.
Qed.

Section ListFacts.
Context `{Runtime}.

(** The stages of [GET /api/cases] when it answers: the cases left by the
    filters and the search, then sorted, then cut to the limit. *)
Lemma get_root_pipeline (store : list (gmap string value)) (req : Request)
    (r : Response) :
  Cases.get_root store req = Sent r →
  ∃ searched,
    (∀ c, c ∈ searched → c ∈ store) ∧
    let sort := default "-updated_date" (query req !! "sort") in
    let sorted :=
      if String.eqb sort "-updated_date" then
        Array_sort (fun a b => Cases.updated_diff b a) searched
      else if String.eqb sort "updated_date" then
        Array_sort (fun a b => Cases.updated_diff a b) searched
      else searched in
    let cases :=
      match query req !! "limit" with
      | Some l => if String.eqb l "" then sorted
                  else Array_slice0 sorted (parseInt l)
      | None => sorted
      end in
    r = {| status := 200;
           json := object [("success", VBool true);
                           ("data", VArr (VObj <$> cases));
                           ("total", VInt (Z.of_nat (length cases)))] |}.
Proof.
  unfold Cases.get_root.
  set (filtered := Cases.filter_field "priority" _ _).
  assert (∀ c, c ∈ filtered → c ∈ store) as Hfiltered.
  { intros c Hc. by do 3 apply elem_of_filter_field in Hc. }
  destruct (match query req !! "search" with Some _ => _ | None => _ end)
    as [e|searched] eqn:Hsearch; [done|].
  intros [= <-]. exists searched. split; [|reflexivity].
  intros c Hc. apply Hfiltered.
  destruct (query req !! "search") as [s|]; [|by injection Hsearch as <-].
  destruct (String.eqb s ""); [by injection Hsearch as <-|].
  by eapply elem_of_filter_throwing.
Qed.

(** X15.  When every stored case has a valid [updated_date], the cases that
    [GET /api/cases] returns come latest update first under the default
    sort (no [sort] parameter, or [sort=-updated_date]) and earliest update
    first under [sort=updated_date], whatever the filters, the search and
    the limit. *)
Theorem get_root_sorted (store : list (gmap string value)) (req : Request)
    (r : Response) :
  Forall (λ c, is_Some (Date_getTime (get c "updated_date"))) store →
  Cases.get_root store req = Sent r →
  ∃ cases,
    get (json r) "data" = VArr (VObj <$> cases) ∧
    (query req !! "sort" = None ∨ query req !! "sort" = Some "-updated_date" →
     StronglySorted (λ a b, Date_ge (get a "updated_date")
                                    (get b "updated_date") = true) cases) ∧
    (query req !! "sort" = Some "updated_date" →
     StronglySorted (λ a b, Date_ge (get b "updated_date")
                                    (get a "updated_date") = true) cases).
Proof.
  intros Hvalid Hget.
  destruct (get_root_pipeline store req r Hget) as (searched & Hsub & ->).
  eexists. cbn [json]. split; [by read_property|].
  set (time := λ c : gmap string value,
                 default 0 (Date_getTime (get c "updated_date"))).
  assert (∀ c, c ∈ searched →
            Date_getTime (get c "updated_date") = Some (time c)) as Htime.
  { intros c Hc. rewrite Forall_forall in Hvalid.
    destruct (Hvalid c (Hsub c Hc)) as [t Ht]. unfold time. by rewrite Ht. }
  assert (∀ l : list (gmap string value),
            match query req !! "limit" with
            | Some lim => if String.eqb lim "" then l
                          else Array_slice0 l (parseInt lim)
            | None => l
            end = l ∨
            ∃ n, match query req !! "limit" with
                 | Some lim => if String.eqb lim "" then l
                               else Array_slice0 l (parseInt lim)
                 | None => l
                 end = take n l) as Hlimit.
  { intros l. destruct (query req !! "limit") as [lim|]; [|by left].
    destruct (String.eqb lim ""); [by left|]. right. by eexists. }
  assert (∀ (R : relation (gmap string value)) l,
            StronglySorted R l →
            StronglySorted R
              match query req !! "limit" with
              | Some lim => if String.eqb lim "" then l
                            else Array_slice0 l (parseInt lim)
              | None => l
              end) as Hcut.
  { intros R l Hl. destruct (Hlimit l) as [->|[n ->]]; [done|].
    by apply StronglySorted_take. }
  split.
  - intros Hsort.
    assert (default "-updated_date" (query req !! "sort") = "-updated_date")
      as -> by (by destruct Hsort as [-> | ->]).
    cbn [String.eqb Ascii.eqb Bool.eqb]. apply Hcut.
    eapply (StronglySorted_impl_sub
              (λ a b, a ∈ searched ∧ b ∈ searched ∧ - time a ≤ - time b)).
    2:{ intros a b (Ha & Hb & Hab). unfold Date_ge.
        rewrite (Htime a Ha), (Htime b Hb). apply Z.leb_le. lia. }
    apply sorted_within; cycle 1.
    + apply (Array_sort_by_key (λ c, - time c)). intros x y Hx Hy.
      unfold Cases.updated_diff. rewrite (Htime x Hx), (Htime y Hy).
      f_equal. lia.
    + intros c. apply elem_of_Array_sort.
  - intros Hsort. rewrite Hsort. cbn [default String.eqb Ascii.eqb Bool.eqb].
    apply Hcut.
    eapply (StronglySorted_impl_sub
              (λ a b, a ∈ searched ∧ b ∈ searched ∧ time a ≤ time b)).
    2:{ intros a b (Ha & Hb & Hab). unfold Date_ge.
        rewrite (Htime a Ha), (Htime b Hb). apply Z.leb_le. lia. }
    apply sorted_within; cycle 1.
    + apply (Array_sort_by_key time). intros x y Hx Hy.
      unfold Cases.updated_diff. by rewrite (Htime x Hx), (Htime y Hy).
    + intros c. apply elem_of_Array_sort.
Qed.

(** X16.  With a [limit] parameter that [parseInt] reads as a number
    [n >= 0], [GET /api/cases] returns at most [n] cases.  A [limit] that
    is not empty and that [parseInt] cannot read (such as [limit=ten])
    empties the answer: [data] is [[]] and [total] is 0. *)
Theorem get_root_limit (store : list (gmap string value)) (req : Request)
    (r : Response) (limit : string) :
  query req !! "limit" = Some limit →
  limit ≠ "" →
  Cases.get_root store req = Sent r →
  ∃ cases,
    r = {| status := 200;
           json := object [("success", VBool true);
                           ("data", VArr (VObj <$> cases));
                           ("total", VInt (Z.of_nat (length cases)))] |} ∧
    (∀ n, parseInt limit = Some n → 0 ≤ n → Z.of_nat (length cases) ≤ n) ∧
    (parseInt limit = None → cases = []).
Proof.
  intros Hlimit Hne Hget.
  destruct (get_root_pipeline store req r Hget) as (searched & _ & ->).
  rewrite Hlimit. destruct (String.eqb_spec limit "") as [|_]; [done|].
  eexists. split; [reflexivity|]. unfold Array_slice0. split.
  - intros n -> Hn. cbn [default]. unfold id.
    assert ((n <? 0) = false) as -> by (apply Z.ltb_ge; lia).
    rewrite length_take. lia.
  - intros ->. cbn [default]. unfold id.
    change (0 <? 0) with false. cbv iota.
    rewrite Z.min_l by lia. done.
Qed.

Lemma search_matches_searchable term c :
  searchable c →
  ∃ b, Cases.search_matches term c = inr b ∧
       (b = true ↔
        ∃ field s,
          field ∈ ["case_number"; "title"; "plaintiff"; "defendant"] ∧
          get c field = VStr s ∧ includes (toLowerCase s) term = true).
Proof.
  intros Hc. unfold Cases.search_matches.
  assert (∀ field,
            field ∈ ["case_number"; "title"; "plaintiff"; "defendant"] →
            ∃ b : bool, Cases.lower_includes c field term =
                   inr (if b then VBool true else
                          match get c field with
                          | VStr _ => VBool false | _ => VUndefined end) ∧
                 (b = true ↔ ∃ s, get c field = VStr s ∧
                                  includes (toLowerCase s) term = true))
    as Hfield.
  { intros field Hin. unfold Cases.lower_includes.
    destruct (Hc field Hin) as [-> | [-> | [s ->]]].
    - exists false. split; [done|]. split; [done | by intros (s & ? & _)].
    - exists false. split; [done|]. split; [done | by intros (s & ? & _)].
    - exists (includes (toLowerCase s) term). simpl.
      split; [by destruct (includes _ term)|].
      split; [intros Hb; by exists s | by intros (s' & [= <-] & Hs)]. }
  destruct (Hfield "case_number" ltac:(repeat constructor)) as (b1 & -> & H1).
  destruct (Hfield "title" ltac:(repeat constructor)) as (b2 & -> & H2).
  destruct (Hfield "plaintiff" ltac:(repeat constructor)) as (b3 & -> & H3).
  destruct (Hfield "defendant" ltac:(repeat constructor)) as (b4 & -> & H4).
  exists (b1 || b2 || b3 || b4). split.
  - unfold Cases.or_throwing.
    destruct b1, b2, b3, b4; simpl;
      repeat (match goal with
              | |- context [match get c ?f with _ => _ end] =>
                destruct (get c f)
              end; simpl); done.
  - rewrite !orb_true_iff, H1, H2, H3, H4. split.
    + intros [[[(s & Hs)|(s & Hs)]|(s & Hs)]|(s & Hs)];
        eexists _, s; (split; [|exact Hs]); repeat constructor.
    + intros (field & s & Hin & Hs).
      repeat (apply elem_of_cons in Hin as [->|Hin]; [eauto 6|]).
      by apply elem_of_nil in Hin.
Qed.

Lemma filter_throwing_total {A} (p : A → ApiError + bool) (q : A → bool)
    (l : list A) :
  (∀ x, x ∈ l → p x = inr (q x)) →
  filter_throwing p l = inr (List.filter q l).
Proof.
  induction l as [|x l IH]; intros Hp; [done|]. simpl.
  rewrite (Hp x) by apply list_elem_of_here.
  rewrite IH by (intros y Hy; apply Hp; by apply list_elem_of_further).
  done.
Qed.

(** X17.  When the case number, title, plaintiff and defendant of every
    stored case are strings or missing, [GET /api/cases?search=s] with no
    other parameter returns exactly the stored cases one of whose four
    properties contains [s], letter case aside. *)
Theorem get_root_search (store : list (gmap string value)) (req : Request)
    (s : string) :
  Forall searchable store →
  query req = {[ "search" := s ]} →
  s ≠ "" →
  ∃ cases,
    Cases.get_root store req =
      Sent {| status := 200;
              json := object [("success", VBool true);
                              ("data", VArr (VObj <$> cases));
                              ("total", VInt (Z.of_nat (length cases)))] |} ∧
    ∀ c, c ∈ cases ↔
         c ∈ store ∧
         ∃ field v,
           field ∈ ["case_number"; "title"; "plaintiff"; "defendant"] ∧
           get c field = VStr v ∧
           includes (toLowerCase v) (toLowerCase s) = true.
Proof.
  intros Hstore Hq Hs. unfold Cases.get_root. rewrite Hq.
  rewrite lookup_singleton_eq, !lookup_singleton_ne by done.
  destruct (String.eqb_spec s "") as [|_]; [done|].
  cbn [default Cases.filter_field Cases.active_filter].
  set (q := λ c, match Cases.search_matches (toLowerCase s) c with
                 | inr b => b | inl _ => false end).
  rewrite (filter_throwing_total _ q).
  2:{ intros c Hc. rewrite Forall_forall in Hstore.
      destruct (search_matches_searchable (toLowerCase s) c (Hstore c Hc))
        as (b & Hb & _). unfold q. by rewrite Hb. }
  eexists. split; [reflexivity|]. intros c.
  cbn [String.eqb Ascii.eqb Bool.eqb].
  rewrite Array_sort_Permutation, list_elem_of_In, filter_In,
    <- list_elem_of_In.
  split.
  - intros [Hc Hqc]. split; [done|]. rewrite Forall_forall in Hstore.
    destruct (search_matches_searchable (toLowerCase s) c (Hstore c Hc))
      as (b & Hb & Hiff). unfold q in Hqc. rewrite Hb in Hqc.
    by apply Hiff.
  - intros [Hc Hmatch]. split; [done|]. rewrite Forall_forall in Hstore.
    destruct (search_matches_searchable (toLowerCase s) c (Hstore c Hc))
      as (b & Hb & Hiff). unfold q. rewrite Hb. by apply Hiff.
Qed.

End ListFacts.

Lemma mockCases_dated :
  Forall (λ c, is_Some (@Date_getTime demo_runtime (get c "updated_date")))
    Cases.mockCases.
Proof. repeat constructor; vm_compute; eauto. Qed.

Lemma mockCases_searchable : Forall searchable Cases.mockCases.
Proof.
  constructor; [|constructor; [|constructor]]; intros field Hin;
    repeat (apply elem_of_cons in Hin as [->|Hin];
            [right; right; eexists; vm_compute; reflexivity|]);
    by apply elem_of_nil in Hin.
Qed.

(** The theorems at work on the initial store, in the example runtime. *)
Lemma get_root_sorted_witness :
  ∃ r cases,
    @Cases.get_root demo_runtime Cases.mockCases (request "" ∅ ∅) = Sent r ∧
    get (json r) "data" = VArr (VObj <$> cases) ∧
    StronglySorted (λ a b, @Date_ge demo_runtime (get a "updated_date")
                             (get b "updated_date") = true) cases.
Proof.
  destruct (@Cases.get_root demo_runtime Cases.mockCases (request "" ∅ ∅))
    as [r|e] eqn:Hget; [|vm_compute in Hget; discriminate].
  destruct (@get_root_sorted demo_runtime Cases.mockCases (request "" ∅ ∅) r
              mockCases_dated Hget) as (cases & Hdata & Hdesc & _).
  exists r, cases. split; [done|]. split; [done|]. apply Hdesc. by left.
Defined.

Lemma get_root_limit_witness :
  ∃ r cases,
    @Cases.get_root demo_runtime Cases.mockCases
      (request "" {[ "limit" := "ten" ]} ∅) = Sent r ∧
    get (json r) "data" = VArr (VObj <$> cases) ∧ cases = [].
Proof.
  destruct (@Cases.get_root demo_runtime Cases.mockCases
              (request "" {[ "limit" := "ten" ]} ∅))
    as [r|e] eqn:Hget; [|vm_compute in Hget; discriminate].
  destruct (@get_root_limit demo_runtime Cases.mockCases
              (request "" {[ "limit" := "ten" ]} ∅) r "ten"
              (lookup_singleton_eq _ _) ltac:(discriminate) Hget)
    as (cases & -> & _ & Hnan).
  eexists _, cases. split; [reflexivity|]. cbn [json].
  split; [by read_property | by apply Hnan].
Defined.

Lemma get_root_search_witness :
  ∃ cases,
    sent_data (@Cases.get_root demo_runtime Cases.mockCases
                 (request "" {[ "search" := "SMITH" ]} ∅)) =
      VArr (VObj <$> cases) ∧
    (∀ c, Cases.mockCases !! 0%nat = Some c → c ∈ cases) ∧
    (∀ c, Cases.mockCases !! 1%nat = Some c → c ∉ cases).
Proof.
  destruct (@get_root_search demo_runtime Cases.mockCases
              (request "" {[ "search" := "SMITH" ]} ∅) "SMITH"
              mockCases_searchable eq_refl ltac:(discriminate))
    as (cases & Hget & Hcases).
  exists cases. split; [exact (f_equal sent_data Hget)|]. split.
  - intros c Hc. apply Hcases. split; [by eapply list_elem_of_lookup_2|].
    injection Hc as <-.
    exists "title", "Smith vs. Johnson Contract Dispute".
    split; [apply list_elem_of_further, list_elem_of_here|].
    split; vm_compute; reflexivity.
  - intros c Hc Hin. injection Hc as <-.
    apply Hcases in Hin as (_ & field & v & Hfield & Hv & Hfound).
    repeat (apply elem_of_cons in Hfield as [->|Hfield];
            [vm_compute in Hv; injection Hv as <-;
             vm_compute in Hfound; discriminate|]).
    by apply elem_of_nil in Hfield.
Defined.

(** In the example runtime, whose case tables reach Latin-1, a search in
    capitals finds a title with an accented small letter. *)
Example get_root_search_latin1 :
  let dispute := object [("id", VStr "3");
                         ("title", VStr "Café Dispute");
                         ("updated_date", VStr "2024-01-15T10:30:00Z")] in
  sent_data (@Cases.get_root demo_runtime [dispute]
               (request "" {[ "search" := "CAFÉ" ]} ∅)) =
    VArr [VObj dispute] ∧
  sent_data (@Cases.get_root demo_runtime [dispute]
               (request "" {[ "search" := "CAFE" ]} ∅)) = VArr [].
Proof. vm_compute. split; reflexivity. Qed.

(** ** Route order *)

Lemma path_matches_single_param (s : string) :
  s ≠ "" → path_matches [Param] [s] "" = Some s.
Proof. intros Hs. cbn. by destruct (String.eqb_spec s ""). Qed.

(** Settling that a request is not dispatched to a given handler: by cases
    on the method and on the number of segments of the path; for a single
    segment, on whether it is empty. *)
Ltac never_dispatched :=
  intros m p id;
  destruct p as [|s [|s2 p]];
  [ destruct m; vm_compute; discriminate
  | destruct (String.eqb_spec s "") as [->|Hs];
    [ destruct m; vm_compute; discriminate
    | destruct m;
      cbn [dispatch method_eqb Cases.routes Documents.routes
           CalendarEvents.routes CallLogs.routes];
      rewrite ?(path_matches_single_param s Hs);
      cbn [path_matches];
      repeat match goal with
             | |- context [if ?b then _ else _] => destruct b
             end; discriminate ]
  | destruct m;
    cbn [dispatch method_eqb path_matches Cases.routes Documents.routes
         CalendarEvents.routes CallLogs.routes];
    repeat match goal with
           | |- context [if ?b then _ else _] => destruct b
           end; discriminate ].

(** X18.  In the routers of cases, documents, calendar events and call
    logs the route [GET /:id] is registered before the one-segment [GET]
    routes with a fixed name, so a [GET] for any single segment goes to the
    by-id handler with that segment as the id, and the handlers registered
    for [/search], [/stats], [/upcoming] and [/today] are never reached, by
    any request. *)
Theorem named_get_routes_shadowed :
  (∀ s, s ≠ "" →
     dispatch Cases.routes GET [s] = Some (Cases.GetById, s) ∧
     dispatch Documents.routes GET [s] = Some (Documents.GetById, s) ∧
     dispatch CalendarEvents.routes GET [s] = Some (CalendarEvents.GetById, s) ∧
     dispatch CallLogs.routes GET [s] = Some (CallLogs.GetById, s)) ∧
  (∀ m p id, dispatch Cases.routes m p ≠ Some (Cases.GetSearch, id)) ∧
  (∀ m p id, dispatch Cases.routes m p ≠ Some (Cases.GetStats, id)) ∧
  (∀ m p id, dispatch Documents.routes m p ≠ Some (Documents.GetSearch, id)) ∧
  (∀ m p id, dispatch Documents.routes m p ≠ Some (Documents.GetStats, id)) ∧
  (∀ m p id, dispatch CalendarEvents.routes m p ≠
             Some (CalendarEvents.GetUpcoming, id)) ∧
  (∀ m p id, dispatch CalendarEvents.routes m p ≠
             Some (CalendarEvents.GetToday, id)) ∧
  (∀ m p id, dispatch CalendarEvents.routes m p ≠
             Some (CalendarEvents.GetStats, id)) ∧
  (∀ m p id, dispatch CallLogs.routes m p ≠ Some (CallLogs.GetSearch, id)) ∧
  (∀ m p id, dispatch CallLogs.routes m p ≠ Some (CallLogs.GetStats, id)).
Proof.
  split.
  - intros s Hs.
    repeat split; cbn [dispatch method_eqb Cases.routes Documents.routes
                       CalendarEvents.routes CallLogs.routes];
      by rewrite (path_matches_single_param s Hs).
  - repeat split; never_dispatched.
Qed.

(** The theorem at work. *)
Lemma named_get_routes_shadowed_witness :
  dispatch Cases.routes GET ["stats"] = Some (Cases.GetById, "stats") ∧
  dispatch CalendarEvents.routes GET ["upcoming"] =
    Some (CalendarEvents.GetById, "upcoming").
Proof.
  destruct (proj1 named_get_routes_shadowed "stats" ltac:(discriminate))
    as (Hcases & _).
  destruct (proj1 named_get_routes_shadowed "upcoming" ltac:(discriminate))
    as (_ & _ & Hevents & _).
  split; [exact Hcases | exact Hevents].
Defined.

(** X19.  Through the router of [/api/cases], a [GET] for a single segment
    is answered by the by-id handler and leaves the store alone; so
    [GET /api/cases/stats] and [GET /api/cases/search] are answered with the
    404 error [CASE_NOT_FOUND] unless a stored case has that very id. *)
Theorem cases_router_get_segment `{Runtime}
    (store : list (gmap string value)) (req : Request) (clock : nat → Z)
    (s : string) :
  s ≠ "" →
  Cases.router store req GET [s] clock =
    Some (Cases.get_by_id store (with_id req s), store) ∧
  ((∀ c, c ∈ store → strict_eq (get c "id") (VStr s) = false) →
   Cases.router store req GET [s] clock =
     Some (Thrown (apiError "Case not found" 404 "CASE_NOT_FOUND"), store)).
Proof.
  intros Hs. unfold Cases.router.
  assert (dispatch Cases.routes GET [s] = Some (Cases.GetById, s)) as ->
    by (cbn [dispatch method_eqb Cases.routes];
        by rewrite (path_matches_single_param s Hs)).
  split; [done|]. intros Hnone. unfold Cases.get_by_id. cbn [params_id with_id].
  apply find_none_iff in Hnone. by rewrite Hnone.
Qed.

(** The theorem at work on the initial store. *)
Lemma cases_router_get_segment_witness :
  @Cases.router demo_runtime Cases.mockCases (request "" ∅ ∅) GET ["stats"]
    (λ _, 1700000000000) =
  Some (Thrown (apiError "Case not found" 404 "CASE_NOT_FOUND"),
        Cases.mockCases).
Proof.
  apply (@cases_router_get_segment demo_runtime); [discriminate|].
  intros c Hc. repeat (apply elem_of_cons in Hc as [->|Hc]; [reflexivity|]).
  by apply elem_of_nil in Hc.
Defined.

(** ** Errors and the stores *)

(** X20.  A request that ends in an error changes nothing: every handler
    of cases, documents and call logs that throws leaves its array as it
    was. *)
Theorem thrown_leaves_store `{Runtime} (store : list (gmap string value))
    (req : Request) (u : option Documents.Upload)
    (t1 t2 t3 t4 t5 : Z) (e : ApiError) :
  (fst (Cases.post_root store req t1 t2 t3) = Thrown e →
   snd (Cases.post_root store req t1 t2 t3) = store) ∧
  (fst (Cases.put_by_id store req t1) = Thrown e →
   snd (Cases.put_by_id store req t1) = store) ∧
  (fst (Cases.delete_by_id store req) = Thrown e →
   snd (Cases.delete_by_id store req) = store) ∧
  (fst (Documents.post_upload store req u t1 t2 t3 t4 t5) = Thrown e →
   snd (Documents.post_upload store req u t1 t2 t3 t4 t5) = store) ∧
  (fst (CallLogs.post_initiate store req t1 t2 t3 t4) = Thrown e →
   snd (CallLogs.post_initiate store req t1 t2 t3 t4) = store) ∧
  (fst (CallLogs.post_end store req t1 t2) = Thrown e →
   snd (CallLogs.post_end store req t1 t2) = store).
Proof.
  unfold Cases.post_root, Cases.put_by_id, Cases.delete_by_id,
    Documents.post_upload, Documents.upload_handler,
    CallLogs.post_initiate, CallLogs.post_end.
  repeat split;
    repeat (match goal with
            | |- context [if ?b then _ else _] => destruct b
            | |- context [match ?o with Some _ => _ | None => _ end] =>
              destruct o
            | |- context [match ?o with inl _ => _ | inr _ => _ end] =>
              destruct o
            end; cbn [fst snd file]; try done).
Qed.

(** The theorem at work: a case without a title. *)
Lemma thrown_leaves_store_witness :
  snd (Cases.post_root Cases.mockCases
         (request "" ∅ (object [("case_number", VStr "2024-FA-000042")]))
         1700000000000 0 0) = Cases.mockCases.
Proof.
  apply (proj1 (@thrown_leaves_store demo_runtime Cases.mockCases
                  (request "" ∅ (object [("case_number", VStr "2024-FA-000042")]))
                  None 1700000000000 0 0 0 0
                  (apiError "Case number and title are required" 400
                            "MISSING_REQUIRED_FIELDS"))).
  vm_compute. reflexivity.
Defined.

(** ** Uploads that are accepted *)

(** X21.  An upload of a file with a file name, sent under the field
    [file], whose MIME type is in the whitelist and whose size is less than
    [50 * 1024 * 1024] bytes is answered 201 and adds exactly one document
    at the end of the array, with the name, MIME type and size of the file;
    its status is ['processing'] for a PDF or plain text and ['completed']
    for the other types. *)
Theorem upload_accepted `{Runtime} (store : list (gmap string value))
    (req : Request) (f : Documents.Upload)
    (t_name rnd now t_created t_updated : Z) :
  Documents.originalname f ≠ "" →
  Documents.fieldname f = "file" →
  Documents.mimetype f ∈ Documents.allowedTypes →
  Documents.size f < 50 * 1024 * 1024 →
  ∃ r doc,
    Documents.post_upload store req (Some f)
      t_name rnd now t_created t_updated = (Sent r, store ++ [doc]) ∧
    status r = 201 ∧
    get (json r) "data" = VObj doc ∧
    get doc "id" = VStr (Z_toString now) ∧
    get doc "original_name" = VStr (Documents.originalname f) ∧
    get doc "mime_type" = VStr (Documents.mimetype f) ∧
    get doc "file_size" = VInt (Documents.size f) ∧
    get doc "file_name" = VStr (Documents.filename f t_name rnd) ∧
    get doc "status" =
      VStr (if bool_decide (Documents.mimetype f = "application/pdf" ∨
                            Documents.mimetype f = "text/plain")
            then "processing" else "completed").
Proof.
  intros Hname Hfield Hmime Hsize.
  unfold Documents.post_upload, Documents.upload_single, Documents.fileFilter.
  destruct (String.eqb_spec (Documents.originalname f) ""); [done|].
  rewrite Hfield. cbn [String.eqb Ascii.eqb Bool.eqb negb].
  apply Array_includes_spec in Hmime. rewrite Hmime.
  assert (Documents.over_limit (Documents.size f) = false) as ->.
  { unfold Documents.over_limit, Documents.fileSize.
    apply orb_false_intro; [apply Z.ltb_ge; lia|].
    apply andb_false_intro1, Z.eqb_neq. lia. }
  unfold Documents.upload_handler. cbn [file].
  eexists _, _. split; [reflexivity|]. split; [reflexivity|]. cbn [json].
  split; [by read_property|].
  repeat (split; [by read_property|]).
  read_property. f_equal. cbn [strict_eq].
  destruct (String.eqb_spec (Documents.mimetype f) "application/pdf") as [Hp|Hp];
    [by rewrite bool_decide_eq_true_2 by auto|].
  destruct (String.eqb_spec (Documents.mimetype f) "text/plain") as [Ht|Ht];
    [by rewrite bool_decide_eq_true_2 by auto|].
  by rewrite bool_decide_eq_false_2 by (by intros [|]).
Qed.

(** The theorem at work in the example runtime. *)
Lemma upload_accepted_witness :
  let png := {| Documents.fieldname := "file";
                Documents.originalname := "exhibit.png";
                Documents.mimetype := "image/png";
                Documents.size := 2048 |} in
  ∃ r doc,
    @Documents.post_upload demo_runtime Documents.mockDocuments
      (request "" ∅ ∅) (Some png) 1700000000000 7 1700000000001 0 0 =
      (Sent r, Documents.mockDocuments ++ [doc]) ∧
    get doc "file_name" = VStr "file-1700000000000-7.png" ∧
    get doc "status" = VStr "completed".
Proof.
  intros png.
  destruct (@upload_accepted demo_runtime Documents.mockDocuments
              (request "" ∅ ∅) png 1700000000000 7 1700000000001 0 0)
    as (r & doc & Hpost & _ & _ & _ & _ & _ & _ & Hname & Hstatus).
  - discriminate.
  - reflexivity.
  - apply Array_includes_spec. reflexivity.
  - simpl. lia.
  - exists r, doc. split; [exact Hpost|]. split; [|exact Hstatus].
    rewrite Hname. vm_compute. reflexivity.
Defined.

(** ** A call from start to end *)

Lemma findIndex_app_new {A} (p : A → bool) (l : list A) x :
  (∀ y, y ∈ l → p y = false) → p x = true →
  findIndex p (l ++ [x]) = Some (length l).
Proof.
  intros Hl Hx. induction l as [|y l IH]; simpl.
  - by rewrite Hx.
  - rewrite (Hl y) by apply list_elem_of_here.
    rewrite IH by (intros z Hz; apply Hl; by apply list_elem_of_further).
    done.
Qed.

(** The timer on a store whose last call is the one it looks for. *)
Lemma initiate_timer_last (store : list (gmap string value)) c id t :
  (∀ c', c' ∈ store → strict_eq (get c' "id") id = false) →
  strict_eq (get c "id") id = true →
  CallLogs.initiate_timer (store ++ [c]) id t =
    store ++ [extend c [("call_status", VStr "ringing");
                        ("updated_date", VStr (toISOString t))]].
Proof.
  intros Hfresh Hc. unfold CallLogs.initiate_timer.
  rewrite (findIndex_app_new _ store c Hfresh Hc).
  rewrite lookup_app_r, Nat.sub_diag by lia. cbn [lookup list_lookup].
  by rewrite insert_app_r_alt, Nat.sub_diag by lia.
Qed.

(** Ending the call that is last in the store. *)
Lemma post_end_last `{Runtime} (store : list (gmap string value)) c req t1 t2 :
  (∀ c', c' ∈ store →
     strict_eq (get c' "id") (VStr (params_id req)) = false) →
  get c "id" = VStr (params_id req) →
  truthy (get c "ended_at") = false →
  let ended := extend c [
    ("ended_at", VStr (toISOString t1));
    ("duration", VNum (CallLogs.duration_since (get c "started_at") t1));
    ("call_status", VStr "completed");
    ("updated_date", VStr (toISOString t2)) ] in
  CallLogs.post_end (store ++ [c]) req t1 t2 =
    (Sent {| status := 200;
             json := object [("success", VBool true);
                             ("data", VObj ended);
                             ("message", VStr "Call ended successfully")] |},
     store ++ [ended]).
Proof.
  intros Hfresh Hid Hended ended.
  assert (findIndex (λ c, strict_eq (get c "id") (VStr (params_id req)))
            (store ++ [c]) = Some (length store)) as Hindex.
  { apply findIndex_app_new; [done|]. rewrite Hid. simpl. apply String.eqb_refl. }
  assert ((store ++ [c]) !! length store = Some c) as Hlookup
    by (by rewrite lookup_app_r, Nat.sub_diag by lia).
  rewrite (post_end_not_ended _ req t1 t2 _ c Hindex Hlookup Hended).
  by rewrite insert_app_r_alt, Nat.sub_diag by lia.
Qed.

(** X22.  A call started with [POST /api/call-logs/initiate] and then
    ended with [POST /api/call-logs/:id/end] under the id the start
    returned is stored as completed, with the end time as [ended_at] and
    with the whole seconds between start and end as [duration], whether or
    not the timer of the start has marked it as ringing in between; this
    needs the start time to read back from its ISO string, and no older
    call log with the same id.  The call logs that were there before are
    untouched. *)
Theorem initiate_then_end `{Runtime} (store : list (gmap string value))
    (req req' : Request) (now t_started t_created t_updated : Z)
    (fired : bool) (t_ring t_end t_updated' : Z) :
  truthy (get (body req) "to_number") = true →
  (∀ c, c ∈ store → strict_eq (get c "id") (VStr (Z_toString now)) = false) →
  Date_getTime (VStr (toISOString t_started)) = Some t_started →
  params_id req' = Z_toString now →
  let started :=
    CallLogs.post_initiate store req now t_started t_created t_updated in
  let between :=
    if fired
    then CallLogs.initiate_timer (snd started) (VStr (Z_toString now)) t_ring
    else snd started in
  let ended := CallLogs.post_end between req' t_end t_updated' in
  sent_data (fst started) =
    VObj (object [("call_id", VStr (Z_toString now));
                  ("status", VStr "initiated")]) ∧
  ∃ call,
    snd ended = store ++ [call] ∧
    sent_data (fst ended) = VObj call ∧
    get call "id" = VStr (Z_toString now) ∧
    get call "call_status" = VStr "completed" ∧
    get call "started_at" = VStr (toISOString t_started) ∧
    get call "ended_at" = VStr (toISOString t_end) ∧
    get call "duration" = VInt ((t_end - t_started) / 1000).
Proof.
  intros Hto Hfresh Hparse Hid started between ended.
  subst started between ended.
  unfold CallLogs.post_initiate. rewrite Hto. cbn [negb fst snd sent_data json].
  set (newCall := object (("id", _) :: _)).
  assert (get newCall "id" = VStr (Z_toString now)) as Hnid
    by (subst newCall; by read_property).
  assert (get newCall "started_at" = VStr (toISOString t_started)) as Hstart
    by (subst newCall; by read_property).
  assert (truthy (get newCall "ended_at") = false) as Hended
    by (subst newCall; by read_property).
  clearbody newCall.
  split; [read_property; by rewrite Hnid|].
  assert (∃ c, (if fired
                then CallLogs.initiate_timer (store ++ [newCall])
                       (VStr (Z_toString now)) t_ring
                else store ++ [newCall]) = store ++ [c] ∧
               get c "id" = VStr (Z_toString now) ∧
               get c "started_at" = VStr (toISOString t_started) ∧
               truthy (get c "ended_at") = false) as (c & -> & Hcid & Hcs & Hce).
  { destruct fired; [|by exists newCall].
    rewrite initiate_timer_last;
      [|done|rewrite Hnid; simpl; apply String.eqb_refl].
    eexists. split; [reflexivity|].
    split; [read_property; exact Hnid|].
    split; [read_property; exact Hstart|].
    read_property; exact Hended. }
  rewrite <- Hid in Hfresh, Hcid.
  rewrite (post_end_last store c req' t_end t_updated' Hfresh Hcid Hce).
  cbn [fst snd sent_data json]. eexists. split; [reflexivity|].
  split; [by read_property|].
  split; [read_property; by rewrite Hcid, Hid|].
  split; [by read_property|].
  split; [read_property; exact Hcs|].
  split; [by read_property|].
  read_property. unfold CallLogs.duration_since. by rewrite Hcs, Hparse.
Qed.

(** The theorem at work in the example runtime: a call of ninety seconds,
    marked as ringing after one second. *)
Lemma initiate_then_end_witness :
  let req := request "" ∅ (object [("to_number", VStr "+15550001111")]) in
  let started := CallLogs.post_initiate CallLogs.mockCallLogs req
      1700049600000 1700049600000 1700049600000 1700049600000 in
  let between := CallLogs.initiate_timer (snd started)
      (VStr "1700049600000") 1700049601000 in
  let ended := @CallLogs.post_end demo_runtime between
      (request "1700049600000" ∅ ∅) 1700049690000 1700049690001 in
  ∃ call,
    snd ended = CallLogs.mockCallLogs ++ [call] ∧
    get call "duration" = VInt 90.
Proof.
  intros req started between ended.
  destruct (@initiate_then_end demo_runtime CallLogs.mockCallLogs req
              (request "1700049600000" ∅ ∅)
              1700049600000 1700049600000 1700049600000 1700049600000
              true 1700049601000 1700049690000 1700049690001)
    as (_ & call & Hstore & _ & _ & _ & _ & _ & Hduration).
  - reflexivity.
  - intros c Hc. repeat (apply elem_of_cons in Hc as [->|Hc]; [reflexivity|]).
    by apply elem_of_nil in Hc.
  - vm_compute. reflexivity.
  - reflexivity.
  - exists call. split; [exact Hstore | exact Hduration].
Defined.

(** X23.  A call that is ended before the timer of its start has fired,
    that is within the first second, does not stay completed: the timer
    finds the ended call under the same id and sets its [call_status] to
    ['ringing'], while [ended_at] keeps the end time. *)
Theorem timer_after_end_marks_ringing `{Runtime}
    (store : list (gmap string value)) (req req' : Request)
    (now t_started t_created t_updated t_end t_updated' t_ring : Z) :
  truthy (get (body req) "to_number") = true →
  (∀ c, c ∈ store → strict_eq (get c "id") (VStr (Z_toString now)) = false) →
  params_id req' = Z_toString now →
  let started :=
    CallLogs.post_initiate store req now t_started t_created t_updated in
  let ended := CallLogs.post_end (snd started) req' t_end t_updated' in
  ∃ call,
    CallLogs.initiate_timer (snd ended) (VStr (Z_toString now)) t_ring =
      store ++ [call] ∧
    get call "call_status" = VStr "ringing" ∧
    get call "ended_at" = VStr (toISOString t_end) ∧
    get call "updated_date" = VStr (toISOString t_ring).
Proof.
  intros Hto Hfresh Hid started ended. subst started ended.
  unfold CallLogs.post_initiate. rewrite Hto. cbn [negb snd].
  set (newCall := object (("id", _) :: _)).
  assert (get newCall "id" = VStr (Z_toString now)) as Hnid
    by (subst newCall; by read_property).
  assert (truthy (get newCall "ended_at") = false) as Hended
    by (subst newCall; by read_property).
  clearbody newCall.
  pose proof Hfresh as Hfresh'. rewrite <- Hid in Hfresh', Hnid.
  rewrite (post_end_last store newCall req' t_end t_updated'
             Hfresh' Hnid Hended).
  cbn [snd]. rewrite initiate_timer_last; [|done|].
  - eexists. split; [reflexivity|]. by repeat split; read_property.
  - read_property. rewrite Hnid, Hid. simpl. apply String.eqb_refl.
Qed.

(** The theorem at work: the call is ended after half a second. *)
Lemma timer_after_end_marks_ringing_witness :
  let req := request "" ∅ (object [("to_number", VStr "+15550001111")]) in
  let started := CallLogs.post_initiate CallLogs.mockCallLogs req
      1700049600000 1700049600000 1700049600000 1700049600000 in
  let ended := @CallLogs.post_end demo_runtime (snd started)
      (request "1700049600000" ∅ ∅) 1700049600500 1700049600500 in
  ∃ call,
    CallLogs.initiate_timer (snd ended) (VStr "1700049600000") 1700049601000 =
      CallLogs.mockCallLogs ++ [call] ∧
    get call "call_status" = VStr "ringing" ∧
    get call "ended_at" = VStr (toISOString 1700049600500).
Proof.
  intros req started ended.
  destruct (@timer_after_end_marks_ringing demo_runtime CallLogs.mockCallLogs
              req (request "1700049600000" ∅ ∅)
              1700049600000 1700049600000 1700049600000 1700049600000
              1700049600500 1700049600500 1700049601000)
    as (call & Hstore & Hstatus & Hended & _).
  - reflexivity.
  - intros c Hc. repeat (apply elem_of_cons in Hc as [->|Hc]; [reflexivity|]).
    by apply elem_of_nil in Hc.
  - reflexivity.
  - exists call. split; [exact Hstore|]. split; [exact Hstatus | exact Hended].
Defined.
